(** * opencode-notifier: configuration, sound toggle, debounce and dispatch

    A shallow embedding of the TypeScript sources
      - config.ts        (loadConfig, parseEventConfig, saveConfig, accessors)
      - sound-toggle.ts  (enableSound, disableSound, toggleSound, soundStatus)
      - notify.ts        (sendNotification and its debounce table)
      - index.ts         (handleEvent, the terminal-focus detector,
                          handleEventWithElapsedTime)
    followed by the properties established about them.

    Conventions of the embedding:
      - a JavaScript value is a [jsval]; a parsed JSON document is a [jsval]
        without [VUndef];
      - a JavaScript number is a [number]: a rational for the finite doubles
        (signed zeros are identified), or one of the three non-finite values;
        comparisons of given numbers are exact, and the one quotient the
        program computes in double arithmetic is left to the host;
      - a plain object indexed by an arbitrary string answers for the
        names of [Object.prototype] as well as for its own properties;
      - a thrown exception is [None] in the [exn] monad;
      - the file system holds at most the one config file; the module-level
        object DEFAULT_CONFIG is part of the store because the sound toggle
        can assign to its [sound] property through an alias;
      - asynchronous side effects are recorded as a list of [action]s in
        the order in which the handler issues them. *)

From Stdlib Require Import String Ascii List ZArith QArith Bool Sorted Lia.
From stdpp Require Import gmap strings.
Import ListNotations.

Open Scope string_scope.
Open Scope list_scope.

(* ===================================================================== *)
(** ** JavaScript numbers and values *)
(* ===================================================================== *)

Inductive number : Type :=
| Fin (q : Q)
| PosInf
| NegInf
| NaN.

(** [Number.isFinite] on a value already known to be a number. *)
Definition isFinite (n : number) : bool :=
  match n with
  | Fin _ => true
  | _ => false
  end.

Definition Qltb (a b : Q) : bool := negb (Qle_bool b a).

(** [a < b] on numbers: every comparison with NaN is false. *)
Definition num_lt (a b : number) : bool :=
  match a, b with
  | NaN, _ | _, NaN => false
  | Fin x, Fin y => Qltb x y
  | NegInf, NegInf => false
  | NegInf, _ => true
  | _, PosInf => match a with PosInf => false | _ => true end
  | _, _ => false
  end.

(** [a > b]. *)
Definition num_gt (a b : number) : bool := num_lt b a.

(** [a === b] on numbers: NaN differs from itself. *)
Definition num_eq (a b : number) : bool :=
  match a, b with
  | Fin x, Fin y => Qeq_bool x y
  | PosInf, PosInf => true
  | NegInf, NegInf => true
  | _, _ => false
  end.

Definition zero : number := Fin 0.

#[warnings="-register-all"]
Inductive jsval : Type :=
| VUndef
| VNull
| VBool (b : bool)
| VNum (n : number)
| VStr (s : string)
| VArr (l : list jsval)
| VObj (o : list (string * jsval)).

(** Own-property lookup in an object literal; an absent key reads as
    [undefined]. *)
Fixpoint lookup_key (k : string) (o : list (string * jsval)) : jsval :=
  match o with
  | [] => VUndef
  | (k', v) :: o' => if String.eqb k k' then v else lookup_key k o'
  end.

Fixpoint has_key (k : string) (o : list (string * jsval)) : bool :=
  match o with
  | [] => false
  | (k', _) :: o' => String.eqb k k' || has_key k o'
  end.

(** Exceptions: [None] is a thrown error. *)
Definition exn (A : Type) : Type := option A.
Definition ret {A} (a : A) : exn A := Some a.
Definition bind {A B} (m : exn A) (k : A -> exn B) : exn B :=
  match m with
  | Some a => k a
  | None => None
  end.

Notation "'do' x <- m ; k" := (bind m (fun x => k))
  (at level 10, x name, m at level 100, k at level 200).

(** [v.k]: a TypeError on [null] and [undefined]; on the other primitives
    and on arrays the property names this program reads do not exist. *)
Definition prop (v : jsval) (k : string) : exn jsval :=
  match v with
  | VUndef | VNull => None
  | VObj o => Some (lookup_key k o)
  | _ => Some VUndef
  end.

(** [v?.k]. *)
Definition opt_prop (v : jsval) (k : string) : jsval :=
  match v with
  | VObj o => lookup_key k o
  | _ => VUndef
  end.

Definition nullish (v : jsval) : bool :=
  match v with
  | VUndef | VNull => true
  | _ => false
  end.

(** [a ?? b]. *)
Definition coalesce (a b : jsval) : jsval := if nullish a then b else a.

(** JavaScript truthiness. *)
Definition truthy (v : jsval) : bool :=
  match v with
  | VUndef | VNull => false
  | VBool b => b
  | VNum (Fin q) => negb (Qeq_bool q 0)
  | VNum NaN => false
  | VNum _ => true
  | VStr s => negb (String.eqb s "")
  | VArr _ | VObj _ => true
  end.

(** [a === b].  Two arrays or two objects are strictly equal exactly when
    they are the same reference; a structural value carries no reference, so
    that case is delegated to the oracle [same_ref]. *)
Definition strict_eq (same_ref : jsval -> jsval -> bool) (a b : jsval) : bool :=
  match a, b with
  | VUndef, VUndef => true
  | VNull, VNull => true
  | VBool x, VBool y => Bool.eqb x y
  | VNum x, VNum y => num_eq x y
  | VStr x, VStr y => String.eqb x y
  | VArr _, VArr _ | VObj _, VObj _ => same_ref a b
  | _, _ => false
  end.

(** A plain object (an object literal, the result of [JSON.parse]) inherits
    the properties of [Object.prototype].  None of the property names read
    by [prop] and [opt_prop] in this program is among them; the two tables
    that are plain objects indexed by an arbitrary string
    ([lastNotificationTime] of notify.ts, [TERMINAL_PROCESS_NAMES] of
    index.ts) consult this list. *)
Definition Object_prototype_keys : list string :=
  ["constructor"; "__defineGetter__"; "__defineSetter__"; "hasOwnProperty";
   "__lookupGetter__"; "__lookupSetter__"; "isPrototypeOf";
   "propertyIsEnumerable"; "toString"; "valueOf"; "__proto__";
   "toLocaleString"].

Definition inherited (k : string) : bool :=
  existsb (String.eqb k) Object_prototype_keys.

(* ===================================================================== *)
(** ** config.ts: the data model *)
(* ===================================================================== *)

Inductive EventType : Type :=
| permission
| complete
| subagent_complete
| error
| question.

Module EventConfig.
Record t : Type := mk { sound : jsval; notification : jsval }.
End EventConfig.

Module CommandConfig.
Record t : Type := mk {
  enabled : bool;
  path : string;
  args : option (list string);
  minDuration : number
}.
End CommandConfig.

(** One entry per [EventType], as in the [events], [messages] and [sounds]
    members of the interface. *)
Module PerEvent.
Record t (A : Type) : Type := mk {
  permission : A;
  complete : A;
  subagent_complete : A;
  error : A;
  question : A
}.
Arguments mk {A}.
Arguments permission {A}.
Arguments complete {A}.
Arguments subagent_complete {A}.
Arguments error {A}.
Arguments question {A}.
End PerEvent.

(** [table[event]]. *)
Definition at_event {A} (table : PerEvent.t A) (event : EventType) : A :=
  match event with
  | permission => PerEvent.permission table
  | complete => PerEvent.complete table
  | subagent_complete => PerEvent.subagent_complete table
  | error => PerEvent.error table
  | question => PerEvent.question table
  end.

Inductive NotificationSystem : Type := osascript | node_notifier.

Definition NotificationSystem_name (n : NotificationSystem) : string :=
  match n with
  | osascript => "osascript"
  | node_notifier => "node-notifier"
  end.

(** The object [loadConfig] returns.  The interface declares [sound],
    [notification], the two [show*] flags, the per-event flags, messages and
    sounds with static types, but [loadConfig] copies them from the parsed
    document unchecked, so they are [jsval]s here; [timeout], [command] and
    [notificationSystem] are checked by [loadConfig] and carry their types. *)
Record NotifierConfig : Type := mkConfig {
  sound : jsval;
  notification : jsval;
  timeout : number;
  showProjectName : jsval;
  showIcon : jsval;
  notificationSystem : NotificationSystem;
  command : CommandConfig.t;
  events : PerEvent.t EventConfig.t;
  messages : PerEvent.t jsval;
  sounds : PerEvent.t jsval
}.

Definition DEFAULT_EVENT_CONFIG : EventConfig.t :=
  EventConfig.mk (VBool true) (VBool true).

(** DEFAULT_CONFIG as a function of the current value of its [sound]
    property, the only one any code of the module assigns to (see
    [set_sound]); module initialisation gives [true]. *)
Definition DEFAULT_CONFIG_with (default_sound : bool) : NotifierConfig :=
  {| sound := VBool default_sound;
     notification := VBool true;
     timeout := Fin 5;
     showProjectName := VBool true;
     showIcon := VBool true;
     notificationSystem := osascript;
     command := CommandConfig.mk false "" None zero;
     events := PerEvent.mk
       DEFAULT_EVENT_CONFIG
       DEFAULT_EVENT_CONFIG
       (EventConfig.mk (VBool false) (VBool false))
       DEFAULT_EVENT_CONFIG
       DEFAULT_EVENT_CONFIG;
     messages := PerEvent.mk
       (VStr "Session needs permission")
       (VStr "Session has finished")
       (VStr "Subagent task completed")
       (VStr "Session encountered an error")
       (VStr "Session has a question");
     sounds := PerEvent.mk VNull VNull VNull VNull VNull |}.

Definition DEFAULT_CONFIG : NotifierConfig := DEFAULT_CONFIG_with true.

(* ===================================================================== *)
(** ** config.ts: parseEventConfig and loadConfig *)
(* ===================================================================== *)

Definition parseEventConfig (userEvent : jsval) (defaultConfig : EventConfig.t)
  : exn EventConfig.t :=
  match userEvent with
  | VUndef => ret defaultConfig
  | VBool b => ret (EventConfig.mk (VBool b) (VBool b))
  | _ =>
      do s <- prop userEvent "sound" ;
      do n <- prop userEvent "notification" ;
      ret (EventConfig.mk
             (coalesce s (EventConfig.sound defaultConfig))
             (coalesce n (EventConfig.notification defaultConfig)))
  end.

(** [userCommand.args.filter(arg => typeof arg === "string")]. *)
Fixpoint filter_strings (l : list jsval) : list string :=
  match l with
  | [] => []
  | VStr s :: l' => s :: filter_strings l'
  | _ :: l' => filter_strings l'
  end.

(** [userConfig.events?.<name> ?? userConfig.<name>]. *)
Definition user_event (userConfig : jsval) (name : string) : exn jsval :=
  do ev <- prop userConfig "events" ;
  do legacy <- prop userConfig name ;
  ret (coalesce (opt_prop ev name) legacy).

(** [userConfig.<table>?.<name> ?? fallback]. *)
Definition user_entry (userConfig : jsval) (table name : string) (fallback : jsval)
  : exn jsval :=
  do t <- prop userConfig table ;
  ret (coalesce (opt_prop t name) fallback).

(** The body of the [try] block of [loadConfig], after [JSON.parse];
    [default_sound] is the current DEFAULT_CONFIG.sound. *)
Definition loadConfig_body (default_sound : bool) (userConfig : jsval)
  : exn NotifierConfig :=
  let D := DEFAULT_CONFIG_with default_sound in
  do us <- prop userConfig "sound" ;
  let globalSound := coalesce us (sound D) in
  do un <- prop userConfig "notification" ;
  let globalNotification := coalesce un (notification D) in
  let defaultWithGlobal := EventConfig.mk globalSound globalNotification in
  do uc <- prop userConfig "command" ;
  let userCommand := coalesce uc (VObj []) in
  do ua <- prop userCommand "args" ;
  let commandArgs :=
    match ua with
    | VArr l => Some (filter_strings l)
    | _ => None
    end in
  do umd <- prop userCommand "minDuration" ;
  let commandMinDuration :=
    match umd with
    | VNum n => if isFinite n && num_gt n zero then n else zero
    | _ => zero
    end in
  do ut <- prop userConfig "timeout" ;
  do uspn <- prop userConfig "showProjectName" ;
  do usi <- prop userConfig "showIcon" ;
  do uns <- prop userConfig "notificationSystem" ;
  do uen <- prop userCommand "enabled" ;
  do upath <- prop userCommand "path" ;
  do e1 <- user_event userConfig "permission" ;
  do ev1 <- parseEventConfig e1 defaultWithGlobal ;
  do e2 <- user_event userConfig "complete" ;
  do ev2 <- parseEventConfig e2 defaultWithGlobal ;
  do e3 <- user_event userConfig "subagent_complete" ;
  do ev3 <- parseEventConfig e3 (EventConfig.mk (VBool false) (VBool false)) ;
  do e4 <- user_event userConfig "error" ;
  do ev4 <- parseEventConfig e4 defaultWithGlobal ;
  do e5 <- user_event userConfig "question" ;
  do ev5 <- parseEventConfig e5 defaultWithGlobal ;
  do m1 <- user_entry userConfig "messages" "permission" (PerEvent.permission (messages D)) ;
  do m2 <- user_entry userConfig "messages" "complete" (PerEvent.complete (messages D)) ;
  do m3 <- user_entry userConfig "messages" "subagent_complete"
          (PerEvent.subagent_complete (messages D)) ;
  do m4 <- user_entry userConfig "messages" "error" (PerEvent.error (messages D)) ;
  do m5 <- user_entry userConfig "messages" "question" (PerEvent.question (messages D)) ;
  do s1 <- user_entry userConfig "sounds" "permission" (PerEvent.permission (sounds D)) ;
  do s2 <- user_entry userConfig "sounds" "complete" (PerEvent.complete (sounds D)) ;
  do s3 <- user_entry userConfig "sounds" "subagent_complete"
          (PerEvent.subagent_complete (sounds D)) ;
  do s4 <- user_entry userConfig "sounds" "error" (PerEvent.error (sounds D)) ;
  do s5 <- user_entry userConfig "sounds" "question" (PerEvent.question (sounds D)) ;
  ret {| sound := globalSound;
         notification := globalNotification;
         timeout :=
           match ut with
           | VNum n => if num_gt n zero then n else timeout D
           | _ => timeout D
           end;
         showProjectName := coalesce uspn (showProjectName D);
         showIcon := coalesce usi (showIcon D);
         notificationSystem :=
           match uns with
           | VStr s => if String.eqb s "node-notifier" then node_notifier else osascript
           | _ => osascript
           end;
         command :=
           CommandConfig.mk
             (match uen with
              | VBool b => b
              | _ => CommandConfig.enabled (command D)
              end)
             (match upath with
              | VStr s => s
              | _ => CommandConfig.path (command D)
              end)
             commandArgs
             commandMinDuration;
         events := PerEvent.mk ev1 ev2 ev3 ev4 ev5;
         messages := PerEvent.mk m1 m2 m3 m4 m5;
         sounds := PerEvent.mk s1 s2 s3 s4 s5 |}.

(** The config file: unreadable or not JSON ([readFileSync] or [JSON.parse]
    throws), or a document. *)
Inductive file : Type :=
| Garbage
| Doc (j : jsval).

(** The part of the world the config module reads and writes. *)
Record store : Type := mkStore {
  config_file : option file;
  default_sound : bool
}.

Definition initial_store (f : option file) : store := mkStore f true.

(** What [loadConfig] returns: the module-level DEFAULT_CONFIG object
    itself, or a freshly built object. *)
Inductive config_ref : Type :=
| TheDefault
| Fresh (c : NotifierConfig).

Definition existsSync (st : store) : bool :=
  match config_file st with
  | Some _ => true
  | None => false
  end.

Definition loadConfig (st : store) : config_ref :=
  match config_file st with
  | None => TheDefault
  | Some Garbage => TheDefault
  | Some (Doc userConfig) =>
      match loadConfig_body (default_sound st) userConfig with
      | Some c => Fresh c
      | None => TheDefault
      end
  end.

(** Reading through a reference. *)
Definition deref (st : store) (r : config_ref) : NotifierConfig :=
  match r with
  | TheDefault => DEFAULT_CONFIG_with (default_sound st)
  | Fresh c => c
  end.

Definition loaded (st : store) : NotifierConfig := deref st (loadConfig st).

Definition isEventSoundEnabled (config : NotifierConfig) (event : EventType) : jsval :=
  EventConfig.sound (at_event (events config) event).

Definition isEventNotificationEnabled (config : NotifierConfig) (event : EventType)
  : jsval :=
  EventConfig.notification (at_event (events config) event).

Definition getMessage (config : NotifierConfig) (event : EventType) : jsval :=
  at_event (messages config) event.

Definition getSoundPath (config : NotifierConfig) (event : EventType) : jsval :=
  at_event (sounds config) event.

(* ===================================================================== *)
(** ** config.ts: saveConfig *)
(* ===================================================================== *)

(** What [JSON.parse] reads back from [JSON.stringify v]: a property whose
    value is [undefined] is left out, [undefined] inside an array and the
    non-finite numbers are written as [null]. *)
Fixpoint jsonify (v : jsval) : jsval :=
  match v with
  | VUndef => VNull
  | VNum n => if isFinite n then VNum n else VNull
  | VArr l => VArr (map jsonify l)
  | VObj o =>
      VObj ((fix fields (o : list (string * jsval)) : list (string * jsval) :=
               match o with
               | [] => []
               | (k, VUndef) :: o' => fields o'
               | (k, x) :: o' => (k, jsonify x) :: fields o'
               end) o)
  | _ => v
  end.

Definition is_undefined (v : jsval) : bool :=
  match v with
  | VUndef => true
  | _ => false
  end.

(** Keeps the entries whose value [!== undefined]. *)
Definition remove_undefined (o : list (string * jsval)) : list (string * jsval) :=
  List.filter (fun kv => negb (is_undefined (snd kv))) o.

(** [delete o[k]]. *)
Definition delete_key (k : string) (o : list (string * jsval)) : list (string * jsval) :=
  List.filter (fun kv => negb (String.eqb k (fst kv))) o.

(** The object stored under [k] is updated in place. *)
Fixpoint replace_key (k : string) (v : jsval) (o : list (string * jsval))
  : list (string * jsval) :=
  match o with
  | [] => []
  | (k', x) :: o' =>
      if String.eqb k k' then (k', v) :: o' else (k', x) :: replace_key k v o'
  end.

Definition EventConfig_object (e : EventConfig.t) : jsval :=
  VObj [("sound", EventConfig.sound e); ("notification", EventConfig.notification e)].

Definition PerEvent_object (t : PerEvent.t jsval) : jsval :=
  VObj [("permission", PerEvent.permission t);
        ("complete", PerEvent.complete t);
        ("subagent_complete", PerEvent.subagent_complete t);
        ("error", PerEvent.error t);
        ("question", PerEvent.question t)].

Section SaveConfig.

(** Reference identity of two arrays or two objects, see [strict_eq]. *)
Variable same_ref : jsval -> jsval -> bool.

(** [a !== b]. *)
Definition strict_neq (a b : jsval) : bool := negb (strict_eq same_ref a b).

(** [e.sound !== d.sound || e.notification !== d.notification ? e : undefined] *)
Definition event_override (e d : EventConfig.t) : jsval :=
  if strict_neq (EventConfig.sound e) (EventConfig.sound d)
     || strict_neq (EventConfig.notification e) (EventConfig.notification d)
  then EventConfig_object e
  else VUndef.

(** The object [userConfig] just before the cleaning loops. *)
Definition userConfig_of (config : NotifierConfig) : list (string * jsval) :=
  let userConfig :=
    [("sound", sound config);
     ("notification", notification config);
     ("timeout", VNum (timeout config));
     ("showProjectName", showProjectName config);
     ("showIcon", showIcon config);
     ("notificationSystem", VStr (NotificationSystem_name (notificationSystem config)))] in
  let defaultWithGlobal := EventConfig.mk (sound config) (notification config) in
  let ev := events config in
  let userConfig := userConfig ++
    [("events", VObj
       [("permission", event_override (PerEvent.permission ev) defaultWithGlobal);
        ("complete", event_override (PerEvent.complete ev) defaultWithGlobal);
        ("subagent_complete",
           event_override (PerEvent.subagent_complete ev)
             (EventConfig.mk (VBool false) (VBool false)));
        ("error", event_override (PerEvent.error ev) defaultWithGlobal);
        ("question", event_override (PerEvent.question ev) defaultWithGlobal)])] in
  let cmd := command config in
  let userConfig :=
    if CommandConfig.enabled cmd || truthy (VStr (CommandConfig.path cmd))
    then userConfig ++
      [("command", VObj
         [("enabled", VBool (CommandConfig.enabled cmd));
          ("path", VStr (CommandConfig.path cmd));
          ("args", match CommandConfig.args cmd with
                   | Some l => VArr (map VStr l)
                   | None => VUndef
                   end);
          ("minDuration", VNum (CommandConfig.minDuration cmd))])]
    else userConfig in
  userConfig ++ [("messages", PerEvent_object (messages config))].

(** [cleanedConfig] when it is handed to [JSON.stringify]. *)
Definition cleanedConfig_of (config : NotifierConfig) : list (string * jsval) :=
  let cleanedConfig := remove_undefined (userConfig_of config) in
  match lookup_key "events" cleanedConfig with
  | VObj nestedEvents =>
      let nestedEvents := remove_undefined nestedEvents in
      if Nat.eqb (List.length nestedEvents) 0
      then delete_key "events" cleanedConfig
      else replace_key "events" (VObj nestedEvents) cleanedConfig
  | _ => cleanedConfig
  end.

(** The document a later [JSON.parse] of the written file returns. *)
Definition written_document (config : NotifierConfig) : jsval :=
  jsonify (VObj (cleanedConfig_of config)).

Definition saveConfig (st : store) (config : NotifierConfig) : store :=
  mkStore (Some (Doc (written_document config))) (default_sound st).

(* =================================================================== *)
(** ** sound-toggle.ts *)
(* =================================================================== *)

Record SoundToggleResult : Type := mkResult {
  success : bool;
  message : string;
  soundEnabled : jsval
}.

Definition validateConfigExists (st : store) : bool := existsSync st.

Definition CONFIG_NOT_FOUND : string :=
  "Config file not found. Please run the notifier plugin first to create the default config.".

(** [config.sound = b] through a reference: on the shared DEFAULT_CONFIG
    the assignment changes the module-level object. *)
Definition set_sound (st : store) (r : config_ref) (b : bool) : store * config_ref :=
  match r with
  | TheDefault => (mkStore (config_file st) b, TheDefault)
  | Fresh c =>
      (st, Fresh {| sound := VBool b;
                    notification := notification c;
                    timeout := timeout c;
                    showProjectName := showProjectName c;
                    showIcon := showIcon c;
                    notificationSystem := notificationSystem c;
                    command := command c;
                    events := events c;
                    messages := messages c;
                    sounds := sounds c |})
  end.

Definition getSoundStatus (st : store) : jsval := sound (loaded st).

Definition enableSound (st : store) : store * SoundToggleResult :=
  if negb (validateConfigExists st)
  then (st, mkResult false CONFIG_NOT_FOUND VUndef)
  else
    let config := loadConfig st in
    let '(st, config) := set_sound st config true in
    let st := saveConfig st (deref st config) in
    (st, mkResult true "Sounds have been enabled." (VBool true)).

Definition disableSound (st : store) : store * SoundToggleResult :=
  if negb (validateConfigExists st)
  then (st, mkResult false CONFIG_NOT_FOUND VUndef)
  else
    let config := loadConfig st in
    let '(st, config) := set_sound st config false in
    let st := saveConfig st (deref st config) in
    (st, mkResult true "Sounds have been disabled." (VBool false)).

Definition toggleSound (st : store) : store * SoundToggleResult :=
  if negb (validateConfigExists st)
  then (st, mkResult false CONFIG_NOT_FOUND VUndef)
  else
    let config := loadConfig st in
    let flipped := negb (truthy (sound (deref st config))) in
    let '(st, config) := set_sound st config flipped in
    let st := saveConfig st (deref st config) in
    (st, mkResult true
           (if truthy (sound (deref st config))
            then "Sounds have been enabled."
            else "Sounds have been disabled.")
           (sound (deref st config))).

Definition soundStatus (st : store) : store * SoundToggleResult :=
  if negb (validateConfigExists st)
  then (st, mkResult false CONFIG_NOT_FOUND VUndef)
  else
    let config := loadConfig st in
    let isEnabled := sound (deref st config) in
    (st, mkResult true
           (if truthy isEnabled
            then "Sounds are currently enabled."
            else "Sounds are currently disabled.")
           isEnabled).

(** The action is the string the caller passes; the [default] branch
    answers the ones outside [SoundToggleAction]. *)
Definition executeSoundToggle (action : string) (st : store)
  : store * SoundToggleResult :=
  if String.eqb action "toggle" then toggleSound st
  else if String.eqb action "enable" then enableSound st
  else if String.eqb action "disable" then disableSound st
  else if String.eqb action "status" then soundStatus st
  else (st, mkResult false ("Unknown action: " ++ action) VUndef).

End SaveConfig.


(* ===================================================================== *)
(** ** notify.ts: sendNotification and its debounce table *)
(* ===================================================================== *)

Module Notify.

Definition NOTIFICATION_TITLE : string := "OpenCode".
Definition DEBOUNCE_MS : Z := 1000.

(** The options object handed to [platformNotifier.notify]; [sound] is
    only set (to [false]) on Darwin. *)
Record options : Type := mkOptions {
  title : string;
  message : string;
  timeout : number;
  icon : jsval;
  sound : jsval
}.

(** [lastNotificationTime], a plain object used as a Record<string, number>:
    its own properties, with the clock [Date.now()] in whole milliseconds
    since the epoch.  The key ["__proto__"] is never an own property: it
    names the accessor inherited from [Object.prototype]. *)
Abbreviation table := (gmap string Z).

(** What [lastNotificationTime[message]] reads: an own property, else a
    property inherited from [Object.prototype] (a function, or for
    ["__proto__"] the prototype object itself), else [undefined]. *)
Inductive slot : Type :=
| Recorded (last : Z)
| Inherited
| Unset.

Definition read (lastNotificationTime : table) (message : string) : slot :=
  if String.eqb message "__proto__" then Inherited
  else
    match lastNotificationTime !! message with
    | Some last => Recorded last
    | None => if inherited message then Inherited else Unset
    end.

(** [lastNotificationTime[message] = now]: an own property is created or
    updated, except for ["__proto__"], whose inherited setter ignores a
    number. *)
Definition write (lastNotificationTime : table) (message : string) (now : Z) : table :=
  if String.eqb message "__proto__" then lastNotificationTime
  else <[message := now]> lastNotificationTime.

(** [lastNotificationTime[message] && now - lastNotificationTime[message]
    < DEBOUNCE_MS]: a missing entry and a recorded [0] are falsy; an
    inherited function or object is truthy, but [now] minus it is NaN, which
    is not below the bound. *)
Definition debounced (lastNotificationTime : table) (message : string) (now : Z) : bool :=
  match read lastNotificationTime message with
  | Recorded last => negb (last =? 0)%Z && (now - last <? DEBOUNCE_MS)%Z
  | Inherited => false
  | Unset => false
  end.

(** One call at clock reading [now] on a host whose [os.type()] is
    [platform]: the new table and the notification handed to the platform
    notifier, if any. *)
Definition sendNotification (platform : string) (message : string) (timeout : number)
  (now : Z) (lastNotificationTime : table) : table * option options :=
  if debounced lastNotificationTime message now
  then (lastNotificationTime, None)
  else
    (write lastNotificationTime message now,
     Some (mkOptions NOTIFICATION_TITLE message timeout VUndef
             (if String.eqb platform "Darwin" then VBool false else VUndef))).

(** A call of the module: message, timeout and the clock reading. *)
Record call : Type := mkCall {
  call_message : string;
  call_timeout : number;
  call_now : Z
}.

(** A sequence of calls threaded through the table; the result lists what
    each call delivered. *)
Fixpoint run (platform : string) (calls : list call) (tbl : table)
  : table * list (option options) :=
  match calls with
  | [] => (tbl, [])
  | c :: calls' =>
      let '(tbl1, d) :=
        sendNotification platform (call_message c) (call_timeout c) (call_now c) tbl in
      let '(tbl2, ds) := run platform calls' tbl1 in
      (tbl2, d :: ds)
  end.

End Notify.

(* ===================================================================== *)
(** ** index.ts: terminal-focus detection *)
(* ===================================================================== *)

(** Strings are byte strings here; [toLowerCase] acts on the ASCII
    letters. *)
Definition is_upper (c : ascii) : bool :=
  let n := nat_of_ascii c in (65 <=? n)%nat && (n <=? 90)%nat.

Definition lower_ascii (c : ascii) : ascii :=
  if is_upper c then ascii_of_nat (nat_of_ascii c + 32) else c.

Fixpoint toLowerCase (s : string) : string :=
  match s with
  | EmptyString => EmptyString
  | String c s' => String (lower_ascii c) (toLowerCase s')
  end.

(** The character class [a-z0-9]. *)
Definition is_alnum_lower (c : ascii) : bool :=
  let n := nat_of_ascii c in
  ((97 <=? n)%nat && (n <=? 122)%nat) || ((48 <=? n)%nat && (n <=? 57)%nat).

(** [s.replace(/[^a-z0-9]/g, "")]. *)
Fixpoint strip_non_alnum (s : string) : string :=
  match s with
  | EmptyString => EmptyString
  | String c s' =>
      if is_alnum_lower c then String c (strip_non_alnum s') else strip_non_alnum s'
  end.

(** [s.includes(sub)]. *)
Fixpoint includes (s sub : string) : bool :=
  String.prefix sub s ||
  match s with
  | EmptyString => false
  | String _ s' => includes s' sub
  end.

Definition TERMINAL_PROCESS_NAMES : list (string * string) :=
  [("ghostty", "Ghostty");
   ("kitty", "kitty");
   ("iterm", "iTerm2");
   ("iterm2", "iTerm2");
   ("wezterm", "WezTerm");
   ("alacritty", "Alacritty");
   ("terminal", "Terminal");
   ("apple_terminal", "Terminal");
   ("hyper", "Hyper");
   ("warp", "Warp");
   ("vscode", "Code");
   ("vscode-insiders", "Code - Insiders")].

Fixpoint table_lookup (k : string) (t : list (string * string)) : option string :=
  match t with
  | [] => None
  | (k', v) :: t' => if String.eqb k k' then Some v else table_lookup k t'
  end.

(** [TERMINAL_PROCESS_NAMES[terminalName.toLowerCase()] ?? terminalName].
    The table is a plain object: for a lower-cased name that
    [Object.prototype] defines (["constructor"], ["__proto__"]) the lookup
    yields the inherited function or object, which is not nullish and is
    returned although it is no string: [None]. *)
Definition getTerminalProcessName (terminalName : string) : option string :=
  match table_lookup (toLowerCase terminalName) TERMINAL_PROCESS_NAMES with
  | Some name => Some name
  | None =>
      if inherited (toLowerCase terminalName) then None else Some terminalName
  end.

Definition normalizeAppName (value : string) : string :=
  strip_non_alnum (toLowerCase value).

Definition matchesTerminal (frontmost terminal : string) : bool :=
  let frontNormalized := normalizeAppName frontmost in
  let terminalNormalized := normalizeAppName terminal in
  if String.eqb frontNormalized "" || String.eqb terminalNormalized ""
  then false
  else includes frontNormalized terminalNormalized
       || includes terminalNormalized frontNormalized.

Inductive Platform : Type := darwin | win32 | linux | other_platform.

(** What the focus detector observes of the machine: [process.platform],
    the answer of [detectTerminal({ preferOuter: true })], and the trimmed
    standard output of the [osascript] and [powershell] queries ([None] when
    [execFile] reports an error). *)
Record machine : Type := mkMachine {
  platform : Platform;
  detectTerminal : option string;
  osascript_stdout : option string;
  powershell_stdout : option string
}.

Definition getFrontmostAppMac (m : machine) : option string :=
  match platform m with
  | darwin => osascript_stdout m
  | _ => None
  end.

Definition getFrontmostProcessWindows (m : machine) : option string :=
  match platform m with
  | win32 => powershell_stdout m
  | _ => None
  end.

(** Truthiness of a [string | null]. *)
Definition nonempty (s : option string) : bool :=
  match s with
  | Some s => negb (String.eqb s "")
  | None => false
  end.

(** The answer of [isTerminalFocused()], or [None] when it throws: on
    macOS [processName.toLowerCase()] is a TypeError when the process name
    is no string. *)
Definition isTerminalFocused (m : machine) : exn bool :=
  match detectTerminal m with
  | None => ret false
  | Some terminalName =>
      if String.eqb terminalName "" then ret false
      else
        match platform m with
        | darwin =>
            match getFrontmostAppMac m with
            | Some frontmost =>
                if String.eqb frontmost "" then ret false
                else
                  match getTerminalProcessName terminalName with
                  | Some processName =>
                      ret (String.eqb (toLowerCase frontmost)
                             (toLowerCase processName))
                  | None => None
                  end
            | None => ret false
            end
        | win32 =>
            match getFrontmostProcessWindows m with
            | Some frontmostProcess =>
                if String.eqb frontmostProcess "" then ret false
                else ret (matchesTerminal frontmostProcess terminalName)
            | None => ret false
            end
        | linux => ret false
        | other_platform => ret false
        end
  end.

(* ===================================================================== *)
(** ** index.ts: handleEvent and handleEventWithElapsedTime *)
(* ===================================================================== *)

(** The object [handleEvent] receives.  It reads [config.suppressWhenFocused],
    a property the [NotifierConfig] interface of config.ts does not declare
    and [loadConfig] never sets, so the object is a [NotifierConfig] together
    with whatever that property holds. *)
Record PluginConfig : Type := mkPluginConfig {
  base :> NotifierConfig;
  suppressWhenFocused : jsval
}.

(** The object the plugin gets from [loadConfig()]. *)
Definition plugin_config (c : NotifierConfig) : PluginConfig :=
  mkPluginConfig c VUndef.

(** The calls [handleEvent] makes to its collaborators, with their
    arguments as passed: [sendNotification(title, message, config.timeout)],
    [playSound(eventType, customSoundPath)] and
    [runCommand(config, eventType, message)].  The bodies of [playSound]
    (sound.ts) and [runCommand] (command.ts) are not part of the sources, and
    the [sendNotification] of notify.ts declares two parameters only, so the
    call is recorded and not composed with [Notify.sendNotification]. *)
Inductive action : Type :=
| SendNotification (title : string) (message : jsval) (timeout : number)
| PlaySound (eventType : EventType) (customSoundPath : jsval)
| RunCommand (config : PluginConfig) (eventType : EventType) (message : jsval).

Definition getNotificationTitle (config : NotifierConfig) (projectName : option string)
  : string :=
  if truthy (showProjectName config) && nonempty projectName
  then match projectName with
       | Some p => "OpenCode (" ++ p ++ ")"
       | None => "OpenCode"
       end
  else "OpenCode".

(** [typeof minDuration === "number" && Number.isFinite(minDuration) &&
    minDuration > 0 && typeof elapsedSeconds === "number" &&
    Number.isFinite(elapsedSeconds) && elapsedSeconds < minDuration];
    [elapsedSeconds] is [None] for [null] and [undefined]. *)
Definition shouldSkipCommand (minDuration : number) (elapsedSeconds : option number)
  : bool :=
  isFinite minDuration && num_gt minDuration zero &&
  match elapsedSeconds with
  | Some e => isFinite e && num_lt e minDuration
  | None => false
  end.

(** The notification branch: [None] is the end of the handler before any
    call was issued, by the early [return] or because the awaited
    [isTerminalFocused()] threw. *)
Definition notification_step (m : machine) (config : PluginConfig)
  (eventType : EventType) (projectName : option string) (message : jsval)
  : option (list action) :=
  if truthy (isEventNotificationEnabled config eventType) then
    let title := getNotificationTitle config projectName in
    if truthy (suppressWhenFocused config) then
      match isTerminalFocused m with
      | Some false => Some [SendNotification title message (timeout config)]
      | Some true => None
      | None => None
      end
    else Some [SendNotification title message (timeout config)]
  else Some [].

Definition handleEvent (m : machine) (config : PluginConfig) (eventType : EventType)
  (projectName : option string) (elapsedSeconds : option number) : list action :=
  let message := getMessage config eventType in
  match notification_step m config eventType projectName message with
  | None => []
  | Some promises =>
      let promises :=
        if truthy (isEventSoundEnabled config eventType)
        then promises ++ [PlaySound eventType (getSoundPath config eventType)]
        else promises in
      let minDuration := CommandConfig.minDuration (command config) in
      if shouldSkipCommand minDuration elapsedSeconds
      then promises
      else promises ++ [RunCommand config eventType message]
  end.

(** A message of the session as the host reports it: [info.role] and
    [info.time?.created] when it is a number (of any kind, NaN and the
    infinities included). *)
Record session_message : Type := mkMessage {
  role : string;
  created : option number
}.

(** The host client: [client.session.messages] either throws ([None]) or
    answers with [response.data], which may be missing.  [seconds_since t]
    is [(Date.now() - t) / 1000] as the runtime computes it in double
    arithmetic at the time of the call; its value is not modelled. *)
Record host : Type := mkHost {
  session_messages : string -> exn (option (list session_message));
  seconds_since : number -> number
}.

Definition getSessionIDFromEvent (event : jsval) : option string :=
  match opt_prop (opt_prop event "properties") "sessionID" with
  | VStr sessionID =>
      if (0 <? String.length sessionID)%nat then Some sessionID else None
  | _ => None
  end.

(** The loop over the messages: a user message's creation time replaces
    the one kept so far when none is kept or when it compares greater. *)
Definition lastUserMessageTime (messages : list session_message) : option number :=
  fold_left
    (fun (last : option number) (msg : session_message) =>
       if String.eqb (role msg) "user" then
         match created msg with
         | Some t =>
             match last with
             | None => Some t
             | Some l => if num_gt t l then Some t else last
             end
         | None => last
         end
       else last)
    messages None.

Definition getElapsedSinceLastPrompt (client : host) (sessionID : string)
  : option number :=
  match session_messages client sessionID with
  | None => None
  | Some data =>
      let messages := match data with Some l => l | None => [] end in
      match lastUserMessageTime messages with
      | Some last => Some (seconds_since client last)
      | None => None
      end
  end.

Definition shouldLookupElapsed (config : NotifierConfig) : bool :=
  let minDuration := CommandConfig.minDuration (command config) in
  CommandConfig.enabled (command config)
  && (0 <? String.length (CommandConfig.path (command config)))%nat
  && isFinite minDuration
  && num_gt minDuration zero.

(** The value of [elapsedSeconds] that is handed to [handleEvent]. *)
Definition elapsed_for (client : host) (config : NotifierConfig) (event : jsval)
  : option number :=
  if shouldLookupElapsed config then
    match getSessionIDFromEvent event with
    | Some sessionID => getElapsedSinceLastPrompt client sessionID
    | None => None
    end
  else None.

Definition handleEventWithElapsedTime (client : host) (m : machine)
  (config : PluginConfig) (eventType : EventType) (projectName : option string)
  (event : jsval) : list action :=
  handleEvent m config eventType projectName (elapsed_for client config event).


(* ===================================================================== *)
(** ** index.ts: isChildSession and the plugin hooks *)
(* ===================================================================== *)

(** The host client with the second query the plugin uses:
    [client.session.get] either throws ([None]) or answers with
    [response.data]. *)
Record plugin_client : Type := mkClient {
  session_api :> host;
  session_get : string -> exn jsval
}.

(** [!!response.data?.parentID], and [false] when the query throws. *)
Definition isChildSession (client : plugin_client) (sessionID : string) : bool :=
  match session_get client sessionID with
  | Some data => truthy (opt_prop data "parentID")
  | None => false
  end.

(** [event.type === name]; the host always passes an object, so reading
    the property does not throw. *)
Definition type_is (event : jsval) (name : string) : bool :=
  match opt_prop event "type" with
  | VStr s => String.eqb s name
  | _ => false
  end.

(** The [event] hook: four independent [if]s, one after the other.
    [config] is the object the plugin loaded at start-up and [projectName] the
    base name of its directory, or [None]. *)
Definition NotifierPlugin_event (client : plugin_client) (m : machine)
  (config : PluginConfig) (projectName : option string) (event : jsval)
  : list action :=
  (if type_is event "permission.updated"
   then handleEventWithElapsedTime client m config permission projectName event
   else [])
  ++ (if type_is event "permission.asked"
      then handleEventWithElapsedTime client m config permission projectName event
      else [])
  ++ (if type_is event "session.idle"
      then
        match getSessionIDFromEvent event with
        | Some sessionID =>
            if negb (isChildSession client sessionID)
            then handleEventWithElapsedTime client m config complete projectName event
            else handleEventWithElapsedTime client m config subagent_complete
                   projectName event
        | None =>
            handleEventWithElapsedTime client m config complete projectName event
        end
      else [])
  ++ (if type_is event "session.error"
      then handleEventWithElapsedTime client m config error projectName event
      else []).

(** The ["permission.ask"] hook. *)
Definition NotifierPlugin_permission_ask (m : machine) (config : PluginConfig)
  (projectName : option string) : list action :=
  handleEvent m config permission projectName None.

(** The ["tool.execute.before"] hook; [input.tool] is the tool name. *)
Definition NotifierPlugin_tool_execute_before (m : machine) (config : PluginConfig)
  (projectName : option string) (input : jsval) : list action :=
  match opt_prop input "tool" with
  | VStr tool =>
      if String.eqb tool "question"
      then handleEvent m config question projectName None
      else []
  | _ => []
  end.

(* ===================================================================== *)
(** ** src/index.ts: the plugin without command and focus detection *)
(* ===================================================================== *)

Module Legacy.

Definition handleEvent (config : NotifierConfig) (eventType : EventType)
  (projectName : option string) : list action :=
  let promises :=
    if truthy (isEventNotificationEnabled config eventType)
    then [SendNotification (getNotificationTitle config projectName)
            (getMessage config eventType) (timeout config)]
    else [] in
  if truthy (isEventSoundEnabled config eventType)
  then promises ++ [PlaySound eventType (getSoundPath config eventType)]
  else promises.

Definition NotifierPlugin_event (config : NotifierConfig) (projectName : option string)
  (event : jsval) : list action :=
  (if type_is event "permission.updated"
   then handleEvent config permission projectName else [])
  ++ (if type_is event "permission.asked"
      then handleEvent config permission projectName else [])
  ++ (if type_is event "session.idle"
      then handleEvent config complete projectName else [])
  ++ (if type_is event "session.error"
      then handleEvent config error projectName else []).

End Legacy.



(* ===================================================================== *)
(** ** Vocabulary of the statements *)
(* ===================================================================== *)

(** *** loadConfig without the exception plumbing *)

Definition is_null (v : jsval) : bool :=
  match v with
  | VNull => true
  | _ => false
  end.

(** The per-event entry of the document that [loadConfig] hands to
    [parseEventConfig]: nested first, then the legacy top-level key. *)
Definition user_event_value (userConfig : jsval) (name : string) : jsval :=
  coalesce (opt_prop (opt_prop userConfig "events") name) (opt_prop userConfig name).

(** What [parseEventConfig] returns when it does not throw. *)
Definition resolveEvent (userEvent : jsval) (defaultConfig : EventConfig.t)
  : EventConfig.t :=
  match userEvent with
  | VUndef => defaultConfig
  | VBool b => EventConfig.mk (VBool b) (VBool b)
  | _ =>
      EventConfig.mk
        (coalesce (opt_prop userEvent "sound") (EventConfig.sound defaultConfig))
        (coalesce (opt_prop userEvent "notification")
           (EventConfig.notification defaultConfig))
  end.

(** A document [loadConfig] reads without falling back: it is not [null]
    and none of the five per-event entries resolves to [null]. *)
Definition loadable (j : jsval) : bool :=
  negb (nullish j) &&
  forallb (fun name => negb (is_null (user_event_value j name)))
    ["permission"; "complete"; "subagent_complete"; "error"; "question"].

(** The object [loadConfig] builds from a loadable document. *)
Definition resolve (default_sound : bool) (j : jsval) : NotifierConfig :=
  let D := DEFAULT_CONFIG_with default_sound in
  let globalSound := coalesce (opt_prop j "sound") (sound D) in
  let globalNotification := coalesce (opt_prop j "notification") (notification D) in
  let dg := EventConfig.mk globalSound globalNotification in
  let userCommand := coalesce (opt_prop j "command") (VObj []) in
  let entry table name fallback := coalesce (opt_prop (opt_prop j table) name) fallback in
  {| sound := globalSound;
     notification := globalNotification;
     timeout :=
       match opt_prop j "timeout" with
       | VNum n => if num_gt n zero then n else timeout D
       | _ => timeout D
       end;
     showProjectName := coalesce (opt_prop j "showProjectName") (showProjectName D);
     showIcon := coalesce (opt_prop j "showIcon") (showIcon D);
     notificationSystem :=
       match opt_prop j "notificationSystem" with
       | VStr s => if String.eqb s "node-notifier" then node_notifier else osascript
       | _ => osascript
       end;
     command :=
       CommandConfig.mk
         (match opt_prop userCommand "enabled" with
          | VBool b => b
          | _ => false
          end)
         (match opt_prop userCommand "path" with
          | VStr s => s
          | _ => ""
          end)
         (match opt_prop userCommand "args" with
          | VArr l => Some (filter_strings l)
          | _ => None
          end)
         (match opt_prop userCommand "minDuration" with
          | VNum n => if isFinite n && num_gt n zero then n else zero
          | _ => zero
          end);
     events := PerEvent.mk
       (resolveEvent (user_event_value j "permission") dg)
       (resolveEvent (user_event_value j "complete") dg)
       (resolveEvent (user_event_value j "subagent_complete")
          (EventConfig.mk (VBool false) (VBool false)))
       (resolveEvent (user_event_value j "error") dg)
       (resolveEvent (user_event_value j "question") dg);
     messages := PerEvent.mk
       (entry "messages" "permission" (PerEvent.permission (messages D)))
       (entry "messages" "complete" (PerEvent.complete (messages D)))
       (entry "messages" "subagent_complete" (PerEvent.subagent_complete (messages D)))
       (entry "messages" "error" (PerEvent.error (messages D)))
       (entry "messages" "question" (PerEvent.question (messages D)));
     sounds := PerEvent.mk
       (entry "sounds" "permission" (PerEvent.permission (sounds D)))
       (entry "sounds" "complete" (PerEvent.complete (sounds D)))
       (entry "sounds" "subagent_complete" (PerEvent.subagent_complete (sounds D)))
       (entry "sounds" "error" (PerEvent.error (sounds D)))
       (entry "sounds" "question" (PerEvent.question (sounds D))) |}.


Definition event_name (e : EventType) : string :=
  match e with
  | permission => "permission"
  | complete => "complete"
  | subagent_complete => "subagent_complete"
  | error => "error"
  | question => "question"
  end.

(** The user supplies no override for an event: neither the nested nor the
    legacy entry holds a value. *)
Definition no_override (st : store) (e : EventType) : bool :=
  match config_file st with
  | Some (Doc j) => nullish (user_event_value j (event_name e))
  | _ => true
  end.

(** [sub] occurs in [s]. *)
Definition contains (s sub : string) : Prop :=
  exists pre post : string, s = (pre ++ sub ++ post)%string.

(** The [sound] flag as persisted in the config file. *)
Definition persisted_sound (st : store) : jsval :=
  match config_file st with
  | Some (Doc j) => opt_prop j "sound"
  | _ => VUndef
  end.

(** Sample config documents. *)
Definition doc_complete_off : jsval :=
  VObj [("sound", VBool true); ("complete", VBool false)].

Definition doc_globals_on : jsval :=
  VObj [("sound", VBool true); ("notification", VBool true)].

(** A Mac on which iTerm2 hosts the process and is frontmost. *)
Definition focused_mac : machine :=
  mkMachine darwin (Some "iterm") (Some "iTerm2") None.

(** The default config with focus suppression switched on. *)
Definition suppressing_config : PluginConfig :=
  mkPluginConfig DEFAULT_CONFIG (VBool true).

(** A config whose command is gated: enabled, with a path and a
    [minDuration] of 30 seconds; [suppress] is [suppressWhenFocused]. *)
Definition gated_config (suppress : jsval) : PluginConfig :=
  mkPluginConfig
    {| sound := VBool true;
       notification := VBool true;
       timeout := Fin 5;
       showProjectName := VBool true;
       showIcon := VBool true;
       notificationSystem := osascript;
       command := CommandConfig.mk true "/usr/local/bin/done" None (Fin 30);
       events := events DEFAULT_CONFIG;
       messages := messages DEFAULT_CONFIG;
       sounds := sounds DEFAULT_CONFIG |}
    suppress.

(** A host whose session query always fails. *)
Definition failing_host : host := mkHost (fun _ => None) (fun _ => NaN).

(** [handleEvent] ends before any call for the event: with suppression on,
    the notification branch finds the terminal focused, or the focus
    detector throws. *)
Definition short_circuited (m : machine) (config : PluginConfig) (eventType : EventType)
  : bool :=
  truthy (isEventNotificationEnabled config eventType)
  && truthy (suppressWhenFocused config)
  && match isTerminalFocused m with
     | Some false => false
     | _ => true
     end.

(** No message of the list is a user message with a numeric creation
    time. *)
Definition no_user_message (messages : list session_message) : Prop :=
  Forall (fun msg => String.eqb (role msg) "user" = false \/ created msg = None) messages.

(** *** Runs of the notifier *)

(** The clock readings at which a run delivered a notification with the
    text [msg]. *)
Fixpoint delivered_times (platform msg : string) (calls : list Notify.call)
  (tbl : gmap string Z) : list Z :=
  match calls with
  | [] => []
  | c :: calls' =>
      let r :=
        Notify.sendNotification platform (Notify.call_message c)
          (Notify.call_timeout c) (Notify.call_now c) tbl in
      (if String.eqb (Notify.call_message c) msg
       then match snd r with
            | Some _ => [Notify.call_now c]
            | None => []
            end
       else [])
      ++ delivered_times platform msg calls' (fst r)
  end.

(** The clock never runs backwards over the calls. *)
Definition monotone_clock (calls : list Notify.call) : Prop :=
  StronglySorted (fun a b => (Notify.call_now a <= Notify.call_now b)%Z) calls.

(** Each reading is at least [Notify.DEBOUNCE_MS] after the one before. *)
Definition one_second_apart (times : list Z) : Prop :=
  StronglySorted (fun a b => (a + Notify.DEBOUNCE_MS <= b)%Z) times.

(** *** JSON documents *)

(** Structural equality of two rationals as represented. *)
Definition Q_same (a b : Q) : bool :=
  (Qnum a =? Qnum b)%Z && (Qden a =? Qden b)%positive.

(** A value that [JSON.parse] returns for a text whose numbers are within
    the range of the doubles: no [undefined], only finite numbers, each
    represented in lowest terms. *)
Fixpoint parsed_json (v : jsval) : bool :=
  match v with
  | VUndef => false
  | VNum (Fin q) => Q_same (Qred q) q
  | VNum _ => false
  | VArr l => forallb parsed_json l
  | VObj o => forallb (fun kv => parsed_json (snd kv)) o
  | _ => true
  end.

(** The properties of an object as [JSON.stringify] writes them. *)
Definition jsonify_fields (o : list (string * jsval)) : list (string * jsval) :=
  flat_map
    (fun kv => if is_undefined (snd kv) then [] else [(fst kv, jsonify (snd kv))])
    o.

(** What reading property [k] gives after the round through JSON, from
    what it gave before. *)
Definition jsonify_prop (v : jsval) : jsval :=
  if is_undefined v then VUndef else jsonify v.

(** A value fit to be a field of a loaded config: it survives the round
    through JSON unchanged and is neither [null] nor [undefined]. *)
Definition settled (v : jsval) : bool := parsed_json v && negb (nullish v).

Definition settled_event (e : EventConfig.t) : bool :=
  settled (EventConfig.sound e) && settled (EventConfig.notification e).

Definition for_all_events {A} (p : A -> bool) (t : PerEvent.t A) : bool :=
  p (PerEvent.permission t) && p (PerEvent.complete t)
  && p (PerEvent.subagent_complete t) && p (PerEvent.error t)
  && p (PerEvent.question t).

(** The invariants of a config that [loadConfig] builds from a parsed
    document, as far as [saveConfig] relies on them. *)
Definition is_zero (n : number) : bool :=
  match n with
  | Fin q => Q_same q 0
  | _ => false
  end.

Definition settled_config (c : NotifierConfig) : bool :=
  settled (sound c) && settled (notification c)
  && settled (showProjectName c) && settled (showIcon c)
  && parsed_json (VNum (timeout c)) && num_gt (timeout c) zero
  && parsed_json (VNum (CommandConfig.minDuration (command c)))
  && (num_gt (CommandConfig.minDuration (command c)) zero
      || is_zero (CommandConfig.minDuration (command c)))
  && for_all_events settled_event (events c)
  && for_all_events settled (messages c).

(** Property [k] is present in the document. *)
Definition written (doc : jsval) (k : string) : bool :=
  negb (is_undefined (opt_prop doc k)).

(** [saveConfig] writes the [command] block. *)
Definition command_written (c : NotifierConfig) : bool :=
  CommandConfig.enabled (command c)
  || negb (String.eqb (CommandConfig.path (command c)) "").

(** The default [saveConfig] compares the flags of an event with. *)
Definition computed_default (c : NotifierConfig) (e : EventType) : EventConfig.t :=
  match e with
  | subagent_complete => EventConfig.mk (VBool false) (VBool false)
  | _ => EventConfig.mk (sound c) (notification c)
  end.

(** The flags of event [e] differ from their computed default. *)
Definition overrides (same_ref : jsval -> jsval -> bool) (c : NotifierConfig)
  (e : EventType) : bool :=
  strict_neq same_ref (EventConfig.sound (at_event (events c) e))
    (EventConfig.sound (computed_default c e))
  || strict_neq same_ref (EventConfig.notification (at_event (events c) e))
       (EventConfig.notification (computed_default c e)).

(** The five entries of the [events] object [saveConfig] builds. *)
Definition event_overrides (same_ref : jsval -> jsval -> bool) (c : NotifierConfig)
  : list (string * jsval) :=
  map (fun e => (event_name e,
                 event_override same_ref (at_event (events c) e) (computed_default c e)))
    [permission; complete; subagent_complete; error; question].

Definition keys (o : list (string * jsval)) : list string := map fst o.

(** The config after [config.sound = b]. *)
Definition with_sound (c : NotifierConfig) (b : bool) : NotifierConfig :=
  {| sound := VBool b;
     notification := notification c;
     timeout := timeout c;
     showProjectName := showProjectName c;
     showIcon := showIcon c;
     notificationSystem := notificationSystem c;
     command := command c;
     events := events c;
     messages := messages c;
     sounds := sounds c |}.

Definition doc_sound_off : jsval :=
  VObj [("sound", VBool false); ("notification", VBool true)].

(** The properties [saveConfig] writes whatever their value. *)
Definition always_written : list string :=
  ["sound"; "notification"; "timeout"; "showProjectName"; "showIcon";
   "notificationSystem"; "messages"].

(** A config file that sets only fields that differ from the defaults. *)
Definition doc_timeout_only : jsval := VObj [("timeout", VNum (Fin 10))].

Definition doc_custom : jsval :=
  VObj [("timeout", VNum (Fin 10));
        ("complete", VBool false);
        ("command",
         VObj [("enabled", VBool true);
               ("path", VStr "/usr/local/bin/done");
               ("minDuration", VNum (Fin 30))])].

(** A config file that sets a custom sound for one event. *)
Definition doc_custom_sound : jsval :=
  VObj [("sounds", VObj [("complete", VStr "/sounds/done.wav")])].

(** An oracle for documents in which no two places share an array or an
    object. *)
Definition no_sharing : jsval -> jsval -> bool := fun _ _ => false.

(** *** Stores and sample inputs of the further properties *)

(** The config file exists and, when it parses, its document holds finite
    numbers only.  (A JSON text can hold others: [1e999] parses to
    [Infinity], which [loadConfig] accepts as [timeout].) *)
Definition finite_file (st : store) : bool :=
  match config_file st with
  | Some (Doc j) => parsed_json j
  | Some Garbage => true
  | None => false
  end.

(** A config file with a partial override, a legacy key and a custom
    sound. *)
Definition doc_partial : jsval :=
  VObj [("sound", VBool true);
        ("notification", VBool false);
        ("events", VObj [("error", VObj [("sound", VBool false)])]);
        ("error", VBool true);
        ("sounds", VObj [("complete", VStr "/sounds/done.wav")])].

(** A config file in which one per-event entry is [null]. *)
Definition doc_null_entry : jsval :=
  VObj [("sound", VBool false); ("permission", VNull)].

(** The flag [toggleSound] assigns: the negation of the loaded one. *)
Definition flipped (st : store) : bool := negb (truthy (sound (loaded st))).

(** What is left of a loaded config [c] once a sound operation has set
    the flag to [b] and saved: the new flag, the command block only if it is
    enabled or has a path (else the default block), and no custom sound. *)
Definition after_sound_set (c : NotifierConfig) (b : bool) : NotifierConfig :=
  {| sound := VBool b;
     notification := notification c;
     timeout := timeout c;
     showProjectName := showProjectName c;
     showIcon := showIcon c;
     notificationSystem := notificationSystem c;
     command := if command_written c then command c else command DEFAULT_CONFIG;
     events := events c;
     messages := messages c;
     sounds := PerEvent.mk VNull VNull VNull VNull VNull |}.

(** A config file whose disabled command block carries a [minDuration]. *)
Definition doc_disabled_command : jsval :=
  VObj [("sound", VBool true);
        ("command", VObj [("enabled", VBool false); ("path", VStr "");
                          ("minDuration", VNum (Fin 30))]);
        ("sounds", VObj [("complete", VStr "/sounds/done.wav")])].

(** The calls of a run that carry the text [msg]. *)
Definition calls_with (msg : string) (calls : list Notify.call) : list Notify.call :=
  List.filter (fun c => String.eqb (Notify.call_message c) msg) calls.

(** Three calls with the same text, 400 ms apart, and one with another
    text in between. *)
Definition burst : list Notify.call :=
  [Notify.mkCall "Session has finished" (Fin 5) 1700000000000;
   Notify.mkCall "Session needs permission" (Fin 5) 1700000000200;
   Notify.mkCall "Session has finished" (Fin 5) 1700000000400;
   Notify.mkCall "Session has finished" (Fin 5) 1700000000800].

(** The event type the [event] hook handles an event under, if any. *)
Definition event_type_of (client : plugin_client) (event : jsval) : option EventType :=
  match opt_prop event "type" with
  | VStr s =>
      if String.eqb s "permission.updated" then Some permission
      else if String.eqb s "permission.asked" then Some permission
      else if String.eqb s "session.idle" then
        match getSessionIDFromEvent event with
        | Some sessionID =>
            if isChildSession client sessionID then Some subagent_complete
            else Some complete
        | None => Some complete
        end
      else if String.eqb s "session.error" then Some error
      else None
  | _ => None
  end.

Definition is_RunCommand (a : action) : bool :=
  match a with
  | RunCommand _ _ _ => true
  | _ => false
  end.

(** A client for which session "s1" is a child of "s0" and holds two user
    messages, at a clock reading of 63000 ms (the elapsed times of these
    messages are exact in double arithmetic). *)
Definition sample_client : plugin_client :=
  mkClient
    (mkHost
       (fun _ => Some (Some [mkMessage "user" (Some (Fin 1000));
                             mkMessage "assistant" (Some (Fin 5000));
                             mkMessage "user" (Some (Fin 3000))]))
       (fun t => match t with
                 | Fin q => Fin ((63000 - q) / 1000)
                 | PosInf => NegInf
                 | NegInf => PosInf
                 | NaN => NaN
                 end))
    (fun id => if String.eqb id "s1"
               then Some (VObj [("id", VStr "s1"); ("parentID", VStr "s0")])
               else None).

Definition idle_event (sessionID : string) : jsval :=
  VObj [("type", VStr "session.idle");
        ("properties", VObj [("sessionID", VStr sessionID)])].

(* ===================================================================== *)
(** * Properties *)
(* ===================================================================== *)

(** ** Values *)

(** Induction over a value and the values nested in its arrays and
    objects. *)
Section jsval_nested_ind.

Variable P : jsval -> Prop.
Hypothesis HUndef : P VUndef.
Hypothesis HNull : P VNull.
Hypothesis HBool : forall b, P (VBool b).
Hypothesis HNum : forall n, P (VNum n).
Hypothesis HStr : forall s, P (VStr s).
Hypothesis HArr : forall l, Forall P l -> P (VArr l).
Hypothesis HObj : forall o, Forall (fun kv => P (snd kv)) o -> P (VObj o).

Fixpoint jsval_nested_ind (v : jsval) : P v :=
  match v with
  | VUndef => HUndef
  | VNull => HNull
  | VBool b => HBool b
  | VNum n => HNum n
  | VStr s => HStr s
  | VArr l =>
      HArr l
        ((fix elements (l : list jsval) : Forall P l :=
            match l with
            | [] => List.Forall_nil P
            | x :: l' => List.Forall_cons P x l' (jsval_nested_ind x) (elements l')
            end) l)
  | VObj o =>
      HObj o
        ((fix members (o : list (string * jsval)) : Forall (fun kv => P (snd kv)) o :=
            match o with
            | [] => List.Forall_nil _
            | kv :: o' =>
                List.Forall_cons (fun kv => P (snd kv)) kv o' (jsval_nested_ind (snd kv)) (members o')
            end) o)
  end.

End jsval_nested_ind.

Lemma jsonify_VObj (o : list (string * jsval)) :
  jsonify (VObj o) = VObj (jsonify_fields o).
Proof.
  cbn [jsonify]. f_equal. unfold jsonify_fields.
  induction o as [| [k x] o IH]; [reflexivity |].
  cbn [flat_map fst snd]. rewrite <- IH.
  destruct x; reflexivity.
Qed.

Lemma parsed_json_defined (v : jsval) : parsed_json v = true -> is_undefined v = false.
Proof. destruct v; [discriminate | reflexivity ..]. Qed.

(** A parsed document is written and read back unchanged. *)
Lemma jsonify_parsed_json (v : jsval) : parsed_json v = true -> jsonify v = v.
Proof.
  induction v as [| | b | n | s | l IH | o IH] using jsval_nested_ind;
    try reflexivity.
  - discriminate.
  - destruct n; try discriminate. reflexivity.
  - cbn [parsed_json jsonify]. intros H. f_equal.
    induction IH as [| x l Hx _ IHl]; [reflexivity |].
    cbn [forallb] in H. apply andb_prop in H. destruct H as [H1 H2].
    cbn [map]. rewrite (Hx H1), (IHl H2). reflexivity.
  - rewrite jsonify_VObj. cbn [parsed_json]. intros H. f_equal.
    induction IH as [| [k x] o' Hx _ IHl]; [reflexivity |].
    cbn [forallb snd] in H. apply andb_prop in H. destruct H as [H1 H2].
    unfold jsonify_fields in *. cbn [flat_map fst snd] in *.
    rewrite (parsed_json_defined x H1), (Hx H1), (IHl H2). reflexivity.
Qed.

(** ** loadConfig *)

Lemma parseEventConfig_eq (userEvent : jsval) (d : EventConfig.t) :
  parseEventConfig userEvent d =
  if is_null userEvent then None else Some (resolveEvent userEvent d).
Proof. destruct userEvent; reflexivity. Qed.

Lemma prop_not_nullish (v : jsval) (k : string) :
  nullish v = false -> prop v k = Some (opt_prop v k).
Proof. destruct v; simpl; intros H; try discriminate H; reflexivity. Qed.

Lemma coalesce_not_nullish (a b : jsval) :
  nullish b = false -> nullish (coalesce a b) = false.
Proof. unfold coalesce. destruct (nullish a) eqn:E; auto. Qed.

Lemma user_event_eq (j : jsval) (name : string) :
  nullish j = false -> user_event j name = Some (user_event_value j name).
Proof.
  intros H. unfold user_event, user_event_value.
  rewrite !(prop_not_nullish j) by exact H. reflexivity.
Qed.

Lemma user_entry_eq (j : jsval) (table name : string) (fallback : jsval) :
  nullish j = false ->
  user_entry j table name fallback =
  Some (coalesce (opt_prop (opt_prop j table) name) fallback).
Proof.
  intros H. unfold user_entry. rewrite (prop_not_nullish j) by exact H. reflexivity.
Qed.

Lemma loadConfig_body_eq (ds : bool) (j : jsval) :
  loadConfig_body ds j = if loadable j then Some (resolve ds j) else None.
Proof.
  unfold loadable.
  destruct (nullish j) eqn:Hj.
  - destruct j; try discriminate Hj; reflexivity.
  - unfold loadConfig_body.
    assert (Hc : nullish (coalesce (opt_prop j "command") (VObj [])) = false)
      by (apply coalesce_not_nullish; reflexivity).
    rewrite !(prop_not_nullish j) by exact Hj.
    cbn [bind].
    rewrite !(prop_not_nullish _ _ Hc).
    cbn [bind].
    rewrite !user_entry_eq by exact Hj.
    cbn [negb andb forallb].
    repeat (rewrite user_event_eq by exact Hj; cbn [bind];
            rewrite parseEventConfig_eq;
            match goal with
            | |- context [bind (if is_null ?e then _ else _)] =>
                destruct (is_null e); cbn [bind negb andb]
            end; [reflexivity|]).
    reflexivity.
Qed.


Lemma loaded_doc (st : store) (j : jsval) :
  config_file st = Some (Doc j) ->
  loaded st =
  if loadable j then resolve (default_sound st) j
  else DEFAULT_CONFIG_with (default_sound st).
Proof.
  intros Hf. unfold loaded, loadConfig. rewrite Hf, loadConfig_body_eq.
  destruct (loadable j); reflexivity.
Qed.

Lemma loaded_fallback (st : store) :
  config_file st = None \/ config_file st = Some Garbage ->
  loaded st = DEFAULT_CONFIG_with (default_sound st).
Proof.
  intros [Hf | Hf]; unfold loaded, loadConfig; rewrite Hf; reflexivity.
Qed.

Lemma loadable_event (j : jsval) (e : EventType) :
  loadable j = true -> is_null (user_event_value j (event_name e)) = false.
Proof.
  unfold loadable. cbn [forallb]. intros H.
  repeat (apply andb_prop in H; destruct H as [? H]).
  destruct e; cbn [event_name];
    match goal with
    | Hn : negb (is_null ?v) = true |- is_null ?v = false =>
        apply negb_true_iff in Hn; exact Hn
    end.
Qed.

Lemma loadable_intro (j : jsval) :
  nullish j = false ->
  (forall e, is_null (user_event_value j (event_name e)) = false) ->
  loadable j = true.
Proof.
  intros Hj He. unfold loadable. rewrite Hj. cbn [negb andb forallb].
  pose proof (He permission) as H1. pose proof (He complete) as H2.
  pose proof (He subagent_complete) as H3. pose proof (He error) as H4.
  pose proof (He question) as H5. cbn [event_name] in *.
  rewrite H1, H2, H3, H4, H5. reflexivity.
Qed.

Lemma resolve_event (ds : bool) (j : jsval) (e : EventType) :
  at_event (events (resolve ds j)) e =
  resolveEvent (user_event_value j (event_name e))
    (match e with
     | subagent_complete => EventConfig.mk (VBool false) (VBool false)
     | _ => EventConfig.mk (sound (resolve ds j)) (notification (resolve ds j))
     end).
Proof. destruct e; reflexivity. Qed.

(** The timeout [loadConfig] returns is always a number above zero. *)
Lemma loadConfig_timeout_positive (st : store) :
  num_gt (timeout (loaded st)) zero = true.
Proof.
  assert (Hres : forall ds j, num_gt (timeout (resolve ds j)) zero = true).
  { intros ds j. cbn [resolve timeout DEFAULT_CONFIG_with].
    destruct (opt_prop j "timeout"); try reflexivity.
    destruct (num_gt n zero) eqn:E; [exact E | reflexivity]. }
  unfold loaded, loadConfig.
  destruct (config_file st) as [[|j]|]; try reflexivity.
  rewrite loadConfig_body_eq. destruct (loadable j); [apply Hres | reflexivity].
Qed.

(** The [minDuration] [loadConfig] returns is always finite: the user's
    value when that is a finite number above zero, and [0] otherwise. *)
Lemma loadConfig_minDuration_finite (st : store) :
  isFinite (CommandConfig.minDuration (command (loaded st))) = true.
Proof.
  assert (Hres : forall ds j,
             isFinite (CommandConfig.minDuration (command (resolve ds j))) = true).
  { intros ds j. cbn [resolve command CommandConfig.minDuration].
    destruct (opt_prop _ "minDuration"); try reflexivity.
    destruct (isFinite n) eqn:E; [|reflexivity].
    destruct (num_gt n zero); [exact E | reflexivity]. }
  unfold loaded, loadConfig.
  destruct (config_file st) as [[|j]|]; try reflexivity.
  rewrite loadConfig_body_eq. destruct (loadable j); [apply Hres | reflexivity].
Qed.

(** The two numeric checks of [loadConfig] on a document it reads without
    falling back: [timeout] takes any number above zero, finite or not;
    [command.minDuration] takes a number only when it is finite and above
    zero. *)
Lemma loadConfig_timeout_check (st : store) (j : jsval) :
  config_file st = Some (Doc j) ->
  loadable j = true ->
  timeout (loaded st) =
  match opt_prop j "timeout" with
  | VNum n => if num_gt n zero then n else Fin 5
  | _ => Fin 5
  end.
Proof. intros Hf Hl. rewrite (loaded_doc st j Hf), Hl. reflexivity. Qed.

Lemma loadConfig_minDuration_check (st : store) (j : jsval) :
  config_file st = Some (Doc j) ->
  loadable j = true ->
  CommandConfig.minDuration (command (loaded st)) =
  match opt_prop (coalesce (opt_prop j "command") (VObj [])) "minDuration" with
  | VNum n => if isFinite n && num_gt n zero then n else zero
  | _ => zero
  end.
Proof. intros Hf Hl. rewrite (loaded_doc st j Hf), Hl. reflexivity. Qed.

(** C4, at the input where the code and the claim part: a config file
    whose [timeout] is the number Infinity (the JSON text 1e999) loads with
    timeout Infinity, not the default 5, because the [timeout] check has no
    [Number.isFinite] conjunct; the same value for [command.minDuration] is
    rejected and loads as 0, and NaN is rejected for both. *)
Theorem loadConfig_timeout_accepts_Infinity :
  timeout (loaded (initial_store (Some (Doc (VObj [("timeout", VNum PosInf)])))))
  = PosInf
  /\ timeout DEFAULT_CONFIG = Fin 5
  /\ CommandConfig.minDuration
       (command
          (loaded
             (initial_store
                (Some (Doc (VObj [("command", VObj [("minDuration", VNum PosInf)])]))))))
     = zero
  /\ timeout (loaded (initial_store (Some (Doc (VObj [("timeout", VNum NaN)])))))
     = Fin 5
  /\ CommandConfig.minDuration
       (command
          (loaded
             (initial_store
                (Some (Doc (VObj [("command", VObj [("minDuration", VNum NaN)])]))))))
     = zero.
Proof. repeat split. Qed.

(** C6: when the entry of an event in the config file (nested, or the
    legacy top-level key) is the boolean [b], the loaded config has both the
    sound and the notification flag of that event equal to [b], whatever the
    global flags are; so [false] for [complete] with global [sound: true]
    gives [events.complete.sound === false]. *)
Theorem boolean_shorthand_overrides_global
  (st : store) (j : jsval) (e : EventType) (b : bool) :
  config_file st = Some (Doc j) ->
  loadable j = true ->
  user_event_value j (event_name e) = VBool b ->
  at_event (events (loaded st)) e = EventConfig.mk (VBool b) (VBool b).
Proof.
  intros Hf Hl Hb. rewrite (loaded_doc st j Hf), Hl, resolve_event, Hb.
  reflexivity.
Qed.

Lemma boolean_shorthand_overrides_global_witness :
  config_file (initial_store (Some (Doc doc_complete_off))) = Some (Doc doc_complete_off)
  /\ loadable doc_complete_off = true
  /\ user_event_value doc_complete_off (event_name complete) = VBool false
  /\ opt_prop doc_complete_off "sound" = VBool true
  /\ at_event (events (loaded (initial_store (Some (Doc doc_complete_off))))) complete
     = EventConfig.mk (VBool false) (VBool false).
Proof.
  repeat (split; [reflexivity |]).
  apply (boolean_shorthand_overrides_global
           (initial_store (Some (Doc doc_complete_off))) doc_complete_off complete false);
    reflexivity.
Defined.

(** C7: whenever the user supplies no override for [subagent_complete]
    (no config file, an unreadable one, or a document whose nested and
    legacy entries for it are both absent or null), the event resolves to
    sound false and notification false, whatever the global flags are. *)
Theorem subagent_complete_off_by_default (st : store) :
  no_override st subagent_complete = true ->
  at_event (events (loaded st)) subagent_complete
  = EventConfig.mk (VBool false) (VBool false).
Proof.
  unfold no_override. destruct (config_file st) as [[|j]|] eqn:Hf.
  - intros _. rewrite loaded_fallback by (right; exact Hf). reflexivity.
  - intros Hn. rewrite (loaded_doc st j Hf).
    destruct (loadable j) eqn:Hl; [|reflexivity].
    rewrite resolve_event.
    pose proof (loadable_event j subagent_complete Hl) as Hnn.
    cbn [event_name] in *.
    destruct (user_event_value j "subagent_complete"); try discriminate; reflexivity.
  - intros _. rewrite loaded_fallback by (left; exact Hf). reflexivity.
Qed.

Lemma subagent_complete_off_by_default_witness :
  no_override (initial_store (Some (Doc doc_globals_on))) subagent_complete = true
  /\ sound (loaded (initial_store (Some (Doc doc_globals_on)))) = VBool true
  /\ notification (loaded (initial_store (Some (Doc doc_globals_on)))) = VBool true
  /\ at_event (events (loaded (initial_store (Some (Doc doc_globals_on))))) subagent_complete
     = EventConfig.mk (VBool false) (VBool false).
Proof.
  repeat (split; [reflexivity |]).
  apply (subagent_complete_off_by_default (initial_store (Some (Doc doc_globals_on))));
    reflexivity.
Defined.

(* ===================================================================== *)
(** ** Terminal-focus name matching *)
(* ===================================================================== *)

Lemma prefix_true_iff (sub s : string) :
  String.prefix sub s = true <-> exists post : string, s = (sub ++ post)%string.
Proof.
  revert s. induction sub as [| c sub IH]; intros s.
  - split; [intros _; exists s; reflexivity | intros _; destruct s; reflexivity].
  - destruct s as [| d s]; cbn [String.prefix String.append].
    + split; [discriminate | intros [post H]; discriminate H].
    + destruct (ascii_dec c d) as [-> | Hne].
      * rewrite IH. split; intros [post H]; exists post.
        -- rewrite H. reflexivity.
        -- injection H as H. exact H.
      * split; [discriminate |].
        intros [post H]. injection H as Hc _. congruence.
Qed.

Lemma includes_true_iff (s sub : string) :
  includes s sub = true <-> contains s sub.
Proof.
  unfold contains. induction s as [| c s IH]; cbn [includes].
  - rewrite orb_false_r, prefix_true_iff. split.
    + intros [post H]. exists "", post. exact H.
    + intros [pre [post H]]. destruct pre; cbn [String.append] in H.
      * exists post. exact H.
      * discriminate H.
  - rewrite orb_true_iff, prefix_true_iff, IH. split.
    + intros [[post H] | [pre [post H]]].
      * exists "", post. exact H.
      * exists (String c pre), post. cbn [String.append]. rewrite H. reflexivity.
    + intros [pre [post H]]. destruct pre as [| d pre]; cbn [String.append] in H.
      * left. exists post. exact H.
      * right. injection H as _ H. exists pre, post. exact H.
Qed.

Lemma eqb_empty_false_iff (s : string) : String.eqb s "" = false <-> s <> "".
Proof. apply String.eqb_neq. Qed.

(** [normalizeAppName] keeps exactly the lower-cased characters that are
    in [a-z0-9]. *)
Lemma normalizeAppName_alnum (value : string) (c : ascii) :
  In c (list_ascii_of_string (normalizeAppName value)) -> is_alnum_lower c = true.
Proof.
  unfold normalizeAppName. generalize (toLowerCase value) as s.
  induction s as [| d s IH]; cbn [strip_non_alnum list_ascii_of_string].
  - intros [].
  - destruct (is_alnum_lower d) eqn:E; cbn [strip_non_alnum list_ascii_of_string In].
    + intros [<- | H]; [exact E | exact (IH H)].
    + exact IH.
Qed.

(** C8, as the code has it: both names are normalized, and the names match
    exactly when both normalized names are non-empty and one of them occurs
    in the other.  "iTerm2" matches "iterm"; "Finder" does not match
    "kitty". *)
Theorem matchesTerminal_iff (frontmost terminal : string) :
  (matchesTerminal frontmost terminal = true <->
   normalizeAppName frontmost <> "" /\
   normalizeAppName terminal <> "" /\
   (contains (normalizeAppName frontmost) (normalizeAppName terminal) \/
    contains (normalizeAppName terminal) (normalizeAppName frontmost)))
  /\ matchesTerminal "iTerm2" "iterm" = true
  /\ matchesTerminal "Finder" "kitty" = false.
Proof.
  split; [| split; reflexivity].
  unfold matchesTerminal. cbv zeta.
  rewrite <- !eqb_empty_false_iff, <- !includes_true_iff, <- orb_true_iff.
  destruct (String.eqb (normalizeAppName frontmost) "");
    destruct (String.eqb (normalizeAppName terminal) ""); cbn [orb];
    intuition congruence.
Qed.

(** C8 as stated fails: the normalized frontmost name of "---" is empty,
    hence contained in every normalized terminal name, and yet the guard on
    empty names makes [matchesTerminal] answer [false]. *)
Lemma matchesTerminal_empty_name_counterexample :
  ~ (matchesTerminal "---" "kitty" = true <->
     (contains (normalizeAppName "---") (normalizeAppName "kitty") \/
      contains (normalizeAppName "kitty") (normalizeAppName "---"))).
Proof.
  intros [_ H].
  assert (Hc : contains (normalizeAppName "kitty") (normalizeAppName "---")).
  { exists "", "kitty". reflexivity. }
  specialize (H (or_intror Hc)). discriminate H.
Qed.

(** The two examples through [isTerminalFocused] itself, on Windows (by
    [matchesTerminal]) and on macOS (by the process-name table); and a
    terminal name for which the table lookup on macOS hits a property of
    [Object.prototype]. *)
Lemma isTerminalFocused_examples :
  isTerminalFocused (mkMachine win32 (Some "iterm") None (Some "iTerm2")) = Some true
  /\ isTerminalFocused (mkMachine win32 (Some "kitty") None (Some "Finder")) = Some false
  /\ isTerminalFocused (mkMachine darwin (Some "iterm") (Some "iTerm2") None) = Some true
  /\ isTerminalFocused (mkMachine darwin (Some "kitty") (Some "Finder") None) = Some false
  /\ isTerminalFocused (mkMachine linux (Some "kitty") (Some "kitty") (Some "kitty"))
     = Some false
  /\ isTerminalFocused (mkMachine darwin (Some "Constructor") (Some "Finder") None) = None
  /\ isTerminalFocused (mkMachine win32 (Some "Constructor") None (Some "Finder"))
     = Some false.
Proof. repeat split. Qed.

(* ===================================================================== *)
(** ** Event dispatch *)
(* ===================================================================== *)

(** C3: when the notification of the event is enabled, the suppression
    flag is set and the terminal is focused, [handleEvent] returns before any
    collaborator is called: no notification, no sound, no command. *)
Theorem focused_terminal_suppresses_event
  (m : machine) (config : PluginConfig) (eventType : EventType)
  (projectName : option string) (elapsedSeconds : option number) :
  truthy (isEventNotificationEnabled config eventType) = true ->
  truthy (suppressWhenFocused config) = true ->
  isTerminalFocused m = Some true ->
  handleEvent m config eventType projectName elapsedSeconds = [].
Proof.
  intros Hn Hs Hf. unfold handleEvent, notification_step.
  rewrite Hn, Hs, Hf. reflexivity.
Qed.

Lemma focused_terminal_suppresses_event_witness :
  truthy (isEventNotificationEnabled suppressing_config complete) = true
  /\ truthy (suppressWhenFocused suppressing_config) = true
  /\ isTerminalFocused focused_mac = Some true
  /\ handleEvent focused_mac suppressing_config complete (Some "proj") None = [].
Proof.
  repeat (split; [reflexivity |]).
  apply (focused_terminal_suppresses_event
           focused_mac suppressing_config complete (Some "proj") None);
    reflexivity.
Defined.

(** Unless it ended in the notification branch, [handleEvent] calls
    [runCommand] when the gate does not skip it. *)
Lemma handleEvent_runs_command
  (m : machine) (config : PluginConfig) (eventType : EventType)
  (projectName : option string) (elapsedSeconds : option number) :
  short_circuited m config eventType = false ->
  shouldSkipCommand (CommandConfig.minDuration (command config)) elapsedSeconds = false ->
  In (RunCommand config eventType (getMessage config eventType))
     (handleEvent m config eventType projectName elapsedSeconds).
Proof.
  unfold short_circuited, handleEvent, notification_step. intros Hs Hk.
  rewrite Hk.
  destruct (truthy (isEventNotificationEnabled config eventType)); cbn [andb] in Hs.
  - destruct (truthy (suppressWhenFocused config)); cbn [andb] in Hs.
    + destruct (isTerminalFocused m) as [[|] |]; try discriminate Hs.
      apply in_or_app. right. left. reflexivity.
    + apply in_or_app. right. left. reflexivity.
  - apply in_or_app. right. left. reflexivity.
Qed.

(** The object [loadConfig()] returns has no [suppressWhenFocused]
    property, so with it the handler never ends in the notification
    branch. *)
Lemma plugin_config_not_short_circuited
  (m : machine) (c : NotifierConfig) (eventType : EventType) :
  short_circuited m (plugin_config c) eventType = false.
Proof.
  unfold short_circuited, plugin_config. cbn [suppressWhenFocused truthy].
  rewrite andb_false_r. reflexivity.
Qed.

(** The gate skips the command only for a known, finite elapsed time
    strictly below a finite, positive [minDuration]. *)
Lemma shouldSkipCommand_true_iff (minDuration : number) (elapsedSeconds : option number) :
  shouldSkipCommand minDuration elapsedSeconds = true <->
  isFinite minDuration = true /\ num_gt minDuration zero = true /\
  exists e, elapsedSeconds = Some e /\ isFinite e = true /\ num_lt e minDuration = true.
Proof.
  unfold shouldSkipCommand. rewrite !andb_true_iff. split.
  - intros [[Hf Hg] He]. destruct elapsedSeconds as [e |]; [| discriminate He].
    apply andb_true_iff in He. destruct He as [He1 He2].
    repeat split; try assumption. exists e. repeat split; assumption.
  - intros [Hf [Hg [e [-> [He1 He2]]]]]. rewrite He1, He2. repeat split; assumption.
Qed.

(** With a [minDuration] of 30 seconds, an elapsed time of 10 seconds
    skips the command and one of 31 seconds does not. *)
Example shouldSkipCommand_30 :
  shouldSkipCommand (Fin 30) (Some (Fin 10)) = true
  /\ shouldSkipCommand (Fin 30) (Some (Fin 31)) = false
  /\ shouldSkipCommand (Fin 30) None = false
  /\ shouldSkipCommand zero (Some (Fin 10)) = false.
Proof. repeat split. Qed.

Lemma lastUserMessageTime_none (messages : list session_message) :
  no_user_message messages -> lastUserMessageTime messages = None.
Proof.
  unfold lastUserMessageTime, no_user_message.
  induction 1 as [| msg l Hm _ IH]; cbn [fold_left]; [reflexivity |].
  destruct Hm as [Hr | Hc].
  - rewrite Hr. exact IH.
  - rewrite Hc. destruct (String.eqb (role msg) "user"); exact IH.
Qed.

(** The three ways in which the elapsed time stays unknown: the event
    carries no session ID, the host query fails, or the session has no user
    message with a creation time. *)
Lemma elapsed_for_unknown (client : host) (config : NotifierConfig) (event : jsval) :
  getSessionIDFromEvent event = None
  \/ (exists sessionID,
        getSessionIDFromEvent event = Some sessionID /\
        (session_messages client sessionID = None
         \/ session_messages client sessionID = Some None
         \/ exists l, session_messages client sessionID = Some (Some l)
                      /\ no_user_message l)) ->
  elapsed_for client config event = None.
Proof.
  unfold elapsed_for. destruct (shouldLookupElapsed config); [| reflexivity].
  intros [-> | [sid [-> H]]]; [reflexivity |].
  unfold getElapsedSinceLastPrompt.
  destruct H as [-> | [-> | [l [-> Hl]]]]; try reflexivity.
  rewrite (lastUserMessageTime_none l Hl). reflexivity.
Qed.

(** C10: the plugin hands [handleEventWithElapsedTime] the object that
    [loadConfig()] returned.  With the command gate configured in it and the
    elapsed time unknown (no session ID in the event, a failing host query, a
    missing answer, or no user message with a creation time in the session),
    [handleEventWithElapsedTime] calls [runCommand]; and the gate itself only
    ever skips the command for a known finite elapsed time strictly below
    [minDuration]. *)
Theorem command_runs_when_elapsed_unknown
  (client : host) (m : machine) (c : NotifierConfig) (eventType : EventType)
  (projectName : option string) (event : jsval) :
  shouldLookupElapsed c = true ->
  getSessionIDFromEvent event = None
  \/ (exists sessionID,
        getSessionIDFromEvent event = Some sessionID /\
        (session_messages client sessionID = None
         \/ session_messages client sessionID = Some None
         \/ exists l, session_messages client sessionID = Some (Some l)
                      /\ no_user_message l)) ->
  In (RunCommand (plugin_config c) eventType (getMessage c eventType))
     (handleEventWithElapsedTime client m (plugin_config c) eventType projectName event)
  /\ forall elapsedSeconds,
       shouldSkipCommand (CommandConfig.minDuration (command c)) elapsedSeconds = true ->
       exists e, elapsedSeconds = Some e /\ isFinite e = true
                 /\ num_lt e (CommandConfig.minDuration (command c)) = true.
Proof.
  intros _ Hunknown. split.
  - unfold handleEventWithElapsedTime.
    rewrite (elapsed_for_unknown client (plugin_config c) event Hunknown).
    apply (handleEvent_runs_command m (plugin_config c));
      [apply plugin_config_not_short_circuited |].
    unfold shouldSkipCommand. apply andb_false_r.
  - intros e He. apply shouldSkipCommand_true_iff in He. tauto.
Qed.

Lemma command_runs_when_elapsed_unknown_witness :
  shouldLookupElapsed (base (gated_config VUndef)) = true
  /\ getSessionIDFromEvent (VObj [("type", VStr "session.error")]) = None
  /\ In (RunCommand (plugin_config (base (gated_config VUndef))) error
           (getMessage (base (gated_config VUndef)) error))
        (handleEventWithElapsedTime failing_host focused_mac
           (plugin_config (base (gated_config VUndef))) error
           None (VObj [("type", VStr "session.error")])).
Proof.
  repeat (split; [reflexivity |]).
  apply (command_runs_when_elapsed_unknown
           failing_host focused_mac (base (gated_config VUndef)) error None
           (VObj [("type", VStr "session.error")]));
    [reflexivity | left; reflexivity].
Defined.

(* ===================================================================== *)
(** ** Sound toggle *)
(* ===================================================================== *)

Section SoundToggle.

Variable same_ref : jsval -> jsval -> bool.

(** C5: with no config file, each of the four operations fails with the
    "Config file not found" message and leaves the store (the file system and
    the module state) exactly as it was, so nothing is written. *)
Theorem toggle_without_config_file (st : store) (action : string) :
  config_file st = None ->
  In action ["enable"; "disable"; "toggle"; "status"] ->
  fst (executeSoundToggle same_ref action st) = st
  /\ success (snd (executeSoundToggle same_ref action st)) = false
  /\ includes (message (snd (executeSoundToggle same_ref action st)))
       "Config file not found" = true.
Proof.
  intros Hf Ha.
  assert (He : validateConfigExists st = false)
    by (unfold validateConfigExists, existsSync; rewrite Hf; reflexivity).
  cbn [In] in Ha.
  destruct Ha as [<- | [<- | [<- | [<- | []]]]];
    cbn [executeSoundToggle String.eqb Ascii.eqb Bool.eqb];
    unfold executeSoundToggle, enableSound, disableSound, toggleSound, soundStatus;
    cbn [String.eqb Ascii.eqb Bool.eqb]; rewrite He; cbn [negb fst snd success message];
    repeat split; reflexivity.
Qed.

End SoundToggle.

Lemma toggle_without_config_file_witness :
  config_file (initial_store None) = None
  /\ In "toggle" ["enable"; "disable"; "toggle"; "status"]
  /\ fst (executeSoundToggle (fun _ _ => false) "toggle" (initial_store None))
     = initial_store None
  /\ success (snd (executeSoundToggle (fun _ _ => false) "toggle" (initial_store None)))
     = false
  /\ includes
       (message (snd (executeSoundToggle (fun _ _ => false) "toggle" (initial_store None))))
       "Config file not found" = true.
Proof.
  split; [reflexivity |].
  split; [right; right; left; reflexivity |].
  apply (toggle_without_config_file (fun _ _ => false) (initial_store None) "toggle");
    [reflexivity | right; right; left; reflexivity].
Defined.

(* ===================================================================== *)
(** ** Notification debounce *)
(* ===================================================================== *)

Module NotifyFacts.
Import Notify.

Lemma read_recorded (tbl : gmap string Z) (msg : string) (last : Z) :
  msg <> "__proto__" -> tbl !! msg = Some last -> read tbl msg = Recorded last.
Proof.
  intros Hne Hl. unfold read.
  destruct (String.eqb_spec msg "__proto__") as [Heq | _]; [contradiction |].
  rewrite Hl. reflexivity.
Qed.

Lemma debounced_lookup (tbl tbl' : gmap string Z) (msg : string) (now : Z) :
  tbl !! msg = tbl' !! msg -> debounced tbl msg now = debounced tbl' msg now.
Proof. unfold debounced, read. intros ->. reflexivity. Qed.

(** The first notification with a given text is never held back. *)
Lemma debounced_fresh (tbl : gmap string Z) (msg : string) (now : Z) :
  tbl !! msg = None -> debounced tbl msg now = false.
Proof.
  unfold debounced, read. intros ->.
  destruct (String.eqb msg "__proto__"); [reflexivity |].
  destruct (inherited msg); reflexivity.
Qed.

Lemma debounced_recorded (tbl : gmap string Z) (msg : string) (last now : Z) :
  msg <> "__proto__" ->
  tbl !! msg = Some last ->
  debounced tbl msg now = negb (last =? 0)%Z && (now - last <? DEBOUNCE_MS)%Z.
Proof.
  intros Hne Hl. unfold debounced. rewrite (read_recorded tbl msg last Hne Hl).
  reflexivity.
Qed.

Lemma write_eq (tbl : gmap string Z) (msg : string) (now : Z) :
  msg <> "__proto__" -> write tbl msg now !! msg = Some now.
Proof.
  intros Hne. unfold write.
  destruct (String.eqb_spec msg "__proto__") as [Heq | _]; [contradiction |].
  apply lookup_insert_eq.
Qed.

Lemma write_ne (tbl : gmap string Z) (msg other : string) (now : Z) :
  other <> msg -> write tbl other now !! msg = tbl !! msg.
Proof.
  intros Hne. unfold write.
  destruct (String.eqb other "__proto__"); [reflexivity |].
  apply lookup_insert_ne. exact Hne.
Qed.

Lemma write_same (tbl tbl' : gmap string Z) (msg : string) (now : Z) :
  tbl !! msg = tbl' !! msg -> write tbl msg now !! msg = write tbl' msg now !! msg.
Proof.
  intros Hl. unfold write.
  destruct (String.eqb msg "__proto__"); [exact Hl |].
  rewrite !lookup_insert_eq. reflexivity.
Qed.

Lemma sendNotification_delivered
  (platform msg : string) (timeout : number) (now : Z) (tbl : gmap string Z) :
  debounced tbl msg now = false ->
  exists o, snd (sendNotification platform msg timeout now tbl) = Some o
            /\ message o = msg.
Proof.
  intros H. unfold sendNotification. rewrite H. cbn [snd].
  eexists. split; reflexivity.
Qed.

Lemma sendNotification_recorded
  (platform msg : string) (timeout : number) (now : Z) (tbl : gmap string Z) :
  msg <> "__proto__" ->
  debounced tbl msg now = false ->
  fst (sendNotification platform msg timeout now tbl) !! msg = Some now.
Proof.
  intros Hne H. unfold sendNotification. rewrite H. cbn [fst].
  apply write_eq. exact Hne.
Qed.

Lemma sendNotification_suppressed
  (platform msg : string) (timeout : number) (now : Z) (tbl : gmap string Z) :
  debounced tbl msg now = true ->
  sendNotification platform msg timeout now tbl = (tbl, None).
Proof. intros H. unfold sendNotification. rewrite H. reflexivity. Qed.

(** A call with another text leaves the entry of [msg] alone. *)
Lemma sendNotification_other
  (platform msg other : string) (timeout : number) (now : Z) (tbl : gmap string Z) :
  other <> msg ->
  fst (sendNotification platform other timeout now tbl) !! msg = tbl !! msg.
Proof.
  intros Hne. unfold sendNotification.
  destruct (debounced tbl other now); cbn [fst]; [reflexivity |].
  apply write_ne. exact Hne.
Qed.

Lemma run_cons (platform : string) (c : call) (calls : list call) (tbl : gmap string Z) :
  fst (run platform (c :: calls) tbl)
  = fst (run platform calls
           (fst (sendNotification platform (call_message c) (call_timeout c)
                   (call_now c) tbl))).
Proof.
  cbn [run].
  destruct (sendNotification platform (call_message c) (call_timeout c) (call_now c) tbl)
    as [tbl1 d].
  cbn [fst]. destruct (run platform calls tbl1) as [tbl2 ds]. reflexivity.
Qed.

Lemma run_others
  (platform msg : string) (calls : list call) (tbl : gmap string Z) :
  Forall (fun c => call_message c <> msg) calls ->
  fst (run platform calls tbl) !! msg = tbl !! msg.
Proof.
  intros H. revert tbl.
  induction H as [| c calls Hc _ IH]; intros tbl; [reflexivity |].
  rewrite run_cons, IH. apply sendNotification_other. exact Hc.
Qed.

(** C2 fails on the code for one text.  [lastNotificationTime] is a plain
    object, and for the text ["__proto__"] both the lookup and the assignment
    go to the accessor inherited from [Object.prototype]: the lookup yields
    an object, so the age test is never true, and the assignment of a number
    is ignored.  Every call with that text is therefore delivered and leaves
    the table as it was, however shortly it follows the one before. *)
Theorem debounce_misses_proto
  (platform : string) (timeout1 timeout2 : number) (t1 t2 : Z) (tbl : gmap string Z) :
  fst (sendNotification platform "__proto__" timeout1 t1 tbl) = tbl
  /\ (exists o, snd (sendNotification platform "__proto__" timeout1 t1 tbl) = Some o
                /\ message o = "__proto__")
  /\ (exists o,
        snd (sendNotification platform "__proto__" timeout2 t2
               (fst (sendNotification platform "__proto__" timeout1 t1 tbl)))
        = Some o /\ message o = "__proto__").
Proof.
  split; [reflexivity |]. split; eexists; split; reflexivity.
Qed.

(** For every other text the debounce works as intended.  Take a call
    with text [msg] at clock reading [t1] (milliseconds since the epoch,
    positive) that is delivered.  A second call with the same text less than
    1000 ms after it is not delivered and changes nothing; a third call with
    the same text at least 1000 ms after the first is delivered.  Calls with
    other texts may come in between. *)
Lemma debounce_one_second
  (platform msg : string) (timeout1 timeout2 timeout3 : number) (t1 t2 t3 : Z)
  (tbl : gmap string Z) (between1 between2 : list call) :
  msg <> "__proto__" ->
  (0 < t1)%Z ->
  debounced tbl msg t1 = false ->
  Forall (fun c => call_message c <> msg) between1 ->
  Forall (fun c => call_message c <> msg) between2 ->
  (t2 - t1 < 1000)%Z ->
  (1000 <= t3 - t1)%Z ->
  let first := sendNotification platform msg timeout1 t1 tbl in
  let tbl1 := fst (run platform between1 (fst first)) in
  let second := sendNotification platform msg timeout2 t2 tbl1 in
  let tbl2 := fst (run platform between2 (fst second)) in
  let third := sendNotification platform msg timeout3 t3 tbl2 in
  (exists o, snd first = Some o /\ message o = msg)
  /\ second = (tbl1, None)
  /\ (exists o, snd third = Some o /\ message o = msg).
Proof.
  intros Hne Hpos H1 Hb1 Hb2 H12 H13. cbv zeta.
  pose proof (sendNotification_delivered platform msg timeout1 t1 tbl H1) as Hd1.
  pose proof (sendNotification_recorded platform msg timeout1 t1 tbl Hne H1) as Hl1.
  set (tbl1 := fst (run platform between1
                      (fst (sendNotification platform msg timeout1 t1 tbl)))).
  assert (Ht1 : tbl1 !! msg = Some t1).
  { unfold tbl1. rewrite run_others by exact Hb1. exact Hl1. }
  assert (Hd2 : debounced tbl1 msg t2 = true).
  { rewrite (debounced_recorded tbl1 msg t1 t2 Hne Ht1). unfold DEBOUNCE_MS.
    apply andb_true_iff. split.
    - apply negb_true_iff. apply Z.eqb_neq. lia.
    - apply Z.ltb_lt. lia. }
  rewrite (sendNotification_suppressed platform msg timeout2 t2 tbl1 Hd2).
  cbn [fst].
  split; [exact Hd1 |]. split; [reflexivity |].
  apply sendNotification_delivered.
  rewrite (debounced_recorded _ msg t1 t3 Hne)
    by (rewrite run_others by exact Hb2; exact Ht1).
  unfold DEBOUNCE_MS. apply andb_false_iff. right. apply Z.ltb_ge. lia.
Qed.

(** *** The minimum interval between two delivered notifications *)

Lemma delivered_times_cons
  (platform msg : string) (c : call) (calls : list call) (tbl : gmap string Z) :
  delivered_times platform msg (c :: calls) tbl =
  (if String.eqb (call_message c) msg
   then if debounced tbl (call_message c) (call_now c) then [] else [call_now c]
   else [])
  ++ delivered_times platform msg calls
       (if debounced tbl (call_message c) (call_now c) then tbl
        else write tbl (call_message c) (call_now c)).
Proof.
  cbn [delivered_times]. unfold sendNotification.
  destruct (debounced tbl (call_message c) (call_now c)); reflexivity.
Qed.

Lemma one_second_apart_cons (last now : Z) (times : list Z) :
  (last + DEBOUNCE_MS <= now)%Z ->
  one_second_apart (now :: times) ->
  one_second_apart (last :: now :: times).
Proof.
  unfold one_second_apart, DEBOUNCE_MS. intros Hgap Hs.
  apply SSorted_cons; [exact Hs |].
  apply StronglySorted_inv in Hs. destruct Hs as [_ Hall].
  constructor; [exact Hgap |].
  eapply List.Forall_impl; [| exact Hall]. cbn beta. intros t Ht. lia.
Qed.

(** After a notification with text [msg] went out at [last], the next
    ones that go out keep the distance. *)
Lemma delivered_after_entry
  (platform msg : string) (calls : list call) (tbl : gmap string Z) (last : Z) :
  msg <> "__proto__" ->
  tbl !! msg = Some last ->
  (0 < last)%Z ->
  Forall (fun c => (last <= call_now c)%Z) calls ->
  monotone_clock calls ->
  one_second_apart (last :: delivered_times platform msg calls tbl).
Proof.
  intros Hproto. revert tbl last.
  induction calls as [| c calls IH]; intros tbl last Hl Hpos Hlo Hmono.
  - repeat constructor.
  - rewrite delivered_times_cons.
    apply Forall_cons_1 in Hlo. destruct Hlo as [Hc Hlo].
    apply StronglySorted_inv in Hmono. destruct Hmono as [Hmono Hnext].
    destruct (String.eqb_spec (call_message c) msg) as [Heq | Hne].
    + rewrite Heq. rewrite (debounced_recorded tbl msg last _ Hproto Hl).
      unfold DEBOUNCE_MS.
      replace (negb (last =? 0)%Z) with true
        by (symmetry; apply negb_true_iff, Z.eqb_neq; lia).
      cbn [andb]. destruct (Z.ltb_spec (call_now c - last) 1000) as [Hlt | Hge].
      * cbn [app]. apply (IH tbl last); assumption.
      * cbn [app]. apply one_second_apart_cons; [unfold DEBOUNCE_MS; lia |].
        apply IH; [apply write_eq; exact Hproto | lia | exact Hnext | exact Hmono].
    + cbn [app].
      destruct (debounced tbl (call_message c) (call_now c));
        apply IH; try assumption.
      rewrite write_ne by exact Hne. exact Hl.
Qed.

Lemma delivered_fresh
  (platform msg : string) (calls : list call) (tbl : gmap string Z) :
  msg <> "__proto__" ->
  tbl !! msg = None ->
  Forall (fun c => (0 < call_now c)%Z) calls ->
  monotone_clock calls ->
  one_second_apart (delivered_times platform msg calls tbl).
Proof.
  intros Hproto. revert tbl.
  induction calls as [| c calls IH]; intros tbl Hl Hpos Hmono.
  - constructor.
  - rewrite delivered_times_cons.
    apply Forall_cons_1 in Hpos. destruct Hpos as [Hc Hpos].
    apply StronglySorted_inv in Hmono. destruct Hmono as [Hmono Hnext].
    destruct (String.eqb_spec (call_message c) msg) as [Heq | Hne].
    + rewrite Heq, (debounced_fresh tbl msg _ Hl). cbn [app].
      apply delivered_after_entry;
        [exact Hproto | apply write_eq; exact Hproto | exact Hc | exact Hnext
        | exact Hmono].
    + cbn [app].
      destruct (debounced tbl (call_message c) (call_now c));
        apply IH; try assumption.
      rewrite write_ne by exact Hne. exact Hl.
Qed.

(** In a process whose clock readings are positive and never decrease,
    any two notifications with the same text, other than ["__proto__"], that
    are handed to the platform notifier are at least [DEBOUNCE_MS] apart. *)
Theorem delivered_one_second_apart
  (platform msg : string) (calls : list call) :
  msg <> "__proto__" ->
  Forall (fun c => (0 < call_now c)%Z) calls ->
  monotone_clock calls ->
  one_second_apart (delivered_times platform msg calls ∅).
Proof.
  intros Hproto Hpos Hmono.
  apply delivered_fresh; [exact Hproto | apply lookup_empty | assumption ..].
Qed.

End NotifyFacts.

(* ===================================================================== *)
(** ** Object literals *)
(* ===================================================================== *)

Lemma has_key_In (k : string) (o : list (string * jsval)) :
  has_key k o = true <-> In k (keys o).
Proof.
  induction o as [| [k' x] o IH]; cbn [has_key keys map fst In].
  - split; [discriminate | intros []].
  - rewrite orb_true_iff, IH, String.eqb_eq. unfold keys. intuition congruence.
Qed.

Lemma lookup_key_absent (k : string) (o : list (string * jsval)) :
  ~ In k (keys o) -> lookup_key k o = VUndef.
Proof.
  induction o as [| [k' x] o IH]; cbn [lookup_key keys map fst In]; [reflexivity |].
  intros H. destruct (String.eqb_spec k k') as [-> | Hne].
  - exfalso. apply H. left. reflexivity.
  - apply IH. intros Hin. apply H. right. exact Hin.
Qed.

Lemma keys_filter (p : string * jsval -> bool) (o : list (string * jsval)) (k : string) :
  In k (keys (List.filter p o)) -> In k (keys o).
Proof.
  unfold keys. rewrite !in_map_iff. intros [kv [Hk Hin]].
  exists kv. split; [exact Hk |]. apply List.filter_In in Hin. tauto.
Qed.

Lemma NoDup_keys_filter (p : string * jsval -> bool) (o : list (string * jsval)) :
  List.NoDup (keys o) -> List.NoDup (keys (List.filter p o)).
Proof.
  induction o as [| [k x] o IH]; cbn [List.filter keys map fst]; [trivial |].
  intros H. apply List.NoDup_cons_iff in H. destruct H as [Hk Hnd].
  destruct (p (k, x)); [| exact (IH Hnd)].
  cbn [keys map fst]. apply List.NoDup_cons_iff. split; [| exact (IH Hnd)].
  intros Hin. apply Hk. exact (keys_filter p o k Hin).
Qed.

Lemma lookup_remove_undefined (k : string) (o : list (string * jsval)) :
  List.NoDup (keys o) -> lookup_key k (remove_undefined o) = lookup_key k o.
Proof.
  unfold remove_undefined.
  induction o as [| [k' x] o IH]; cbn [List.filter keys map fst lookup_key snd];
    [reflexivity |].
  intros H. apply List.NoDup_cons_iff in H. destruct H as [Hk Hnd].
  destruct (is_undefined x) eqn:Hx; cbn [negb lookup_key].
  - destruct (String.eqb_spec k k') as [-> | Hne]; [| exact (IH Hnd)].
    destruct x; try discriminate Hx.
    apply lookup_key_absent. intros Hin. apply Hk. exact (keys_filter _ o k' Hin).
  - rewrite (IH Hnd). reflexivity.
Qed.

Lemma keys_jsonify_fields (o : list (string * jsval)) (k : string) :
  In k (keys (jsonify_fields o)) -> In k (keys o).
Proof.
  unfold jsonify_fields.
  induction o as [| [k' x] o IH]; cbn [flat_map keys map fst snd]; [trivial |].
  destruct (is_undefined x); cbn [app keys map fst In].
  - intros H. right. exact (IH H).
  - intros [H | H]; [left; exact H | right; exact (IH H)].
Qed.

Lemma lookup_jsonify_fields (k : string) (o : list (string * jsval)) :
  List.NoDup (keys o) ->
  lookup_key k (jsonify_fields o) = jsonify_prop (lookup_key k o).
Proof.
  unfold jsonify_fields, jsonify_prop.
  induction o as [| [k' x] o IH]; cbn [flat_map keys map fst snd lookup_key];
    [reflexivity |].
  intros H. apply List.NoDup_cons_iff in H. destruct H as [Hk Hnd].
  destruct (is_undefined x) eqn:Hx; cbn [app lookup_key].
  - destruct (String.eqb_spec k k') as [-> | Hne]; [| exact (IH Hnd)].
    rewrite Hx. apply lookup_key_absent.
    intros Hin. apply Hk. exact (keys_jsonify_fields o k' Hin).
  - destruct (String.eqb k k'); [rewrite Hx; reflexivity | exact (IH Hnd)].
Qed.

Lemma keys_replace_key (k : string) (v : jsval) (o : list (string * jsval)) :
  keys (replace_key k v o) = keys o.
Proof.
  induction o as [| [k' x] o IH]; cbn [replace_key keys map fst]; [reflexivity |].
  destruct (String.eqb k k'); cbn [keys map fst]; [reflexivity |].
  unfold keys in IH. rewrite IH. reflexivity.
Qed.

Lemma lookup_replace_key (k k' : string) (v : jsval) (o : list (string * jsval)) :
  lookup_key k (replace_key k' v o) =
  if String.eqb k k' && has_key k' o then v else lookup_key k o.
Proof.
  induction o as [| [k0 x] o IH]; cbn [replace_key lookup_key has_key].
  - rewrite andb_false_r. reflexivity.
  - destruct (String.eqb_spec k' k0) as [-> | Hne]; cbn [lookup_key orb].
    + rewrite andb_true_r. destruct (String.eqb k k0); reflexivity.
    + rewrite IH. destruct (String.eqb_spec k k0) as [-> | Hne']; [| reflexivity].
      destruct (String.eqb_spec k0 k') as [-> | _]; [congruence | reflexivity].
Qed.

Lemma lookup_delete_key (k k' : string) (o : list (string * jsval)) :
  lookup_key k (delete_key k' o) =
  if String.eqb k k' then VUndef else lookup_key k o.
Proof.
  unfold delete_key.
  induction o as [| [k0 x] o IH]; cbn [List.filter lookup_key fst].
  - destruct (String.eqb k k'); reflexivity.
  - destruct (String.eqb_spec k' k0) as [-> | Hne]; cbn [negb lookup_key].
    + rewrite IH. destruct (String.eqb k k0); reflexivity.
    + rewrite IH. destruct (String.eqb_spec k k0) as [-> | Hne']; [| reflexivity].
      destruct (String.eqb_spec k0 k') as [-> | _]; [congruence | reflexivity].
Qed.

(** When the cleaning leaves nothing, every entry was [undefined]. *)
Lemma remove_undefined_nil (k : string) (o : list (string * jsval)) :
  remove_undefined o = [] -> lookup_key k o = VUndef.
Proof.
  unfold remove_undefined.
  induction o as [| [k' x] o IH]; cbn [List.filter lookup_key snd]; [reflexivity |].
  destruct (is_undefined x) eqn:Hx; cbn [negb]; [| discriminate].
  intros H. destruct (String.eqb k k'); [| exact (IH H)].
  destruct x; try discriminate Hx. reflexivity.
Qed.

Lemma filter_strings_map_VStr (l : list string) : filter_strings (map VStr l) = l.
Proof. induction l as [| s l IH]; cbn [map filter_strings]; congruence. Qed.

(* ===================================================================== *)
(** ** The document saveConfig writes *)
(* ===================================================================== *)

Ltac distinct_keys :=
  repeat (apply List.NoDup_cons;
          [cbn [In]; intros H;
           repeat (destruct H as [H | H]; [discriminate H |]); exact H |]);
  apply List.NoDup_nil.

Section WrittenDocument.

Variable same_ref : jsval -> jsval -> bool.

Lemma userConfig_events (c : NotifierConfig) :
  lookup_key "events" (userConfig_of same_ref c) = VObj (event_overrides same_ref c).
Proof.
  unfold userConfig_of.
  destruct (CommandConfig.enabled (command c) || truthy (VStr (CommandConfig.path (command c))));
    reflexivity.
Qed.

Lemma NoDup_userConfig (c : NotifierConfig) :
  List.NoDup (keys (userConfig_of same_ref c)).
Proof.
  unfold userConfig_of.
  destruct (CommandConfig.enabled (command c) || truthy (VStr (CommandConfig.path (command c))));
    cbn [app keys map fst]; distinct_keys.
Qed.

Lemma NoDup_event_overrides (c : NotifierConfig) :
  List.NoDup (keys (event_overrides same_ref c)).
Proof. cbn [event_overrides keys map fst event_name]. distinct_keys. Qed.

Lemma has_key_events_cleaned (c : NotifierConfig) :
  has_key "events" (remove_undefined (userConfig_of same_ref c)) = true.
Proof.
  destruct (has_key "events" (remove_undefined (userConfig_of same_ref c))) eqn:E;
    [reflexivity | exfalso].
  assert (Hl : lookup_key "events" (remove_undefined (userConfig_of same_ref c)) = VUndef).
  { apply lookup_key_absent. intros Hin. apply has_key_In in Hin. congruence. }
  rewrite lookup_remove_undefined in Hl by apply NoDup_userConfig.
  rewrite userConfig_events in Hl. discriminate Hl.
Qed.

(** The properties of [cleanedConfig]: [events] holds the overrides that
    are not [undefined], and is removed when there are none; the others are
    as in [userConfig]. *)
Lemma cleanedConfig_lookup (c : NotifierConfig) (k : string) :
  lookup_key k (cleanedConfig_of same_ref c) =
  if String.eqb k "events" then
    match remove_undefined (event_overrides same_ref c) with
    | [] => VUndef
    | evs => VObj evs
    end
  else lookup_key k (userConfig_of same_ref c).
Proof.
  unfold cleanedConfig_of.
  rewrite (lookup_remove_undefined "events") by apply NoDup_userConfig.
  rewrite userConfig_events.
  destruct (remove_undefined (event_overrides same_ref c)) as [| ev evs] eqn:He;
    cbn [List.length Nat.eqb].
  - rewrite lookup_delete_key.
    destruct (String.eqb k "events"); [reflexivity |].
    apply lookup_remove_undefined, NoDup_userConfig.
  - rewrite lookup_replace_key, has_key_events_cleaned, andb_true_r.
    destruct (String.eqb k "events"); [reflexivity |].
    apply lookup_remove_undefined, NoDup_userConfig.
Qed.

Lemma NoDup_cleanedConfig (c : NotifierConfig) :
  List.NoDup (keys (cleanedConfig_of same_ref c)).
Proof.
  unfold cleanedConfig_of.
  destruct (lookup_key "events" (remove_undefined (userConfig_of same_ref c)));
    try (apply NoDup_keys_filter, NoDup_userConfig).
  destruct (Nat.eqb _ 0).
  - apply NoDup_keys_filter, NoDup_keys_filter, NoDup_userConfig.
  - rewrite keys_replace_key. apply NoDup_keys_filter, NoDup_userConfig.
Qed.

(** Reading a property of the written document. *)
Lemma written_prop (c : NotifierConfig) (k : string) :
  opt_prop (written_document same_ref c) k =
  jsonify_prop (lookup_key k (cleanedConfig_of same_ref c)).
Proof.
  unfold written_document. rewrite jsonify_VObj. cbn [opt_prop].
  apply lookup_jsonify_fields, NoDup_cleanedConfig.
Qed.

Lemma written_not_nullish (c : NotifierConfig) :
  nullish (written_document same_ref c) = false.
Proof. unfold written_document. rewrite jsonify_VObj. reflexivity. Qed.

Lemma event_overrides_lookup (c : NotifierConfig) (e : EventType) :
  lookup_key (event_name e) (event_overrides same_ref c) =
  event_override same_ref (at_event (events c) e) (computed_default c e).
Proof. destruct e; reflexivity. Qed.

Lemma event_override_eq (c : NotifierConfig) (e : EventType) :
  event_override same_ref (at_event (events c) e) (computed_default c e) =
  if overrides same_ref c e then EventConfig_object (at_event (events c) e) else VUndef.
Proof. reflexivity. Qed.

Lemma written_events_entry (c : NotifierConfig) (name : string) :
  opt_prop (opt_prop (written_document same_ref c) "events") name =
  jsonify_prop (lookup_key name (event_overrides same_ref c)).
Proof.
  rewrite written_prop, cleanedConfig_lookup. cbn [String.eqb Ascii.eqb Bool.eqb].
  destruct (remove_undefined (event_overrides same_ref c)) as [| ev evs] eqn:He.
  - rewrite (remove_undefined_nil _ _ He). reflexivity.
  - rewrite <- He. unfold jsonify_prop at 1. cbn [is_undefined].
    rewrite jsonify_VObj. cbn [opt_prop].
    rewrite lookup_jsonify_fields
      by (apply NoDup_keys_filter, NoDup_event_overrides).
    rewrite lookup_remove_undefined by apply NoDup_event_overrides.
    reflexivity.
Qed.

(** The nested entry of an event in the written document. *)
Lemma written_nested_event (c : NotifierConfig) (e : EventType) :
  opt_prop (opt_prop (written_document same_ref c) "events") (event_name e) =
  if overrides same_ref c e
  then jsonify (EventConfig_object (at_event (events c) e))
  else VUndef.
Proof.
  rewrite written_events_entry, event_overrides_lookup, event_override_eq.
  destruct (overrides same_ref c e); reflexivity.
Qed.

(** The written document has no legacy top-level event key. *)
Lemma written_legacy_event (c : NotifierConfig) (e : EventType) :
  opt_prop (written_document same_ref c) (event_name e) = VUndef.
Proof.
  rewrite written_prop, cleanedConfig_lookup.
  replace (String.eqb (event_name e) "events") with false by (destruct e; reflexivity).
  rewrite lookup_key_absent; [reflexivity |].
  unfold userConfig_of.
  destruct (CommandConfig.enabled (command c) || truthy (VStr (CommandConfig.path (command c))));
    cbn [app keys map fst In]; destruct e; cbn [event_name];
    intros H; repeat (destruct H as [H | H]; [discriminate H |]); exact H.
Qed.

Lemma written_user_event (c : NotifierConfig) (e : EventType) :
  user_event_value (written_document same_ref c) (event_name e) =
  if overrides same_ref c e
  then jsonify (EventConfig_object (at_event (events c) e))
  else VUndef.
Proof.
  unfold user_event_value.
  rewrite written_nested_event, written_legacy_event.
  destruct (overrides same_ref c e); reflexivity.
Qed.

(** Whatever config is saved, the written document loads without falling
    back. *)
Lemma written_loadable (c : NotifierConfig) :
  loadable (written_document same_ref c) = true.
Proof.
  apply loadable_intro; [apply written_not_nullish |].
  intros e. rewrite written_user_event.
  destruct (overrides same_ref c e); reflexivity.
Qed.

(** The global fields are always written. *)
Lemma written_sound (c : NotifierConfig) :
  opt_prop (written_document same_ref c) "sound" = jsonify_prop (sound c).
Proof.
  rewrite written_prop, cleanedConfig_lookup. cbn [String.eqb Ascii.eqb Bool.eqb].
  unfold userConfig_of.
  destruct (CommandConfig.enabled (command c) || truthy (VStr (CommandConfig.path (command c))));
    reflexivity.
Qed.

End WrittenDocument.

(* ===================================================================== *)
(** ** toggleSound *)
(* ===================================================================== *)

Section ToggleSound.

Variable same_ref : jsval -> jsval -> bool.

(** One [toggleSound] on a config file that loads without falling back. *)
Lemma toggleSound_loadable (st : store) (j : jsval) :
  config_file st = Some (Doc j) ->
  loadable j = true ->
  toggleSound same_ref st =
  let flipped := negb (truthy (sound (resolve (default_sound st) j))) in
  (mkStore
     (Some (Doc (written_document same_ref
                   (with_sound (resolve (default_sound st) j) flipped))))
     (default_sound st),
   mkResult true
     (if flipped then "Sounds have been enabled." else "Sounds have been disabled.")
     (VBool flipped)).
Proof.
  intros Hf Hl. unfold toggleSound, validateConfigExists, existsSync, loadConfig.
  rewrite Hf, loadConfig_body_eq, Hl. reflexivity.
Qed.

Lemma toggleSound_flips (st : store) (j : jsval) (b : bool) :
  config_file st = Some (Doc j) ->
  loadable j = true ->
  opt_prop j "sound" = VBool b ->
  exists j',
    config_file (fst (toggleSound same_ref st)) = Some (Doc j')
    /\ loadable j' = true
    /\ opt_prop j' "sound" = VBool (negb b)
    /\ success (snd (toggleSound same_ref st)) = true
    /\ soundEnabled (snd (toggleSound same_ref st)) = VBool (negb b).
Proof.
  intros Hf Hl Hs. rewrite (toggleSound_loadable st j Hf Hl).
  cbn [resolve sound]. rewrite Hs. cbn [coalesce nullish truthy fst snd config_file].
  eexists. split; [reflexivity |].
  split; [apply written_loadable |].
  split; [rewrite written_sound; reflexivity |].
  split; reflexivity.
Qed.

(** C9, for the config files that [loadConfig] reads without falling back
    to the defaults: when the persisted [sound] flag of such a file is the
    boolean [b], one [toggleSound] succeeds, reports and persists [not b]; a
    second one succeeds, reports and persists [b] again. *)
Theorem toggleSound_involution (st : store) (j : jsval) (b : bool) :
  config_file st = Some (Doc j) ->
  loadable j = true ->
  opt_prop j "sound" = VBool b ->
  let once := toggleSound same_ref st in
  let twice := toggleSound same_ref (fst once) in
  persisted_sound st = VBool b
  /\ success (snd once) = true
  /\ soundEnabled (snd once) = VBool (negb b)
  /\ persisted_sound (fst once) = VBool (negb b)
  /\ success (snd twice) = true
  /\ soundEnabled (snd twice) = VBool b
  /\ persisted_sound (fst twice) = VBool b
  /\ getSoundStatus (fst twice) = VBool b.
Proof.
  intros Hf Hl Hs. cbv zeta.
  destruct (toggleSound_flips st j b Hf Hl Hs) as [j1 [Hf1 [Hl1 [Hs1 [Hok1 He1]]]]].
  destruct (toggleSound_flips _ j1 (negb b) Hf1 Hl1 Hs1)
    as [j2 [Hf2 [Hl2 [Hs2 [Hok2 He2]]]]].
  rewrite negb_involutive in Hs2, He2.
  unfold persisted_sound, getSoundStatus.
  rewrite Hf, Hf1, Hf2, (loaded_doc _ j2 Hf2), Hl2.
  cbn [resolve sound]. rewrite Hs2.
  repeat split; assumption.
Qed.

End ToggleSound.

Lemma toggleSound_involution_witness :
  config_file (initial_store (Some (Doc doc_sound_off))) = Some (Doc doc_sound_off)
  /\ loadable doc_sound_off = true
  /\ opt_prop doc_sound_off "sound" = VBool false
  /\ persisted_sound
       (fst (toggleSound (fun _ _ => false)
               (fst (toggleSound (fun _ _ => false)
                       (initial_store (Some (Doc doc_sound_off)))))))
     = VBool false.
Proof.
  repeat (split; [reflexivity |]).
  apply (toggleSound_involution (fun _ _ => false)
           (initial_store (Some (Doc doc_sound_off))) doc_sound_off false);
    reflexivity.
Defined.

(** C9 does not hold for every config file with a boolean flag.  The file
    [{"sound": false, "permission": null}] makes [loadConfig] fall back to the
    shared defaults, whose flag is [true]: the first [toggleSound] reports and
    persists [false], the value the file already had, and the second one
    persists [true], so two toggles do not return the flag to its original
    value. *)
Lemma toggleSound_twice_counterexample :
  existsSync (initial_store (Some (Doc doc_null_entry))) = true
  /\ persisted_sound (initial_store (Some (Doc doc_null_entry))) = VBool false
  /\ soundEnabled
       (snd (toggleSound no_sharing (initial_store (Some (Doc doc_null_entry)))))
     = VBool false
  /\ persisted_sound
       (fst (toggleSound no_sharing (initial_store (Some (Doc doc_null_entry)))))
     = VBool false
  /\ persisted_sound
       (fst (toggleSound no_sharing
               (fst (toggleSound no_sharing
                       (initial_store (Some (Doc doc_null_entry)))))))
     = VBool true
  /\ persisted_sound
       (fst (toggleSound no_sharing
               (fst (toggleSound no_sharing
                       (initial_store (Some (Doc doc_null_entry)))))))
     <> persisted_sound (initial_store (Some (Doc doc_null_entry))).
Proof.
  repeat (split; [reflexivity |]). discriminate.
Qed.

(* ===================================================================== *)
(** ** Loading a parsed document gives a settled config *)
(* ===================================================================== *)

Lemma Q_same_eq (a b : Q) : Q_same a b = true -> a = b.
Proof.
  unfold Q_same. destruct a as [an ad], b as [bn bd]. cbn [Qnum Qden].
  intros H. apply andb_prop in H. destruct H as [Hn Hd].
  apply Z.eqb_eq in Hn. apply Pos.eqb_eq in Hd. congruence.
Qed.

Lemma parsed_number_eq (x y : number) :
  parsed_json (VNum x) = true -> parsed_json (VNum y) = true ->
  num_eq x y = true -> x = y.
Proof.
  destruct x as [p | | |], y as [q | | |]; cbn [parsed_json num_eq];
    try discriminate.
  intros Hp Hq He. f_equal.
  apply Q_same_eq in Hp, Hq. apply Qeq_bool_iff in He.
  apply Qred_complete in He. congruence.
Qed.

(** On parsed values, strict equality is equality, as long as the
    reference oracle only identifies equal values. *)
Lemma strict_eq_parsed (same_ref : jsval -> jsval -> bool) (a b : jsval) :
  (forall x y, same_ref x y = true -> x = y) ->
  parsed_json a = true -> parsed_json b = true ->
  strict_eq same_ref a b = true -> a = b.
Proof.
  intros Href Ha Hb.
  destruct a, b; cbn [strict_eq]; try discriminate; try reflexivity.
  - intros H. apply Bool.eqb_prop in H. congruence.
  - intros H. f_equal. exact (parsed_number_eq _ _ Ha Hb H).
  - intros H. apply String.eqb_eq in H. congruence.
  - apply Href.
  - apply Href.
Qed.

Lemma parsed_json_lookup (k : string) (o : list (string * jsval)) :
  parsed_json (VObj o) = true ->
  lookup_key k o = VUndef \/ parsed_json (lookup_key k o) = true.
Proof.
  cbn [parsed_json].
  induction o as [| [k' x] o IH]; cbn [forallb lookup_key snd]; [left; reflexivity |].
  intros H. apply andb_prop in H. destruct H as [Hx Ho].
  destruct (String.eqb k k'); [right; exact Hx | exact (IH Ho)].
Qed.

Lemma parsed_json_opt_prop (v : jsval) (k : string) :
  v = VUndef \/ parsed_json v = true ->
  opt_prop v k = VUndef \/ parsed_json (opt_prop v k) = true.
Proof.
  intros [-> | Hv]; [left; reflexivity |].
  destruct v; try (left; reflexivity).
  apply parsed_json_lookup. exact Hv.
Qed.

Lemma settled_coalesce (a d : jsval) :
  a = VUndef \/ parsed_json a = true ->
  settled d = true -> settled (coalesce a d) = true.
Proof.
  intros [-> | Ha] Hd; [exact Hd |].
  unfold coalesce. destruct (nullish a) eqn:Hn; [exact Hd |].
  unfold settled. rewrite Ha, Hn. reflexivity.
Qed.

Lemma settled_parsed (v : jsval) : settled v = true -> parsed_json v = true.
Proof. unfold settled. intros H. apply andb_prop in H. tauto. Qed.

Lemma settled_not_nullish (v : jsval) : settled v = true -> nullish v = false.
Proof.
  unfold settled. intros H. apply andb_prop in H. destruct H as [_ H].
  apply negb_true_iff in H. exact H.
Qed.

Lemma coalesce_settled (v d : jsval) : settled v = true -> coalesce v d = v.
Proof. intros H. unfold coalesce. rewrite (settled_not_nullish v H). reflexivity. Qed.

Lemma jsonify_prop_settled (v : jsval) : settled v = true -> jsonify_prop v = v.
Proof.
  intros H. apply settled_parsed in H. unfold jsonify_prop.
  rewrite (parsed_json_defined v H). apply jsonify_parsed_json. exact H.
Qed.

Lemma settled_resolveEvent (userEvent : jsval) (d : EventConfig.t) :
  userEvent = VUndef \/ parsed_json userEvent = true ->
  settled_event d = true ->
  settled_event (resolveEvent userEvent d) = true.
Proof.
  intros Hu Hd. pose proof Hd as Hd'. unfold settled_event in Hd'.
  apply andb_prop in Hd'. destruct Hd' as [Hs Hn].
  assert (Hgen : settled_event
                   (EventConfig.mk
                      (coalesce (opt_prop userEvent "sound") (EventConfig.sound d))
                      (coalesce (opt_prop userEvent "notification")
                         (EventConfig.notification d))) = true).
  { unfold settled_event. cbn [EventConfig.sound EventConfig.notification].
    rewrite !settled_coalesce; auto using parsed_json_opt_prop. }
  destruct userEvent; try exact Hgen; try exact Hd; reflexivity.
Qed.

Lemma settled_resolve (ds : bool) (j : jsval) :
  parsed_json j = true -> settled_config (resolve ds j) = true.
Proof.
  intros Hj.
  assert (Hp : forall k, opt_prop j k = VUndef \/ parsed_json (opt_prop j k) = true)
    by (intros k; apply parsed_json_opt_prop; right; exact Hj).
  assert (Hpp : forall t k, opt_prop (opt_prop j t) k = VUndef
                            \/ parsed_json (opt_prop (opt_prop j t) k) = true)
    by (intros t k; apply parsed_json_opt_prop, or_comm, or_comm, Hp).
  assert (Hcmd : forall k,
             opt_prop (coalesce (opt_prop j "command") (VObj [])) k = VUndef
             \/ parsed_json (opt_prop (coalesce (opt_prop j "command") (VObj [])) k) = true).
  { intros k. apply parsed_json_opt_prop. right.
    apply settled_parsed, settled_coalesce; [apply Hp | reflexivity]. }
  assert (Hs : settled (sound (resolve ds j)) = true)
    by (apply settled_coalesce; [apply Hp | destruct ds; reflexivity]).
  assert (Hn : settled (notification (resolve ds j)) = true)
    by (apply settled_coalesce; [apply Hp | reflexivity]).
  assert (Hue : forall name, user_event_value j name = VUndef
                             \/ parsed_json (user_event_value j name) = true).
  { intros name. unfold user_event_value, coalesce.
    destruct (nullish (opt_prop (opt_prop j "events") name)) eqn:E.
    - apply Hp.
    - destruct (Hpp "events" name) as [H | H]; [rewrite H in E; discriminate E |].
      right. exact H. }
  assert (Hdg : settled_event
                  (EventConfig.mk (sound (resolve ds j)) (notification (resolve ds j)))
                = true)
    by (unfold settled_event; cbn [EventConfig.sound EventConfig.notification];
        rewrite Hs, Hn; reflexivity).
  assert (H3 : settled (showProjectName (resolve ds j)) = true)
    by (apply settled_coalesce; [apply Hp | reflexivity]).
  assert (H4 : settled (showIcon (resolve ds j)) = true)
    by (apply settled_coalesce; [apply Hp | reflexivity]).
  assert (H5 : parsed_json (VNum (timeout (resolve ds j))) = true).
  { cbn [resolve timeout DEFAULT_CONFIG_with].
    destruct (Hp "timeout") as [H | H]; [rewrite H; reflexivity |].
    destruct (opt_prop j "timeout"); try reflexivity.
    destruct (num_gt n zero); [exact H | reflexivity]. }
  assert (H6 : num_gt (timeout (resolve ds j)) zero = true).
  { cbn [resolve timeout DEFAULT_CONFIG_with].
    destruct (opt_prop j "timeout"); try reflexivity.
    destruct (num_gt n zero) eqn:E; [exact E | reflexivity]. }
  assert (H7 : parsed_json (VNum (CommandConfig.minDuration (command (resolve ds j))))
               = true).
  { cbn [resolve command CommandConfig.minDuration].
    destruct (Hcmd "minDuration") as [H | H]; [rewrite H; reflexivity |].
    destruct (opt_prop _ "minDuration"); try reflexivity.
    destruct (isFinite n && num_gt n zero); [exact H | reflexivity]. }
  assert (H8 : num_gt (CommandConfig.minDuration (command (resolve ds j))) zero
               || is_zero (CommandConfig.minDuration (command (resolve ds j))) = true).
  { cbn [resolve command CommandConfig.minDuration].
    destruct (opt_prop _ "minDuration"); try reflexivity.
    destruct (isFinite n) eqn:E1; [| reflexivity].
    destruct (num_gt n zero) eqn:E2; cbn [andb]; [rewrite E2 |]; reflexivity. }
  assert (H9 : for_all_events settled_event (events (resolve ds j)) = true).
  { unfold for_all_events. cbn [resolve events PerEvent.permission PerEvent.complete
      PerEvent.subagent_complete PerEvent.error PerEvent.question].
    rewrite !settled_resolveEvent; auto. }
  assert (H10 : for_all_events settled (messages (resolve ds j)) = true).
  { unfold for_all_events. cbn [resolve messages PerEvent.permission PerEvent.complete
      PerEvent.subagent_complete PerEvent.error PerEvent.question].
    rewrite !settled_coalesce; auto. }
  unfold settled_config. rewrite Hs, Hn, H3, H4, H5, H6, H7, H8, H9, H10. reflexivity.
Qed.

(* ===================================================================== *)
(** ** Reloading what saveConfig wrote *)
(* ===================================================================== *)

Lemma per_event_ext {A} (t1 t2 : PerEvent.t A) :
  (forall e, at_event t1 e = at_event t2 e) -> t1 = t2.
Proof.
  intros H. destruct t1, t2.
  pose proof (H permission). pose proof (H complete). pose proof (H subagent_complete).
  pose proof (H error). pose proof (H question). cbn [at_event PerEvent.permission
    PerEvent.complete PerEvent.subagent_complete PerEvent.error PerEvent.question] in *.
  congruence.
Qed.

Lemma for_all_events_at {A} (p : A -> bool) (t : PerEvent.t A) (e : EventType) :
  for_all_events p t = true -> p (at_event t e) = true.
Proof.
  unfold for_all_events. intros H.
  repeat (apply andb_prop in H; destruct H as [H ?]).
  destruct e; assumption.
Qed.

Lemma map_jsonify_VStr (l : list string) : map jsonify (map VStr l) = map VStr l.
Proof. induction l as [| s l IH]; cbn [map jsonify]; congruence. Qed.

Section Reload.

Variable same_ref : jsval -> jsval -> bool.

Lemma written_global (c : NotifierConfig) (k : string) :
  String.eqb k "events" = false ->
  opt_prop (written_document same_ref c) k =
  jsonify_prop (lookup_key k (userConfig_of same_ref c)).
Proof. intros Hk. rewrite written_prop, cleanedConfig_lookup, Hk. reflexivity. Qed.

Ltac read_userConfig :=
  rewrite written_global by reflexivity;
  unfold userConfig_of, command_written;
  cbn [truthy];
  destruct (CommandConfig.enabled (command _)
            || negb (String.eqb (CommandConfig.path (command _)) ""));
  reflexivity.

Lemma written_notification (c : NotifierConfig) :
  opt_prop (written_document same_ref c) "notification" = jsonify_prop (notification c).
Proof. read_userConfig. Qed.

Lemma written_timeout (c : NotifierConfig) :
  opt_prop (written_document same_ref c) "timeout" = jsonify_prop (VNum (timeout c)).
Proof. read_userConfig. Qed.

Lemma written_showProjectName (c : NotifierConfig) :
  opt_prop (written_document same_ref c) "showProjectName"
  = jsonify_prop (showProjectName c).
Proof. read_userConfig. Qed.

Lemma written_showIcon (c : NotifierConfig) :
  opt_prop (written_document same_ref c) "showIcon" = jsonify_prop (showIcon c).
Proof. read_userConfig. Qed.

Lemma written_notificationSystem (c : NotifierConfig) :
  opt_prop (written_document same_ref c) "notificationSystem"
  = VStr (NotificationSystem_name (notificationSystem c)).
Proof. read_userConfig. Qed.

Lemma written_messages (c : NotifierConfig) :
  opt_prop (written_document same_ref c) "messages"
  = jsonify (PerEvent_object (messages c)).
Proof. read_userConfig. Qed.

Lemma written_command (c : NotifierConfig) :
  opt_prop (written_document same_ref c) "command" =
  if command_written c then
    jsonify
      (VObj [("enabled", VBool (CommandConfig.enabled (command c)));
             ("path", VStr (CommandConfig.path (command c)));
             ("args", match CommandConfig.args (command c) with
                      | Some l => VArr (map VStr l)
                      | None => VUndef
                      end);
             ("minDuration", VNum (CommandConfig.minDuration (command c)))])
  else VUndef.
Proof. read_userConfig. Qed.

Lemma jsonify_EventConfig_object (ev : EventConfig.t) :
  settled_event ev = true -> jsonify (EventConfig_object ev) = EventConfig_object ev.
Proof.
  unfold settled_event. intros H. apply andb_prop in H. destruct H as [Hs Hn].
  apply settled_parsed in Hs, Hn.
  apply jsonify_parsed_json. cbn [EventConfig_object parsed_json forallb snd].
  rewrite Hs, Hn. reflexivity.
Qed.

Lemma settled_config_inv (c : NotifierConfig) :
  settled_config c = true ->
  settled (sound c) = true /\ settled (notification c) = true
  /\ settled (showProjectName c) = true /\ settled (showIcon c) = true
  /\ parsed_json (VNum (timeout c)) = true /\ num_gt (timeout c) zero = true
  /\ parsed_json (VNum (CommandConfig.minDuration (command c))) = true
  /\ num_gt (CommandConfig.minDuration (command c)) zero
     || is_zero (CommandConfig.minDuration (command c)) = true
  /\ for_all_events settled_event (events c) = true
  /\ for_all_events settled (messages c) = true.
Proof. unfold settled_config. rewrite !andb_true_iff. tauto. Qed.

Lemma settled_computed_default (c : NotifierConfig) (e : EventType) :
  settled_config c = true -> settled_event (computed_default c e) = true.
Proof.
  intros H. apply settled_config_inv in H. destruct H as [Hs [Hn _]].
  unfold settled_event.
  destruct e; cbn [computed_default EventConfig.sound EventConfig.notification];
    try reflexivity; rewrite Hs, Hn; reflexivity.
Qed.

Lemma settled_events_at (c : NotifierConfig) (e : EventType) :
  settled_config c = true -> settled_event (at_event (events c) e) = true.
Proof.
  intros H. apply settled_config_inv in H.
  apply for_all_events_at. tauto.
Qed.

(** Parsing the entry the written document holds for an event, against
    the default [saveConfig] compared it with, gives the event's flags
    back. *)
Lemma reload_event (c : NotifierConfig) (e : EventType) :
  (forall x y, same_ref x y = true -> x = y) ->
  settled_config c = true ->
  resolveEvent (user_event_value (written_document same_ref c) (event_name e))
    (computed_default c e)
  = at_event (events c) e.
Proof.
  intros Href Hc. rewrite written_user_event.
  pose proof (settled_events_at c e Hc) as Hev.
  pose proof (settled_computed_default c e Hc) as Hd.
  unfold overrides. rewrite (jsonify_EventConfig_object _ Hev).
  destruct (at_event (events c) e) as [s n].
  destruct (computed_default c e) as [ds dn].
  unfold settled_event in Hev, Hd.
  cbn [EventConfig.sound EventConfig.notification] in *.
  apply andb_prop in Hev, Hd. destruct Hev as [Hs Hn], Hd as [Hds Hdn].
  destruct (strict_neq same_ref s ds || strict_neq same_ref n dn) eqn:Ho.
  - cbn [EventConfig_object resolveEvent opt_prop lookup_key String.eqb Ascii.eqb
         Bool.eqb EventConfig.sound EventConfig.notification].
    rewrite !coalesce_settled by assumption. reflexivity.
  - apply orb_false_elim in Ho. destruct Ho as [H1 H2].
    unfold strict_neq in H1, H2. apply negb_false_iff in H1, H2.
    apply strict_eq_parsed in H1, H2; auto using settled_parsed.
    subst. reflexivity.
Qed.

Lemma reload_messages (ds : bool) (c : NotifierConfig) :
  settled_config c = true ->
  messages (resolve ds (written_document same_ref c)) = messages c.
Proof.
  intros Hc. apply settled_config_inv in Hc.
  destruct Hc as [_ [_ [_ [_ [_ [_ [_ [_ [_ Hm]]]]]]]]].
  assert (Hobj : jsonify (PerEvent_object (messages c)) = PerEvent_object (messages c)).
  { apply jsonify_parsed_json.
    pose proof (for_all_events_at _ _ permission Hm).
    pose proof (for_all_events_at _ _ complete Hm).
    pose proof (for_all_events_at _ _ subagent_complete Hm).
    pose proof (for_all_events_at _ _ error Hm).
    pose proof (for_all_events_at _ _ question Hm).
    cbn [at_event] in *.
    cbn [PerEvent_object parsed_json forallb snd].
    rewrite !settled_parsed by assumption. reflexivity. }
  apply per_event_ext. intros e.
  pose proof (for_all_events_at _ _ e Hm) as He.
  cbn [resolve messages]. rewrite written_messages, Hobj.
  destruct e;
    cbn [at_event PerEvent.permission PerEvent.complete PerEvent.subagent_complete
         PerEvent.error PerEvent.question PerEvent_object opt_prop lookup_key
         String.eqb Ascii.eqb Bool.eqb] in *;
    apply coalesce_settled; exact He.
Qed.

Lemma reload_command (ds : bool) (c : NotifierConfig) :
  settled_config c = true ->
  command (resolve ds (written_document same_ref c)) =
  if command_written c then command c else command DEFAULT_CONFIG.
Proof.
  intros Hc. apply settled_config_inv in Hc.
  destruct Hc as [_ [_ [_ [_ [_ [_ [Hmd [Hz _]]]]]]]].
  cbn [resolve command]. rewrite written_command.
  destruct (command_written c); [| reflexivity].
  destruct (command c) as [en p ar md].
  cbn [CommandConfig.enabled CommandConfig.path CommandConfig.args
       CommandConfig.minDuration] in *.
  destruct md as [q | | |]; try discriminate Hmd.
  assert (Hq : (if isFinite (Fin q) && num_gt (Fin q) zero then Fin q else zero) = Fin q).
  { cbn [isFinite andb]. destruct (num_gt (Fin q) zero); [reflexivity |].
    cbn [orb is_zero] in Hz. apply Q_same_eq in Hz. subst q. reflexivity. }
  destruct ar as [l |];
    cbn [jsonify isFinite coalesce nullish opt_prop lookup_key String.eqb Ascii.eqb
         Bool.eqb];
    rewrite ?map_jsonify_VStr, ?filter_strings_map_VStr;
    cbn [isFinite andb] in Hq |- *; rewrite Hq; reflexivity.
Qed.

(** Loading the document that [saveConfig] wrote for a settled config
    gives every field back, except that a [command] block that was not
    written reloads as the default one; the [sounds] are not compared. *)
Lemma reload (ds : bool) (c : NotifierConfig) :
  (forall x y, same_ref x y = true -> x = y) ->
  settled_config c = true ->
  sound (resolve ds (written_document same_ref c)) = sound c
  /\ notification (resolve ds (written_document same_ref c)) = notification c
  /\ timeout (resolve ds (written_document same_ref c)) = timeout c
  /\ showProjectName (resolve ds (written_document same_ref c)) = showProjectName c
  /\ showIcon (resolve ds (written_document same_ref c)) = showIcon c
  /\ notificationSystem (resolve ds (written_document same_ref c)) = notificationSystem c
  /\ events (resolve ds (written_document same_ref c)) = events c
  /\ messages (resolve ds (written_document same_ref c)) = messages c
  /\ command (resolve ds (written_document same_ref c)) =
     (if command_written c then command c else command DEFAULT_CONFIG).
Proof.
  intros Href Hc. pose proof (settled_config_inv c Hc) as Hi.
  destruct Hi as [Hs [Hn [Hspn [Hsi [Ht [Htp _]]]]]].
  assert (Hs' : sound (resolve ds (written_document same_ref c)) = sound c).
  { cbn [resolve sound]. rewrite written_sound, jsonify_prop_settled by exact Hs.
    apply coalesce_settled. exact Hs. }
  assert (Hn' : notification (resolve ds (written_document same_ref c)) = notification c).
  { cbn [resolve notification].
    rewrite written_notification, jsonify_prop_settled by exact Hn.
    apply coalesce_settled. exact Hn. }
  split; [exact Hs' |]. split; [exact Hn' |].
  split.
  { cbn [resolve timeout]. rewrite written_timeout.
    destruct (timeout c) as [q | | |]; try discriminate Ht.
    cbn [jsonify_prop is_undefined jsonify isFinite]. rewrite Htp. reflexivity. }
  split.
  { cbn [resolve showProjectName].
    rewrite written_showProjectName, jsonify_prop_settled by exact Hspn.
    apply coalesce_settled. exact Hspn. }
  split.
  { cbn [resolve showIcon].
    rewrite written_showIcon, jsonify_prop_settled by exact Hsi.
    apply coalesce_settled. exact Hsi. }
  split.
  { cbn [resolve notificationSystem]. rewrite written_notificationSystem.
    destruct (notificationSystem c); reflexivity. }
  split.
  { apply per_event_ext. intros e. rewrite resolve_event, Hs', Hn'.
    change (match e with
            | subagent_complete => EventConfig.mk (VBool false) (VBool false)
            | _ => EventConfig.mk (sound c) (notification c)
            end) with (computed_default c e).
    apply reload_event; assumption. }
  split; [apply reload_messages; exact Hc | apply reload_command; exact Hc].
Qed.

End Reload.

(* ===================================================================== *)
(** ** saveConfig after loadConfig *)
(* ===================================================================== *)

Lemma loaded_after_save
  (same_ref : jsval -> jsval -> bool) (st : store) (c : NotifierConfig) :
  loaded (saveConfig same_ref st c)
  = resolve (default_sound st) (written_document same_ref c).
Proof.
  rewrite (loaded_doc _ (written_document same_ref c)) by reflexivity.
  rewrite written_loadable. reflexivity.
Qed.

Lemma written_always
  (same_ref : jsval -> jsval -> bool) (c : NotifierConfig) (k : string) :
  settled_config c = true ->
  In k always_written ->
  written (written_document same_ref c) k = true.
Proof.
  intros Hc Hk. apply settled_config_inv in Hc.
  destruct Hc as [Hs [Hn [Hspn [Hsi _]]]].
  unfold written. cbn [always_written In] in Hk.
  destruct Hk as [<- | [<- | [<- | [<- | [<- | [<- | [<- | []]]]]]]].
  - rewrite written_sound, jsonify_prop_settled by exact Hs.
    rewrite (parsed_json_defined _ (settled_parsed _ Hs)). reflexivity.
  - rewrite written_notification, jsonify_prop_settled by exact Hn.
    rewrite (parsed_json_defined _ (settled_parsed _ Hn)). reflexivity.
  - rewrite written_timeout. cbn [jsonify_prop is_undefined jsonify].
    destruct (isFinite (timeout c)); reflexivity.
  - rewrite written_showProjectName, jsonify_prop_settled by exact Hspn.
    rewrite (parsed_json_defined _ (settled_parsed _ Hspn)). reflexivity.
  - rewrite written_showIcon, jsonify_prop_settled by exact Hsi.
    rewrite (parsed_json_defined _ (settled_parsed _ Hsi)). reflexivity.
  - rewrite written_notificationSystem. reflexivity.
  - rewrite written_messages. reflexivity.
Qed.

(** C1, as the code has it.  Take a config file that holds a parsed JSON
    document which [loadConfig] reads without falling back.  Saving the loaded
    config and loading again gives back [sound], [notification], [timeout],
    [showProjectName], [showIcon], [notificationSystem], the per-event flags
    and the messages unchanged; the [command] block comes back unchanged when
    it is enabled or has a path, and as the default block otherwise.  On
    write, the entry of an event is present exactly when one of its flags
    differs from the computed default (the global flags, or false and false
    for [subagent_complete]); the [command] block is present exactly when it
    is enabled or has a path; the global fields and the messages are always
    present, whether or not they equal their defaults. *)
Theorem saveConfig_loadConfig_roundtrip
  (same_ref : jsval -> jsval -> bool) (st : store) (j : jsval) :
  (forall x y, same_ref x y = true -> x = y) ->
  config_file st = Some (Doc j) ->
  parsed_json j = true ->
  loadable j = true ->
  let c := loaded st in
  let doc := written_document same_ref c in
  let c' := loaded (saveConfig same_ref st c) in
  config_file (saveConfig same_ref st c) = Some (Doc doc)
  /\ sound c' = sound c
  /\ notification c' = notification c
  /\ timeout c' = timeout c
  /\ showProjectName c' = showProjectName c
  /\ showIcon c' = showIcon c
  /\ notificationSystem c' = notificationSystem c
  /\ events c' = events c
  /\ messages c' = messages c
  /\ command c' = (if command_written c then command c else command DEFAULT_CONFIG)
  /\ (forall e, written (opt_prop doc "events") (event_name e) = overrides same_ref c e)
  /\ written doc "command" = command_written c
  /\ (forall k, In k always_written -> written doc k = true).
Proof.
  intros Href Hf Hj Hl. cbv zeta.
  rewrite loaded_after_save, (loaded_doc st j Hf), Hl.
  pose proof (settled_resolve (default_sound st) j Hj) as Hc.
  split; [reflexivity |].
  destruct (reload same_ref (default_sound st) _ Href Hc)
    as [H1 [H2 [H3 [H4 [H5 [H6 [H7 [H8 H9]]]]]]]].
  repeat (split; [assumption |]).
  split.
  { intros e. unfold written. rewrite written_nested_event.
    destruct (overrides same_ref _ e); reflexivity. }
  split.
  { unfold written. rewrite written_command.
    destruct (command_written _); reflexivity. }
  intros k Hk. apply written_always; assumption.
Qed.

Lemma saveConfig_loadConfig_roundtrip_witness :
  (forall x y, no_sharing x y = true -> x = y)
  /\ config_file (initial_store (Some (Doc doc_custom))) = Some (Doc doc_custom)
  /\ parsed_json doc_custom = true
  /\ loadable doc_custom = true
  /\ events (loaded (saveConfig no_sharing (initial_store (Some (Doc doc_custom)))
                       (loaded (initial_store (Some (Doc doc_custom))))))
     = events (loaded (initial_store (Some (Doc doc_custom)))).
Proof.
  split; [intros x y H; discriminate H |].
  repeat (split; [reflexivity |]).
  apply (saveConfig_loadConfig_roundtrip no_sharing
           (initial_store (Some (Doc doc_custom))) doc_custom);
    [intros x y H; discriminate H | reflexivity | reflexivity | reflexivity].
Defined.

(** C1 as stated fails on its second half: the file that sets only a
    timeout of 10 loads with the default [sound], [notification],
    [showProjectName], [showIcon], [notificationSystem] and messages, and
    [saveConfig] writes every one of them although each equals its
    default. *)
Lemma saveConfig_writes_defaults_counterexample :
  sound (loaded (initial_store (Some (Doc doc_timeout_only)))) = sound DEFAULT_CONFIG
  /\ messages (loaded (initial_store (Some (Doc doc_timeout_only))))
     = messages DEFAULT_CONFIG
  /\ opt_prop
       (written_document no_sharing (loaded (initial_store (Some (Doc doc_timeout_only)))))
       "sound" = VBool true
  /\ opt_prop
       (written_document no_sharing (loaded (initial_store (Some (Doc doc_timeout_only)))))
       "messages" = PerEvent_object (messages DEFAULT_CONFIG)
  /\ forallb
       (written
          (written_document no_sharing
             (loaded (initial_store (Some (Doc doc_timeout_only))))))
       always_written = true.
Proof. repeat split. Qed.

(** What [saveConfig] does with the custom sounds: it never writes the
    [sounds] table, so a custom sound path does not survive a save. *)
Lemma saveConfig_drops_sounds :
  getSoundPath (loaded (initial_store (Some (Doc doc_custom_sound)))) complete
  = VStr "/sounds/done.wav"
  /\ getSoundPath
       (loaded (saveConfig no_sharing (initial_store (Some (Doc doc_custom_sound)))
                  (loaded (initial_store (Some (Doc doc_custom_sound))))))
       complete
     = VNull.
Proof. split; reflexivity. Qed.

(* ===================================================================== *)
(** * Further properties *)
(* ===================================================================== *)

(** ** loadConfig: fallback, ranges and merging *)

Lemma loadable_false_iff (j : jsval) :
  loadable j = false <->
  nullish j = true \/ exists e, user_event_value j (event_name e) = VNull.
Proof.
  split.
  - intros H. destruct (nullish j) eqn:Hj; [left; reflexivity | right].
    destruct (is_null (user_event_value j (event_name permission))) eqn:E1;
      [exists permission; destruct (user_event_value j (event_name permission));
         try discriminate E1; reflexivity |].
    destruct (is_null (user_event_value j (event_name complete))) eqn:E2;
      [exists complete; destruct (user_event_value j (event_name complete));
         try discriminate E2; reflexivity |].
    destruct (is_null (user_event_value j (event_name subagent_complete))) eqn:E3;
      [exists subagent_complete;
       destruct (user_event_value j (event_name subagent_complete));
         try discriminate E3; reflexivity |].
    destruct (is_null (user_event_value j (event_name error))) eqn:E4;
      [exists error; destruct (user_event_value j (event_name error));
         try discriminate E4; reflexivity |].
    destruct (is_null (user_event_value j (event_name question))) eqn:E5;
      [exists question; destruct (user_event_value j (event_name question));
         try discriminate E5; reflexivity |].
    exfalso. rewrite loadable_intro in H; [discriminate H | exact Hj |].
    intros e. destruct e; assumption.
  - intros [Hj | [e He]].
    + unfold loadable. rewrite Hj. reflexivity.
    + destruct (loadable j) eqn:Hl; [| reflexivity].
      pose proof (loadable_event j e Hl) as Hn. rewrite He in Hn. discriminate Hn.
Qed.

(** [loadConfig] hands out the shared DEFAULT_CONFIG object exactly when
    there is no config file, the file cannot be read or parsed, the document
    is [null], or one of the five per-event entries resolves to [null]; in the
    last case everything else the file sets is ignored as well. *)
Theorem loadConfig_fallback_iff (st : store) :
  loadConfig st = TheDefault <->
  match config_file st with
  | None | Some Garbage => True
  | Some (Doc j) =>
      nullish j = true \/ exists e, user_event_value j (event_name e) = VNull
  end.
Proof.
  unfold loadConfig. destruct (config_file st) as [[| j] |]; try tauto.
  rewrite loadConfig_body_eq, <- loadable_false_iff.
  destruct (loadable j); split; intros H; try reflexivity; discriminate H.
Qed.

(** On every path, the [command.minDuration] that [loadConfig] returns is
    a finite number that is either 0 or above 0. *)
Theorem loadConfig_minDuration_range (st : store) :
  isFinite (CommandConfig.minDuration (command (loaded st))) = true
  /\ (CommandConfig.minDuration (command (loaded st)) = zero
      \/ num_gt (CommandConfig.minDuration (command (loaded st))) zero = true).
Proof.
  split; [apply loadConfig_minDuration_finite |].
  assert (Hres : forall ds j,
             CommandConfig.minDuration (command (resolve ds j)) = zero
             \/ num_gt (CommandConfig.minDuration (command (resolve ds j))) zero = true).
  { intros ds j. cbn [resolve command CommandConfig.minDuration].
    destruct (opt_prop _ "minDuration"); try (left; reflexivity).
    destruct (isFinite n); [| left; reflexivity].
    destruct (num_gt n zero) eqn:E; [right; exact E | left; reflexivity]. }
  unfold loaded, loadConfig.
  destruct (config_file st) as [[| j] |]; try (left; reflexivity).
  rewrite loadConfig_body_eq. destruct (loadable j); [apply Hres | left; reflexivity].
Qed.

(** An event other than [subagent_complete] for which the file holds no
    entry takes both flags from the global [sound] and [notification] of the
    loaded config. *)
Theorem events_inherit_global_flags (st : store) (j : jsval) (e : EventType) :
  config_file st = Some (Doc j) ->
  loadable j = true ->
  e <> subagent_complete ->
  no_override st e = true ->
  at_event (events (loaded st)) e
  = EventConfig.mk (sound (loaded st)) (notification (loaded st)).
Proof.
  intros Hf Hl He Hn. unfold no_override in Hn. rewrite Hf in Hn.
  rewrite (loaded_doc st j Hf), Hl, resolve_event.
  pose proof (loadable_event j e Hl) as Hnn.
  destruct (user_event_value j (event_name e)); try discriminate.
  destruct e; try reflexivity. congruence.
Qed.

Lemma events_inherit_global_flags_witness :
  config_file (initial_store (Some (Doc doc_partial))) = Some (Doc doc_partial)
  /\ loadable doc_partial = true
  /\ complete <> subagent_complete
  /\ no_override (initial_store (Some (Doc doc_partial))) complete = true
  /\ at_event (events (loaded (initial_store (Some (Doc doc_partial))))) complete
     = EventConfig.mk (VBool true) (VBool false).
Proof.
  split; [reflexivity |]. split; [reflexivity |]. split; [discriminate |].
  split; [reflexivity |].
  apply (events_inherit_global_flags
           (initial_store (Some (Doc doc_partial))) doc_partial complete);
    [reflexivity | reflexivity | discriminate | reflexivity].
Defined.

(** A nested per-event entry that is an object wins over the legacy
    top-level key of the same event, and is merged field by field: a flag the
    object sets is taken, a flag it leaves out (or sets to null) comes from
    the event's default, which is the global flags, or false and false for
    [subagent_complete]. *)
Theorem nested_object_merges_per_field
  (st : store) (j : jsval) (e : EventType) (o : list (string * jsval)) :
  config_file st = Some (Doc j) ->
  loadable j = true ->
  opt_prop (opt_prop j "events") (event_name e) = VObj o ->
  at_event (events (loaded st)) e
  = EventConfig.mk
      (coalesce (lookup_key "sound" o)
         (EventConfig.sound (computed_default (loaded st) e)))
      (coalesce (lookup_key "notification" o)
         (EventConfig.notification (computed_default (loaded st) e))).
Proof.
  intros Hf Hl Ho. rewrite (loaded_doc st j Hf), Hl, resolve_event.
  unfold user_event_value. rewrite Ho. cbn [coalesce nullish resolveEvent opt_prop].
  destruct e; reflexivity.
Qed.

Lemma nested_object_merges_per_field_witness :
  config_file (initial_store (Some (Doc doc_partial))) = Some (Doc doc_partial)
  /\ loadable doc_partial = true
  /\ opt_prop (opt_prop doc_partial "events") (event_name error)
     = VObj [("sound", VBool false)]
  /\ opt_prop doc_partial (event_name error) = VBool true
  /\ at_event (events (loaded (initial_store (Some (Doc doc_partial))))) error
     = EventConfig.mk (VBool false) (VBool false).
Proof.
  repeat (split; [reflexivity |]).
  apply (nested_object_merges_per_field
           (initial_store (Some (Doc doc_partial))) doc_partial error
           [("sound", VBool false)]); reflexivity.
Defined.

(** ** saveConfig: what the written file always and never holds *)

(** What [loadConfig] returns for a file with finite numbers is settled. *)
Lemma settled_loaded (st : store) :
  finite_file st = true -> settled_config (loaded st) = true.
Proof.
  intros Hr. unfold finite_file in Hr. unfold loaded, loadConfig.
  destruct (config_file st) as [[| j] |]; try discriminate Hr.
  - cbn [deref]. destruct (default_sound st); reflexivity.
  - rewrite loadConfig_body_eq.
    destruct (loadable j); cbn [deref];
      [apply settled_resolve; exact Hr | destruct (default_sound st); reflexivity].
Qed.

Lemma settled_with_sound (c : NotifierConfig) (b : bool) :
  settled_config c = true -> settled_config (with_sound c b) = true.
Proof.
  intros Hc. apply settled_config_inv in Hc.
  destruct Hc as [_ [H2 [H3 [H4 [H5 [H6 [H7 [H8 [H9 H10]]]]]]]]].
  unfold settled_config.
  cbn [with_sound sound notification showProjectName showIcon timeout command events
       messages].
  rewrite H2, H3, H4, H5, H6, H7, H8, H9, H10. reflexivity.
Qed.

Section SavedFile.

Variable same_ref : jsval -> jsval -> bool.

Lemma loadConfig_after_save (st : store) (c : NotifierConfig) :
  loadConfig (saveConfig same_ref st c)
  = Fresh (resolve (default_sound st) (written_document same_ref c)).
Proof.
  unfold loadConfig. cbn [saveConfig config_file default_sound].
  rewrite loadConfig_body_eq, written_loadable. reflexivity.
Qed.

(** Whatever config is saved, the next [loadConfig] builds a fresh object
    from the written file and never falls back to the shared defaults. *)
Theorem saveConfig_then_loadConfig_fresh (st : store) (c : NotifierConfig) :
  loadConfig (saveConfig same_ref st c)
  = Fresh (resolve (default_sound st) (written_document same_ref c)).
Proof. intros. eapply loadConfig_after_save; eassumption. Qed.

Lemma written_sounds (c : NotifierConfig) :
  opt_prop (written_document same_ref c) "sounds" = VUndef.
Proof.
  rewrite written_global by reflexivity.
  unfold userConfig_of.
  destruct (CommandConfig.enabled (command c) || truthy (VStr (CommandConfig.path (command c))));
    reflexivity.
Qed.

Lemma sounds_after_save (st : store) (c : NotifierConfig) (e : EventType) :
  getSoundPath (loaded (saveConfig same_ref st c)) e = VNull.
Proof.
  rewrite loaded_after_save. unfold getSoundPath.
  destruct e; cbn [resolve sounds at_event PerEvent.permission PerEvent.complete
    PerEvent.subagent_complete PerEvent.error PerEvent.question];
    rewrite written_sounds; reflexivity.
Qed.

(** [saveConfig] never writes the [sounds] table: whatever config is
    saved, every custom sound path loads as [null] afterwards. *)
Theorem saveConfig_forgets_sounds (st : store) (c : NotifierConfig) (e : EventType) :
  getSoundPath (loaded (saveConfig same_ref st c)) e = VNull.
Proof. intros. eapply sounds_after_save; eassumption. Qed.

(** The written file depends on the config only through the fields
    [saveConfig] reads; a [command] block that is not written may be
    anything. *)
Lemma written_document_ext (c c' : NotifierConfig) :
  sound c' = sound c ->
  notification c' = notification c ->
  timeout c' = timeout c ->
  showProjectName c' = showProjectName c ->
  showIcon c' = showIcon c ->
  notificationSystem c' = notificationSystem c ->
  events c' = events c ->
  messages c' = messages c ->
  command c' = (if command_written c then command c else command DEFAULT_CONFIG) ->
  written_document same_ref c' = written_document same_ref c.
Proof.
  intros H1 H2 H3 H4 H5 H6 H7 H8 H9.
  unfold written_document, cleanedConfig_of.
  assert (Hu : userConfig_of same_ref c' = userConfig_of same_ref c).
  { unfold userConfig_of. rewrite H1, H2, H3, H4, H5, H6, H7, H8, H9.
    unfold command_written. cbn [truthy].
    destruct (CommandConfig.enabled (command c)
              || negb (String.eqb (CommandConfig.path (command c)) "")) eqn:E;
      [rewrite E; reflexivity | reflexivity]. }
  rewrite Hu. reflexivity.
Qed.

(** Saving what was loaded brings a config file whose document holds
    finite numbers only (or that does not parse) into a normal form: loading
    the written file and saving again writes the very same file.  A
    non-finite number is outside the statement: [JSON.stringify] writes it as
    [null]. *)
Theorem save_after_load_idempotent (st : store) :
  (forall x y, same_ref x y = true -> x = y) ->
  finite_file st = true ->
  saveConfig same_ref (saveConfig same_ref st (loaded st))
    (loaded (saveConfig same_ref st (loaded st)))
  = saveConfig same_ref st (loaded st).
Proof.
  intros Href Hr.
  pose proof (settled_loaded st Hr) as Hc.
  rewrite loaded_after_save.
  destruct (reload same_ref (default_sound st) (loaded st) Href Hc)
    as [H1 [H2 [H3 [H4 [H5 [H6 [H7 [H8 H9]]]]]]]].
  unfold saveConfig at 1 3. cbn [default_sound]. f_equal. f_equal. f_equal.
  apply written_document_ext; assumption.
Qed.

End SavedFile.

Lemma save_after_load_idempotent_witness :
  (forall x y, no_sharing x y = true -> x = y)
  /\ finite_file (initial_store (Some (Doc doc_partial))) = true
  /\ saveConfig no_sharing
       (saveConfig no_sharing (initial_store (Some (Doc doc_partial)))
          (loaded (initial_store (Some (Doc doc_partial)))))
       (loaded
          (saveConfig no_sharing (initial_store (Some (Doc doc_partial)))
             (loaded (initial_store (Some (Doc doc_partial))))))
     = saveConfig no_sharing (initial_store (Some (Doc doc_partial)))
         (loaded (initial_store (Some (Doc doc_partial)))).
Proof.
  split; [intros x y H; discriminate H |]. split; [reflexivity |].
  apply (save_after_load_idempotent no_sharing (initial_store (Some (Doc doc_partial))));
    [intros x y H; discriminate H | reflexivity].
Defined.

(** ** Sound toggle: enable, disable, status and the fallback path *)

Section SoundOperations.

Variable same_ref : jsval -> jsval -> bool.

(** The store after [config.sound = b; saveConfig(config)] on what
    [loadConfig] returned: the file holds the loaded config with the new
    flag, and the module default changes when the loaded object was the
    shared one. *)
Lemma set_sound_then_save (st : store) (b : bool) :
  saveConfig same_ref (fst (set_sound st (loadConfig st) b))
    (deref (fst (set_sound st (loadConfig st) b))
       (snd (set_sound st (loadConfig st) b)))
  = mkStore (Some (Doc (written_document same_ref (with_sound (loaded st) b))))
      (match loadConfig st with
       | TheDefault => b
       | Fresh _ => default_sound st
       end).
Proof. unfold loaded. destruct (loadConfig st); reflexivity. Qed.

Lemma enableSound_eq (st : store) :
  existsSync st = true ->
  enableSound same_ref st
  = (mkStore (Some (Doc (written_document same_ref (with_sound (loaded st) true))))
       (match loadConfig st with
        | TheDefault => true
        | Fresh _ => default_sound st
        end),
     mkResult true "Sounds have been enabled." (VBool true)).
Proof.
  intros He. unfold enableSound, validateConfigExists. rewrite He. cbn [negb].
  rewrite <- set_sound_then_save.
  destruct (set_sound st (loadConfig st) true) as [st1 r]. reflexivity.
Qed.

Lemma disableSound_eq (st : store) :
  existsSync st = true ->
  disableSound same_ref st
  = (mkStore (Some (Doc (written_document same_ref (with_sound (loaded st) false))))
       (match loadConfig st with
        | TheDefault => false
        | Fresh _ => default_sound st
        end),
     mkResult true "Sounds have been disabled." (VBool false)).
Proof.
  intros He. unfold disableSound, validateConfigExists. rewrite He. cbn [negb].
  rewrite <- set_sound_then_save.
  destruct (set_sound st (loadConfig st) false) as [st1 r]. reflexivity.
Qed.

Lemma toggleSound_eq (st : store) :
  existsSync st = true ->
  toggleSound same_ref st
  = (mkStore
       (Some (Doc (written_document same_ref (with_sound (loaded st) (flipped st)))))
       (match loadConfig st with
        | TheDefault => flipped st
        | Fresh _ => default_sound st
        end),
     mkResult true
       (if flipped st then "Sounds have been enabled." else "Sounds have been disabled.")
       (VBool (flipped st))).
Proof.
  intros He. unfold toggleSound, validateConfigExists. rewrite He. cbn [negb].
  unfold flipped. rewrite <- set_sound_then_save. unfold loaded.
  destruct (loadConfig st); reflexivity.
Qed.

Lemma loaded_written (ds : bool) (c : NotifierConfig) :
  loaded (mkStore (Some (Doc (written_document same_ref c))) ds)
  = resolve ds (written_document same_ref c).
Proof. apply (loaded_after_save same_ref (mkStore None ds) c). Qed.

Lemma loadConfig_written (ds : bool) (c : NotifierConfig) :
  loadConfig (mkStore (Some (Doc (written_document same_ref c))) ds)
  = Fresh (resolve ds (written_document same_ref c)).
Proof. apply (loadConfig_after_save same_ref (mkStore None ds) c). Qed.

Lemma sound_after_write (ds b : bool) (c : NotifierConfig) :
  opt_prop (written_document same_ref (with_sound c b)) "sound" = VBool b
  /\ sound (resolve ds (written_document same_ref (with_sound c b))) = VBool b.
Proof.
  assert (H : opt_prop (written_document same_ref (with_sound c b)) "sound" = VBool b)
    by (rewrite written_sound; reflexivity).
  split; [exact H |]. cbn [resolve sound]. rewrite H. reflexivity.
Qed.

(** Whenever the config file exists, whatever it holds, [enableSound]
    succeeds and leaves the persisted flag and the flag the next [loadConfig]
    reports at [true], and [disableSound] does the same with [false]. *)
Theorem enable_disable_set_the_flag (st : store) :
  existsSync st = true ->
  (success (snd (enableSound same_ref st)) = true
   /\ soundEnabled (snd (enableSound same_ref st)) = VBool true
   /\ persisted_sound (fst (enableSound same_ref st)) = VBool true
   /\ getSoundStatus (fst (enableSound same_ref st)) = VBool true)
  /\ (success (snd (disableSound same_ref st)) = true
      /\ soundEnabled (snd (disableSound same_ref st)) = VBool false
      /\ persisted_sound (fst (disableSound same_ref st)) = VBool false
      /\ getSoundStatus (fst (disableSound same_ref st)) = VBool false).
Proof.
  intros He. rewrite (enableSound_eq st He), (disableSound_eq st He).
  cbn [fst snd success soundEnabled]. unfold persisted_sound, getSoundStatus.
  cbn [config_file].
  assert (Hgen : forall b ds,
             opt_prop (written_document same_ref (with_sound (loaded st) b)) "sound"
             = VBool b
             /\ sound (loaded (mkStore
                                 (Some (Doc (written_document same_ref
                                               (with_sound (loaded st) b)))) ds))
                = VBool b).
  { intros b ds. split; [apply (sound_after_write true) |].
    rewrite loaded_written. apply sound_after_write. }
  repeat split;
    first [reflexivity | apply (proj2 (Hgen _ _)) | apply (proj1 (Hgen _ true))].
Qed.

Lemma soundStatus_written (ds b : bool) (c : NotifierConfig) :
  soundStatus (mkStore (Some (Doc (written_document same_ref (with_sound c b)))) ds)
  = (mkStore (Some (Doc (written_document same_ref (with_sound c b)))) ds,
     mkResult true
       (if b then "Sounds are currently enabled." else "Sounds are currently disabled.")
       (VBool b)).
Proof.
  unfold soundStatus, validateConfigExists, existsSync. cbn [config_file negb].
  change (deref ?s (loadConfig ?s)) with (loaded s).
  rewrite loaded_written.
  destruct (sound_after_write ds b c) as [_ H]. rewrite H. reflexivity.
Qed.

(** [soundStatus] after a successful [enableSound] reports enabled, and
    after [disableSound] disabled, without touching the store. *)
Theorem soundStatus_after_set (st : store) :
  existsSync st = true ->
  soundStatus (fst (enableSound same_ref st))
  = (fst (enableSound same_ref st),
     mkResult true "Sounds are currently enabled." (VBool true))
  /\ soundStatus (fst (disableSound same_ref st))
     = (fst (disableSound same_ref st),
        mkResult true "Sounds are currently disabled." (VBool false)).
Proof.
  intros He. rewrite (enableSound_eq st He), (disableSound_eq st He). cbn [fst].
  split; apply soundStatus_written.
Qed.

(** When [loadConfig] falls back although the file exists (unreadable
    file, [null] document or [null] per-event entry), [toggleSound] does not
    flip the flag in the file: it flips the [sound] of the shared
    DEFAULT_CONFIG object, which stays changed for the rest of the process,
    and overwrites the file with the defaults carrying that flag. *)
Theorem toggleSound_on_fallback (st : store) :
  existsSync st = true ->
  loadConfig st = TheDefault ->
  toggleSound same_ref st
  = (mkStore
       (Some (Doc (written_document same_ref
                     (DEFAULT_CONFIG_with (negb (default_sound st))))))
       (negb (default_sound st)),
     mkResult true
       (if negb (default_sound st)
        then "Sounds have been enabled." else "Sounds have been disabled.")
       (VBool (negb (default_sound st)))).
Proof.
  intros He Hl. rewrite (toggleSound_eq st He). unfold flipped, loaded. rewrite Hl.
  reflexivity.
Qed.

(** After [enableSound], [disableSound] or [toggleSound] with a config
    file present, every custom sound path loads as [null]. *)
Theorem sound_toggle_forgets_sounds (st : store) (e : EventType) :
  existsSync st = true ->
  getSoundPath (loaded (fst (enableSound same_ref st))) e = VNull
  /\ getSoundPath (loaded (fst (disableSound same_ref st))) e = VNull
  /\ getSoundPath (loaded (fst (toggleSound same_ref st))) e = VNull.
Proof.
  intros He.
  rewrite (enableSound_eq st He), (disableSound_eq st He), (toggleSound_eq st He).
  cbn [fst].
  repeat split;
    match goal with
    | |- getSoundPath (loaded (mkStore (Some (Doc (written_document _ ?c))) ?ds)) _ = _ =>
        apply (sounds_after_save same_ref (mkStore None ds) c e)
    end.
Qed.

Lemma events_after_set (st : store) (b ds : bool) :
  (forall x y, same_ref x y = true -> x = y) ->
  finite_file st = true ->
  events (loaded (mkStore
                    (Some (Doc (written_document same_ref (with_sound (loaded st) b))))
                    ds))
  = events (loaded st).
Proof.
  intros Href Hr. rewrite loaded_written.
  pose proof (settled_with_sound _ b (settled_loaded st Hr)) as Hc.
  destruct (reload same_ref ds _ Href Hc) as [_ [_ [_ [_ [_ [_ [He _]]]]]]].
  exact He.
Qed.

Lemma finite_file_exists (st : store) : finite_file st = true -> existsSync st = true.
Proof.
  unfold finite_file, existsSync. destruct (config_file st); [reflexivity | discriminate].
Qed.

Lemma events_after_sound_toggle (st : store) :
  (forall x y, same_ref x y = true -> x = y) ->
  finite_file st = true ->
  events (loaded (fst (enableSound same_ref st))) = events (loaded st)
  /\ events (loaded (fst (disableSound same_ref st))) = events (loaded st)
  /\ events (loaded (fst (toggleSound same_ref st))) = events (loaded st).
Proof.
  intros Href Hr. pose proof (finite_file_exists st Hr) as He.
  rewrite (enableSound_eq st He), (disableSound_eq st He), (toggleSound_eq st He).
  cbn [fst]. repeat split; apply events_after_set; assumption.
Qed.

Lemma config_ext (c c' : NotifierConfig) :
  sound c' = sound c ->
  notification c' = notification c ->
  timeout c' = timeout c ->
  showProjectName c' = showProjectName c ->
  showIcon c' = showIcon c ->
  notificationSystem c' = notificationSystem c ->
  command c' = command c ->
  events c' = events c ->
  messages c' = messages c ->
  sounds c' = sounds c ->
  c' = c.
Proof.
  destruct c, c'.
  cbn [sound notification timeout showProjectName showIcon notificationSystem command
       events messages sounds].
  congruence.
Qed.

Lemma loaded_after_set (st : store) (b ds : bool) :
  (forall x y, same_ref x y = true -> x = y) ->
  finite_file st = true ->
  loaded (mkStore
            (Some (Doc (written_document same_ref (with_sound (loaded st) b))))
            ds)
  = after_sound_set (loaded st) b.
Proof.
  intros Href Hr.
  pose proof (settled_with_sound _ b (settled_loaded st Hr)) as Hc.
  assert (Hsounds :
            forall e,
              at_event (sounds (loaded (mkStore
                (Some (Doc (written_document same_ref (with_sound (loaded st) b)))) ds))) e
              = VNull).
  { intros e.
    apply (sounds_after_save same_ref (mkStore None ds) (with_sound (loaded st) b) e). }
  rewrite loaded_written in *.
  destruct (reload same_ref ds _ Href Hc) as [H1 [H2 [H3 [H4 [H5 [H6 [H7 [H8 H9]]]]]]]].
  apply config_ext;
    cbn [after_sound_set with_sound sound notification timeout showProjectName showIcon
         notificationSystem command events messages sounds] in *;
    try assumption.
  apply per_event_ext. intros e. rewrite Hsounds. destruct e; reflexivity.
Qed.

(** What the sound operations change.  On a config file with finite
    numbers, the config loaded after [enableSound], [disableSound] or
    [toggleSound] is the one loaded before with three differences: [sound]
    is the flag the operation set, every custom sound path is [null], and a
    command block that is disabled and has no path is replaced by the default
    block (its [args] and [minDuration] are lost).  [notification],
    [timeout], [showProjectName], [showIcon], [notificationSystem], the
    per-event flags and the messages are as before. *)
Theorem sound_toggle_effect (st : store) :
  (forall x y, same_ref x y = true -> x = y) ->
  finite_file st = true ->
  loaded (fst (enableSound same_ref st)) = after_sound_set (loaded st) true
  /\ loaded (fst (disableSound same_ref st)) = after_sound_set (loaded st) false
  /\ loaded (fst (toggleSound same_ref st)) = after_sound_set (loaded st) (flipped st).
Proof.
  intros Href Hr. pose proof (finite_file_exists st Hr) as He.
  rewrite (enableSound_eq st He), (disableSound_eq st He), (toggleSound_eq st He).
  cbn [fst]. repeat split; apply loaded_after_set; assumption.
Qed.

(** So [disableSound] does not silence an event: when the sound of an
    event was enabled before, the plugin started after [disableSound] still
    calls [playSound] for it (with the built-in sound, the custom path being
    forgotten by the save). *)
Theorem disableSound_keeps_event_sound
  (st : store) (m : machine) (e : EventType) (projectName : option string)
  (elapsedSeconds : option number) :
  (forall x y, same_ref x y = true -> x = y) ->
  finite_file st = true ->
  truthy (isEventSoundEnabled (loaded st) e) = true ->
  In (PlaySound e VNull)
     (handleEvent m (plugin_config (loaded (fst (disableSound same_ref st)))) e
        projectName elapsedSeconds).
Proof.
  intros Href Hr Hs.
  destruct (events_after_sound_toggle st Href Hr) as [_ [Hev _]].
  destruct (sound_toggle_forgets_sounds st e (finite_file_exists st Hr)) as [_ [Hsp _]].
  unfold handleEvent, notification_step, isEventSoundEnabled, isEventNotificationEnabled
    in *.
  cbn [plugin_config base suppressWhenFocused truthy andb].
  rewrite Hev, Hs, Hsp.
  destruct (truthy (EventConfig.notification (at_event (events (loaded st)) e)));
    destruct (shouldSkipCommand _ elapsedSeconds);
    cbn [app In]; auto.
Qed.

(** [enableSound] is idempotent on a config file whose document holds
    finite numbers only (or that does not parse): called again on the store
    it left, it returns the same result and writes the same file. *)
Theorem enableSound_idempotent (st : store) :
  (forall x y, same_ref x y = true -> x = y) ->
  finite_file st = true ->
  enableSound same_ref (fst (enableSound same_ref st)) = enableSound same_ref st.
Proof.
  intros Href Hr. pose proof (finite_file_exists st Hr) as He.
  rewrite (enableSound_eq st He). cbn [fst].
  rewrite enableSound_eq by reflexivity.
  rewrite loaded_written.
  pose proof (settled_with_sound _ true (settled_loaded st Hr)) as Hc.
  rewrite loadConfig_written. cbn [default_sound].
  f_equal. f_equal. f_equal. f_equal.
  destruct (reload same_ref
              (match loadConfig st with TheDefault => true | Fresh _ => default_sound st end)
              _ Href Hc) as [H1 [H2 [H3 [H4 [H5 [H6 [H7 [H8 H9]]]]]]]].
  apply written_document_ext; cbn [with_sound sound notification timeout showProjectName
    showIcon notificationSystem events messages command] in *; try assumption.
  reflexivity.
Qed.

End SoundOperations.

Lemma sound_toggle_effect_witness :
  (forall x y, no_sharing x y = true -> x = y)
  /\ finite_file (initial_store (Some (Doc doc_disabled_command))) = true
  /\ loaded (fst (disableSound no_sharing
                    (initial_store (Some (Doc doc_disabled_command)))))
     = after_sound_set (loaded (initial_store (Some (Doc doc_disabled_command)))) false.
Proof.
  split; [intros x y H; discriminate H |]. split; [reflexivity |].
  apply (sound_toggle_effect no_sharing
           (initial_store (Some (Doc doc_disabled_command))));
    [intros x y H; discriminate H | reflexivity].
Defined.

(** ** Notification debounce over whole runs *)

Module NotifyRuns.
Import Notify NotifyFacts.

Lemma delivered_times_lookup
  (platform msg : string) (calls : list call) (tbl tbl' : gmap string Z) :
  tbl !! msg = tbl' !! msg ->
  delivered_times platform msg calls tbl
  = delivered_times platform msg (calls_with msg calls) tbl'.
Proof.
  revert tbl tbl'.
  induction calls as [| c calls IH]; intros tbl tbl' Hl; [reflexivity |].
  rewrite delivered_times_cons. cbn [calls_with List.filter].
  destruct (String.eqb_spec (call_message c) msg) as [Heq | Hne].
  - rewrite delivered_times_cons. rewrite Heq, String.eqb_refl.
    rewrite (debounced_lookup tbl tbl' msg _ Hl).
    f_equal. apply IH.
    destruct (debounced tbl' msg (call_now c)); [exact Hl |].
    apply write_same. exact Hl.
  - cbn [app]. apply IH.
    destruct (debounced tbl (call_message c) (call_now c)); [exact Hl |].
    rewrite write_ne by exact Hne. exact Hl.
Qed.

(** Notifications with different texts do not interfere: which calls
    with the text [msg] are delivered is the same whether or not the calls
    with other texts are made. *)
Theorem other_texts_do_not_interfere
  (platform msg : string) (calls : list call) (tbl : gmap string Z) :
  delivered_times platform msg calls tbl
  = delivered_times platform msg (calls_with msg calls) tbl.
Proof. apply delivered_times_lookup. reflexivity. Qed.

(** While the entry of [msg] is [t1], no call made less than 1000 ms
    after [t1] is delivered with that text, and the entry stays. *)
Lemma within_window_all_suppressed
  (platform msg : string) (t1 : Z) (calls : list call) (tbl : gmap string Z) :
  msg <> "__proto__" ->
  (0 < t1)%Z ->
  Forall (fun c => (call_now c - t1 < 1000)%Z) calls ->
  tbl !! msg = Some t1 ->
  delivered_times platform msg calls tbl = []
  /\ fst (run platform calls tbl) !! msg = Some t1.
Proof.
  intros Hproto Hpos Hc. revert tbl.
  induction Hc as [| c calls Hc _ IH]; intros tbl Hl.
  - split; [reflexivity | exact Hl].
  - rewrite delivered_times_cons, run_cons. unfold sendNotification.
    destruct (String.eqb_spec (call_message c) msg) as [Heq | Hne].
    + assert (Hd : debounced tbl (call_message c) (call_now c) = true).
      { rewrite Heq, (debounced_recorded tbl msg t1 _ Hproto Hl). unfold DEBOUNCE_MS.
        apply andb_true_iff. split.
        - apply negb_true_iff, Z.eqb_neq. lia.
        - apply Z.ltb_lt. exact Hc. }
      rewrite Hd. cbn [app fst]. apply IH. exact Hl.
    + destruct (debounced tbl (call_message c) (call_now c)); cbn [app fst];
        apply IH; [exact Hl |].
      rewrite write_ne by exact Hne. exact Hl.
Qed.

(** A call that is held back does not restart the interval.  For a text
    other than ["__proto__"] and positive clock readings: once a call at [t1]
    is delivered, none of the calls made less than 1000 ms after [t1] is
    delivered with that text, however many there are and whatever other texts
    come in between, and the first call with that text at 1000 ms or more
    after [t1] is delivered. *)
Theorem suppressed_calls_do_not_extend_the_window
  (platform msg : string) (timeout1 timeout3 : number) (t1 t3 : Z)
  (tbl : gmap string Z) (calls : list call) :
  msg <> "__proto__" ->
  (0 < t1)%Z ->
  debounced tbl msg t1 = false ->
  Forall (fun c => (call_now c - t1 < 1000)%Z) calls ->
  (1000 <= t3 - t1)%Z ->
  (exists o, snd (sendNotification platform msg timeout1 t1 tbl) = Some o
             /\ message o = msg)
  /\ delivered_times platform msg calls
       (fst (sendNotification platform msg timeout1 t1 tbl)) = []
  /\ exists o,
       snd (sendNotification platform msg timeout3 t3
              (fst (run platform calls
                      (fst (sendNotification platform msg timeout1 t1 tbl)))))
       = Some o /\ message o = msg.
Proof.
  intros Hproto Hpos Hfirst Hc Hlate.
  split; [apply sendNotification_delivered; exact Hfirst |].
  destruct (within_window_all_suppressed platform msg t1 calls
              (fst (sendNotification platform msg timeout1 t1 tbl)) Hproto Hpos Hc
              (sendNotification_recorded platform msg timeout1 t1 tbl Hproto Hfirst))
    as [Hd Ht].
  split; [exact Hd |].
  apply sendNotification_delivered.
  rewrite (debounced_recorded _ msg t1 t3 Hproto Ht). unfold DEBOUNCE_MS.
  apply andb_false_iff. right. apply Z.ltb_ge. lia.
Qed.

Lemma suppressed_calls_do_not_extend_the_window_witness :
  "Session has finished" <> "__proto__"
  /\ (0 < 1700000000000)%Z
  /\ debounced ∅ "Session has finished" 1700000000000 = false
  /\ Forall (fun c => (call_now c - 1700000000000 < 1000)%Z) (tl burst)
  /\ (1000 <= 1700000001000 - 1700000000000)%Z
  /\ delivered_times "Linux" "Session has finished" (tl burst)
       (fst (sendNotification "Linux" "Session has finished" (Fin 5)
               1700000000000 ∅)) = [].
Proof.
  split; [discriminate |]. split; [lia |]. split; [reflexivity |].
  split; [repeat constructor; cbn; lia |]. split; [lia |].
  apply (suppressed_calls_do_not_extend_the_window "Linux" "Session has finished"
           (Fin 5) (Fin 5) 1700000000000 1700000001000 ∅ (tl burst));
    [discriminate | lia | reflexivity | repeat constructor; cbn; lia | lia].
Defined.

Lemma delivered_one_second_apart_witness :
  "Session has finished" <> "__proto__"
  /\ Forall (fun c => (0 < call_now c)%Z) burst
  /\ monotone_clock burst
  /\ one_second_apart (delivered_times "Linux" "Session has finished" burst ∅).
Proof.
  assert (Hne : "Session has finished" <> "__proto__") by discriminate.
  assert (Hpos : Forall (fun c => (0 < call_now c)%Z) burst)
    by (repeat constructor; cbn; lia).
  assert (Hmono : monotone_clock burst)
    by (repeat constructor; cbn; lia).
  split; [exact Hne |]. split; [exact Hpos |]. split; [exact Hmono |].
  exact (delivered_one_second_apart "Linux" "Session has finished" burst Hne Hpos Hmono).
Defined.

End NotifyRuns.

(** ** Terminal-focus detection *)

Lemma toLowerCase_app (a b : string) :
  toLowerCase (a ++ b)%string = (toLowerCase a ++ toLowerCase b)%string.
Proof.
  induction a as [| c a IH]; simpl; [reflexivity |].
  rewrite IH. reflexivity.
Qed.

Lemma strip_non_alnum_app (a b : string) :
  strip_non_alnum (a ++ b)%string = (strip_non_alnum a ++ strip_non_alnum b)%string.
Proof.
  induction a as [| c a IH]; simpl; [reflexivity |].
  rewrite IH. destruct (is_alnum_lower c); reflexivity.
Qed.

Lemma normalizeAppName_app (a b : string) :
  normalizeAppName (a ++ b)%string = (normalizeAppName a ++ normalizeAppName b)%string.
Proof. unfold normalizeAppName. rewrite toLowerCase_app. apply strip_non_alnum_app. Qed.

Lemma lower_ascii_alnum (c : ascii) : is_alnum_lower c = true -> lower_ascii c = c.
Proof.
  destruct c as [[] [] [] [] [] [] [] []]; intros H; try reflexivity; discriminate H.
Qed.

Lemma strip_non_alnum_fixed (s : string) :
  toLowerCase (strip_non_alnum s) = strip_non_alnum s
  /\ strip_non_alnum (strip_non_alnum s) = strip_non_alnum s.
Proof.
  induction s as [| c s [IH1 IH2]]; cbn [strip_non_alnum]; [split; reflexivity |].
  destruct (is_alnum_lower c) eqn:E; [| split; assumption].
  cbn [toLowerCase strip_non_alnum]. rewrite E, IH1, IH2, (lower_ascii_alnum c E).
  split; reflexivity.
Qed.

Lemma normalizeAppName_fixed (value : string) :
  normalizeAppName (normalizeAppName value) = normalizeAppName value
  /\ forall c, In c (list_ascii_of_string (normalizeAppName value)) ->
               is_alnum_lower c = true.
Proof.
  split; [| apply normalizeAppName_alnum].
  unfold normalizeAppName.
  destruct (strip_non_alnum_fixed (toLowerCase value)) as [H1 H2].
  rewrite H1. exact H2.
Qed.

(** Normalizing a name twice changes nothing more, and the normalized
    name consists of lower-case letters and digits only. *)
Theorem normalizeAppName_idempotent (value : string) :
  normalizeAppName (normalizeAppName value) = normalizeAppName value
  /\ forall c, In c (list_ascii_of_string (normalizeAppName value)) ->
               is_alnum_lower c = true.
Proof. intros. eapply normalizeAppName_fixed; eassumption. Qed.

Lemma toLowerCase_idempotent (s : string) : toLowerCase (toLowerCase s) = toLowerCase s.
Proof.
  induction s as [| c s IH]; cbn [toLowerCase]; [reflexivity |].
  rewrite IH. f_equal. unfold lower_ascii at 1.
  destruct (is_upper (lower_ascii c)) eqn:E; [| reflexivity].
  destruct c as [[] [] [] [] [] [] [] []]; cbv in E; discriminate E.
Qed.

(** The match is symmetric in its two names and depends on them only up
    to case and to characters outside letters and digits. *)
Theorem matchesTerminal_symmetric_and_normalizing (frontmost terminal : string) :
  matchesTerminal frontmost terminal = matchesTerminal terminal frontmost
  /\ matchesTerminal (normalizeAppName frontmost) terminal
     = matchesTerminal frontmost terminal
  /\ matchesTerminal (toLowerCase frontmost) terminal
     = matchesTerminal frontmost terminal.
Proof.
  destruct (normalizeAppName_fixed frontmost) as [Hi _].
  assert (Hl : normalizeAppName (toLowerCase frontmost) = normalizeAppName frontmost)
    by (unfold normalizeAppName; rewrite toLowerCase_idempotent; reflexivity).
  unfold matchesTerminal. cbv zeta. rewrite Hi, Hl.
  split; [| split; reflexivity].
  rewrite (orb_comm (String.eqb (normalizeAppName frontmost) "")).
  rewrite (orb_comm (includes (normalizeAppName frontmost) (normalizeAppName terminal))).
  reflexivity.
Qed.

Lemma matchesTerminal_iff_normalized (frontmost terminal : string) :
  matchesTerminal frontmost terminal = true <->
  normalizeAppName frontmost <> "" /\
  normalizeAppName terminal <> "" /\
  (contains (normalizeAppName frontmost) (normalizeAppName terminal) \/
   contains (normalizeAppName terminal) (normalizeAppName frontmost)).
Proof.
  unfold matchesTerminal. cbv zeta.
  rewrite <- !eqb_empty_false_iff, <- !includes_true_iff, <- orb_true_iff.
  destruct (String.eqb (normalizeAppName frontmost) "");
    destruct (String.eqb (normalizeAppName terminal) ""); cbn [orb];
    intuition congruence.
Qed.

(** Branding variants match: a frontmost name that contains the terminal
    name, with anything before and after it, matches as soon as the terminal
    name has a letter or a digit. *)
Theorem matchesTerminal_vendor_variant (before terminal after : string) :
  normalizeAppName terminal <> "" ->
  matchesTerminal (before ++ terminal ++ after)%string terminal = true.
Proof.
  intros Ht. apply matchesTerminal_iff_normalized.
  rewrite !normalizeAppName_app.
  split; [| split; [exact Ht |]].
  - intros H.
    destruct (normalizeAppName before); [| discriminate H].
    destruct (normalizeAppName terminal); [congruence | discriminate H].
  - left. exists (normalizeAppName before), (normalizeAppName after). reflexivity.
Qed.

Lemma matchesTerminal_vendor_variant_witness :
  normalizeAppName "WezTerm" <> ""
  /\ matchesTerminal ("" ++ "WezTerm" ++ "-gui.exe")%string "WezTerm" = true.
Proof.
  split; [discriminate |].
  apply (matchesTerminal_vendor_variant "" "WezTerm" "-gui.exe"). discriminate.
Defined.

(** The table lookup misses the strings exactly for the two lower-case
    names that [Object.prototype] defines. *)
Lemma getTerminalProcessName_None_iff (terminalName : string) :
  getTerminalProcessName terminalName = None <->
  toLowerCase terminalName = "constructor" \/ toLowerCase terminalName = "__proto__".
Proof.
  unfold getTerminalProcessName.
  pose proof (toLowerCase_idempotent terminalName) as Hidem.
  split.
  - destruct (table_lookup (toLowerCase terminalName) TERMINAL_PROCESS_NAMES);
      [discriminate |].
    unfold inherited, Object_prototype_keys. cbn [existsb].
    repeat match goal with
           | |- context [String.eqb (toLowerCase terminalName) ?k] =>
               destruct (String.eqb_spec (toLowerCase terminalName) k) as [Hk | _];
               [first [ left; exact Hk | right; exact Hk
                      | rewrite Hk in Hidem; discriminate Hidem ] |]
           end.
    cbn [orb]. discriminate.
  - intros [H | H]; rewrite H; reflexivity.
Qed.

(** The outcomes of the detector.  It answers "focused" only on macOS and
    Windows, and only when a terminal was detected and the query for the
    frontmost application gave a non-empty answer.  It throws exactly on
    macOS, when the query gave a non-empty answer and the detected terminal
    name in lower case is ["constructor"] or ["__proto__"]. *)
Theorem isTerminalFocused_outcomes (m : machine) :
  (isTerminalFocused m = Some true ->
   exists terminalName frontmost,
     detectTerminal m = Some terminalName /\ terminalName <> ""
     /\ frontmost <> ""
     /\ ((platform m = darwin /\ osascript_stdout m = Some frontmost)
         \/ (platform m = win32 /\ powershell_stdout m = Some frontmost)))
  /\ (isTerminalFocused m = None <->
      exists terminalName frontmost,
        platform m = darwin
        /\ detectTerminal m = Some terminalName /\ terminalName <> ""
        /\ osascript_stdout m = Some frontmost /\ frontmost <> ""
        /\ (toLowerCase terminalName = "constructor"
            \/ toLowerCase terminalName = "__proto__")).
Proof.
  unfold isTerminalFocused, getFrontmostAppMac, getFrontmostProcessWindows.
  split; [| split].
  - destruct (detectTerminal m) as [t |]; [| discriminate].
    destruct (String.eqb_spec t "") as [-> | Ht]; [discriminate |].
    destruct (platform m); try discriminate.
    + destruct (osascript_stdout m) as [f |]; [| discriminate].
      destruct (String.eqb_spec f "") as [-> | Hf]; [discriminate |].
      intros _. exists t, f. repeat split; try assumption. left. split; reflexivity.
    + destruct (powershell_stdout m) as [f |]; [| discriminate].
      destruct (String.eqb_spec f "") as [-> | Hf]; [discriminate |].
      intros _. exists t, f. repeat split; try assumption. right. split; reflexivity.
  - destruct (detectTerminal m) as [t |]; [| discriminate].
    destruct (String.eqb_spec t "") as [-> | Ht]; [discriminate |].
    destruct (platform m); try discriminate.
    + destruct (osascript_stdout m) as [f |]; [| discriminate].
      destruct (String.eqb_spec f "") as [-> | Hf]; [discriminate |].
      destruct (getTerminalProcessName t) as [name |] eqn:Hn; [discriminate |].
      intros _. exists t, f. apply getTerminalProcessName_None_iff in Hn.
      repeat split; assumption.
    + destruct (powershell_stdout m) as [f |]; [| discriminate].
      destruct (String.eqb f ""); discriminate.
  - intros [t [f [Hp [Hd [Ht [Ho [Hf Hk]]]]]]].
    rewrite Hd, Hp, Ho. apply String.eqb_neq in Ht, Hf. rewrite Ht, Hf.
    apply getTerminalProcessName_None_iff in Hk. rewrite Hk. reflexivity.
Qed.

(** ** Event dispatch *)

Lemma handleEvent_calls
  (m : machine) (config : PluginConfig) (eventType : EventType)
  (projectName : option string) (elapsedSeconds : option number) (a : action) :
  In a (handleEvent m config eventType projectName elapsedSeconds) ->
  match a with
  | SendNotification title message t =>
      truthy (isEventNotificationEnabled config eventType) = true
      /\ title = getNotificationTitle config projectName
      /\ message = getMessage config eventType
      /\ t = timeout config
  | PlaySound e path =>
      truthy (isEventSoundEnabled config eventType) = true
      /\ e = eventType /\ path = getSoundPath config eventType
  | RunCommand c e message =>
      shouldSkipCommand (CommandConfig.minDuration (command config)) elapsedSeconds
      = false
      /\ c = config /\ e = eventType /\ message = getMessage config eventType
  end.
Proof.
  unfold handleEvent, notification_step.
  destruct (truthy (isEventNotificationEnabled config eventType)) eqn:Hn;
    [destruct (truthy (suppressWhenFocused config));
       [destruct (isTerminalFocused m) as [[|] |] |] |];
    destruct (truthy (isEventSoundEnabled config eventType)) eqn:Hs;
    destruct (shouldSkipCommand _ elapsedSeconds) eqn:Hk;
    cbn [app In]; intros H;
    repeat (destruct H as [<- | H]; [repeat split; assumption |]);
    destruct H.
Qed.

(** Every call [handleEvent] makes is licensed by the config: a
    notification only for an event whose notification flag is truthy, a sound
    only for one whose sound flag is truthy, the command only when the gate
    does not skip it; and each call carries the event's own title, message,
    timeout and sound path. *)
Theorem handleEvent_calls_are_licensed
  (m : machine) (config : PluginConfig) (eventType : EventType)
  (projectName : option string) (elapsedSeconds : option number) (a : action) :
  In a (handleEvent m config eventType projectName elapsedSeconds) ->
  match a with
  | SendNotification title message t =>
      truthy (isEventNotificationEnabled config eventType) = true
      /\ title = getNotificationTitle config projectName
      /\ message = getMessage config eventType
      /\ t = timeout config
  | PlaySound e path =>
      truthy (isEventSoundEnabled config eventType) = true
      /\ e = eventType /\ path = getSoundPath config eventType
  | RunCommand c e message =>
      shouldSkipCommand (CommandConfig.minDuration (command config)) elapsedSeconds
      = false
      /\ c = config /\ e = eventType /\ message = getMessage config eventType
  end.
Proof. intros. eapply handleEvent_calls; eassumption. Qed.

Lemma handleEvent_calls_are_licensed_witness :
  In (PlaySound complete VNull)
     (handleEvent focused_mac (plugin_config DEFAULT_CONFIG) complete None None)
  /\ truthy (isEventSoundEnabled (plugin_config DEFAULT_CONFIG) complete) = true.
Proof.
  split; [right; left; reflexivity |].
  apply (handleEvent_calls_are_licensed focused_mac (plugin_config DEFAULT_CONFIG)
           complete None None (PlaySound complete VNull)).
  right. left. reflexivity.
Defined.

Lemma handleEvent_RunCommand_iff
  (m : machine) (config : PluginConfig) (eventType : EventType)
  (projectName : option string) (elapsedSeconds : option number) :
  short_circuited m config eventType = false ->
  In (RunCommand config eventType (getMessage config eventType))
     (handleEvent m config eventType projectName elapsedSeconds)
  <-> shouldSkipCommand (CommandConfig.minDuration (command config)) elapsedSeconds
      = false.
Proof.
  intros Hs. split.
  - intros H. apply handleEvent_calls in H. tauto.
  - apply handleEvent_runs_command. exact Hs.
Qed.

(** With a positive [minDuration] and a known elapsed time, the command
    is called exactly when the elapsed time has reached [minDuration]
    (provided the handler did not end in the notification branch, on a
    focused terminal or a failing focus detection). *)
Theorem command_runs_iff_minDuration_reached
  (m : machine) (config : PluginConfig) (eventType : EventType)
  (projectName : option string) (minDuration elapsed : Q) :
  short_circuited m config eventType = false ->
  CommandConfig.minDuration (command config) = Fin minDuration ->
  (0 < minDuration)%Q ->
  In (RunCommand config eventType (getMessage config eventType))
     (handleEvent m config eventType projectName (Some (Fin elapsed)))
  <-> (minDuration <= elapsed)%Q.
Proof.
  intros Hs Hmd Hpos. rewrite (handleEvent_RunCommand_iff _ _ _ _ _ Hs), Hmd.
  unfold shouldSkipCommand, num_gt, num_lt, zero, Qltb. cbn [isFinite andb].
  assert (H0 : Qle_bool minDuration 0 = false).
  { destruct (Qle_bool minDuration 0) eqn:E; [| reflexivity].
    apply Qle_bool_iff in E. exfalso. exact (Qlt_not_le _ _ Hpos E). }
  rewrite H0. cbn [negb andb]. rewrite negb_false_iff. apply Qle_bool_iff.
Qed.

Lemma command_runs_iff_minDuration_reached_witness :
  short_circuited focused_mac (gated_config VUndef) complete = false
  /\ CommandConfig.minDuration (command (gated_config VUndef)) = Fin 30
  /\ (0 < 30)%Q
  /\ (In (RunCommand (gated_config VUndef) complete
            (getMessage (gated_config VUndef) complete))
         (handleEvent focused_mac (gated_config VUndef) complete None (Some (Fin 31)))
      <-> (30 <= 31)%Q).
Proof.
  split; [reflexivity |]. split; [reflexivity |]. split; [reflexivity |].
  apply (command_runs_iff_minDuration_reached focused_mac (gated_config VUndef)
           complete None 30 31); reflexivity.
Defined.

(** On Linux and on every platform other than macOS and Windows the
    suppression flag has no effect: an enabled notification is always
    sent. *)
Theorem no_suppression_off_mac_and_windows
  (m : machine) (config : PluginConfig) (eventType : EventType)
  (projectName : option string) (elapsedSeconds : option number) :
  platform m = linux \/ platform m = other_platform ->
  truthy (isEventNotificationEnabled config eventType) = true ->
  In (SendNotification (getNotificationTitle config projectName)
        (getMessage config eventType) (timeout config))
     (handleEvent m config eventType projectName elapsedSeconds).
Proof.
  intros Hp Hn.
  assert (Hf : isTerminalFocused m = Some false).
  { unfold isTerminalFocused. destruct (detectTerminal m) as [t |]; [| reflexivity].
    destruct (String.eqb t ""); [reflexivity |].
    destruct Hp as [-> | ->]; reflexivity. }
  unfold handleEvent, notification_step. rewrite Hn, Hf.
  destruct (truthy (suppressWhenFocused config));
    destruct (truthy (isEventSoundEnabled config eventType));
    destruct (shouldSkipCommand _ elapsedSeconds); cbn [app In]; auto.
Qed.

Lemma no_suppression_off_mac_and_windows_witness :
  (platform (mkMachine linux (Some "kitty") (Some "kitty") (Some "kitty")) = linux
   \/ platform (mkMachine linux (Some "kitty") (Some "kitty") (Some "kitty"))
      = other_platform)
  /\ truthy (isEventNotificationEnabled suppressing_config complete) = true
  /\ In (SendNotification "OpenCode" (VStr "Session has finished") (Fin 5))
        (handleEvent (mkMachine linux (Some "kitty") (Some "kitty") (Some "kitty"))
           suppressing_config complete None None).
Proof.
  split; [left; reflexivity |]. split; [reflexivity |].
  apply (no_suppression_off_mac_and_windows
           (mkMachine linux (Some "kitty") (Some "kitty") (Some "kitty"))
           suppressing_config complete None None); [left; reflexivity | reflexivity].
Defined.

Lemma handleEvent_plugin_config
  (m : machine) (c : NotifierConfig) (eventType : EventType)
  (projectName : option string) (elapsedSeconds : option number) :
  handleEvent m (plugin_config c) eventType projectName elapsedSeconds
  = Legacy.handleEvent c eventType projectName
    ++ (if shouldSkipCommand (CommandConfig.minDuration (command c)) elapsedSeconds
        then []
        else [RunCommand (plugin_config c) eventType (getMessage c eventType)]).
Proof.
  unfold handleEvent, notification_step, Legacy.handleEvent.
  cbn [plugin_config base suppressWhenFocused truthy andb].
  destruct (truthy (isEventNotificationEnabled c eventType));
    destruct (truthy (isEventSoundEnabled c eventType));
    destruct (shouldSkipCommand _ elapsedSeconds);
    cbn [app]; reflexivity.
Qed.

(** With the config object the plugin gets from [loadConfig], which never
    carries [suppressWhenFocused], the handler makes the calls of the handler
    of src/index.ts and then calls [runCommand] unless the gate skips it; the
    terminal focus plays no part. *)
Theorem handleEvent_with_loaded_config
  (m : machine) (c : NotifierConfig) (eventType : EventType)
  (projectName : option string) (elapsedSeconds : option number) :
  handleEvent m (plugin_config c) eventType projectName elapsedSeconds
  = Legacy.handleEvent c eventType projectName
    ++ (if shouldSkipCommand (CommandConfig.minDuration (command c)) elapsedSeconds
        then []
        else [RunCommand (plugin_config c) eventType (getMessage c eventType)]).
Proof. intros. eapply handleEvent_plugin_config; eassumption. Qed.

(** The two hooks that pass no elapsed time are never gated: with the
    loaded config, ["permission.ask"] always ends with the [runCommand] call,
    and ["tool.execute.before"] does so for the question tool and makes no
    call for any other tool. *)
Theorem hooks_always_run_command
  (m : machine) (c : NotifierConfig) (projectName : option string) (tool : string) :
  NotifierPlugin_permission_ask m (plugin_config c) projectName
  = Legacy.handleEvent c permission projectName
    ++ [RunCommand (plugin_config c) permission (getMessage c permission)]
  /\ NotifierPlugin_tool_execute_before m (plugin_config c) projectName
       (VObj [("tool", VStr tool)])
     = if String.eqb tool "question"
       then Legacy.handleEvent c question projectName
            ++ [RunCommand (plugin_config c) question (getMessage c question)]
       else [].
Proof.
  unfold NotifierPlugin_permission_ask, NotifierPlugin_tool_execute_before.
  cbn [opt_prop lookup_key String.eqb Ascii.eqb Bool.eqb].
  rewrite !handleEvent_plugin_config.
  unfold shouldSkipCommand. rewrite andb_false_r.
  split; [reflexivity |]. destruct (String.eqb tool "question"); reflexivity.
Qed.

(** *** Elapsed time since the last prompt *)

Lemma Qltb_true_iff (a b : Q) : Qltb a b = true <-> (a < b)%Q.
Proof.
  unfold Qltb. rewrite negb_true_iff. split.
  - intros H. apply Qnot_le_lt. intros Hle. apply Qle_bool_iff in Hle. congruence.
  - intros H. destruct (Qle_bool b a) eqn:E; [| reflexivity].
    apply Qle_bool_iff in E. exfalso. exact (Qlt_not_le _ _ H E).
Qed.

Lemma Qltb_false_iff (a b : Q) : Qltb a b = false <-> (b <= a)%Q.
Proof.
  unfold Qltb. rewrite negb_false_iff. apply Qle_bool_iff.
Qed.

(** [>] on numbers is a strict order in which NaN compares with
    nothing. *)
Lemma num_gt_irrefl (a : number) : num_gt a a = false.
Proof.
  destruct a as [q | | |]; try reflexivity.
  unfold num_gt, num_lt. apply Qltb_false_iff. apply Qle_refl.
Qed.

Lemma num_gt_asym (a b : number) : num_gt a b = true -> num_gt b a = false.
Proof.
  destruct a as [x | | |], b as [y | | |]; try reflexivity; try discriminate.
  unfold num_gt, num_lt. rewrite Qltb_true_iff, Qltb_false_iff. apply Qlt_le_weak.
Qed.

Lemma num_gt_trans (a b c : number) :
  num_gt a b = true -> num_gt b c = true -> num_gt a c = true.
Proof.
  destruct a as [x | | |], b as [y | | |], c as [z | | |];
    try reflexivity; try discriminate.
  unfold num_gt, num_lt. rewrite !Qltb_true_iff. intros H1 H2.
  exact (Qlt_trans _ _ _ H2 H1).
Qed.

Lemma num_gt_below (x a t : number) :
  num_gt x a = false -> num_gt t a = true -> num_gt x t = false.
Proof.
  destruct x as [p | | |], a as [y | | |], t as [z | | |];
    try reflexivity; try discriminate.
  unfold num_gt, num_lt. rewrite Qltb_true_iff, !Qltb_false_iff. intros H1 H2.
  apply Qlt_le_weak. exact (Qle_lt_trans _ _ _ H1 H2).
Qed.

(** The loop of [getElapsedSinceLastPrompt], from any value of its
    variable: the result is that value or the time of a user message; it is
    the starting value or compares greater than it; and no user message's
    time compares greater than the result. *)
Lemma lastUserMessageTime_fold
  (messages : list session_message) (acc : option number) (t : number) :
  fold_left
    (fun (last : option number) (msg : session_message) =>
       if String.eqb (role msg) "user" then
         match created msg with
         | Some t =>
             match last with
             | None => Some t
             | Some l => if num_gt t l then Some t else last
             end
         | None => last
         end
       else last)
    messages acc = Some t ->
  (acc = Some t
   \/ exists msg, In msg messages /\ role msg = "user" /\ created msg = Some t)
  /\ (forall a, acc = Some a -> t = a \/ num_gt t a = true)
  /\ (forall msg t', In msg messages -> role msg = "user" ->
                     created msg = Some t' -> num_gt t' t = false).
Proof.
  revert acc. induction messages as [| msg l IH]; intros acc H; cbn [fold_left] in H.
  - split; [left; exact H |]. split.
    + intros a Ha. rewrite Ha in H. injection H as ->. left. reflexivity.
    + intros msg t' [].
  - apply IH in H. destruct H as [Hfrom [Hacc Hall]].
    assert (Hkeep :
              forall acc',
                (acc' = Some t
                 \/ exists x, In x l /\ role x = "user" /\ created x = Some t) ->
                (acc' = acc \/ exists tm, role msg = "user" /\ created msg = Some tm
                                          /\ acc' = Some tm) ->
                acc = Some t
                \/ exists x, In x (msg :: l) /\ role x = "user" /\ created x = Some t).
    { intros acc' [Hf | [x [Hx Hr]]] Hstep.
      - destruct Hstep as [-> | [tm [Hu [Hc ->]]]]; [left; exact Hf |].
        injection Hf as ->. right. exists msg. split; [left; reflexivity |].
        split; assumption.
      - right. exists x. split; [right; exact Hx | exact Hr]. }
    destruct (String.eqb_spec (role msg) "user") as [Hu | Hu].
    + destruct (created msg) as [tm |] eqn:Hc.
      * destruct acc as [a |].
        -- destruct (num_gt tm a) eqn:Hgt.
           ++ destruct (Hacc tm eq_refl) as [-> | Hlt].
              ** split; [| split].
                 --- eapply Hkeep; [exact Hfrom |]. right. exists tm. auto.
                 --- intros a' Ha. injection Ha as <-. right. exact Hgt.
                 --- intros x t' [<- | Hx] Hr Ht; [| exact (Hall x t' Hx Hr Ht)].
                     rewrite Hc in Ht. injection Ht as <-. apply num_gt_irrefl.
              ** split; [| split].
                 --- eapply Hkeep; [exact Hfrom |]. right. exists tm. auto.
                 --- intros a' Ha. injection Ha as <-. right.
                     exact (num_gt_trans _ _ _ Hlt Hgt).
                 --- intros x t' [<- | Hx] Hr Ht; [| exact (Hall x t' Hx Hr Ht)].
                     rewrite Hc in Ht. injection Ht as <-. apply num_gt_asym. exact Hlt.
           ++ split; [| split].
              ** eapply Hkeep; [exact Hfrom |]. left. reflexivity.
              ** exact Hacc.
              ** intros x t' [<- | Hx] Hr Ht; [| exact (Hall x t' Hx Hr Ht)].
                 rewrite Hc in Ht. injection Ht as <-.
                 destruct (Hacc a eq_refl) as [-> | Hlt]; [exact Hgt |].
                 exact (num_gt_below _ _ _ Hgt Hlt).
        -- split; [| split].
           ++ eapply Hkeep; [exact Hfrom |]. right. exists tm. auto.
           ++ intros a Ha. discriminate Ha.
           ++ intros x t' [<- | Hx] Hr Ht; [| exact (Hall x t' Hx Hr Ht)].
              rewrite Hc in Ht. injection Ht as <-.
              destruct (Hacc tm eq_refl) as [-> | Hlt];
                [apply num_gt_irrefl | apply num_gt_asym; exact Hlt].
      * split; [| split].
        -- eapply Hkeep; [exact Hfrom |]. left. reflexivity.
        -- exact Hacc.
        -- intros x t' [<- | Hx] Hr Ht; [congruence | exact (Hall x t' Hx Hr Ht)].
    + split; [| split].
      * eapply Hkeep; [exact Hfrom |]. left. reflexivity.
      * exact Hacc.
      * intros x t' [<- | Hx] Hr Ht; [congruence | exact (Hall x t' Hx Hr Ht)].
Qed.

(** The elapsed time is measured from the latest user message: when
    [getElapsedSinceLastPrompt] answers, its answer is what the runtime
    computes for [(Date.now() - t) / 1000], where [t] is the creation time of
    a user message of the session and no user message of the session has a
    creation time that compares greater than [t]. *)
Theorem getElapsedSinceLastPrompt_uses_latest_user_message
  (client : host) (sessionID : string) (elapsed : number) :
  getElapsedSinceLastPrompt client sessionID = Some elapsed ->
  exists messages t,
    session_messages client sessionID = Some (Some messages)
    /\ elapsed = seconds_since client t
    /\ (exists msg, In msg messages /\ role msg = "user" /\ created msg = Some t)
    /\ (forall msg t', In msg messages -> role msg = "user" ->
                       created msg = Some t' -> num_gt t' t = false).
Proof.
  unfold getElapsedSinceLastPrompt.
  destruct (session_messages client sessionID) as [[l |] |]; try discriminate.
  destruct (lastUserMessageTime l) as [t |] eqn:Ht; [| discriminate].
  intros H. injection H as <-.
  apply lastUserMessageTime_fold in Ht. destruct Ht as [Hfrom [_ Hall]].
  exists l, t. split; [reflexivity |]. split; [reflexivity |].
  split; [| exact Hall].
  destruct Hfrom as [Hf | Hex]; [discriminate Hf | exact Hex].
Qed.

Lemma getElapsedSinceLastPrompt_uses_latest_user_message_witness :
  getElapsedSinceLastPrompt sample_client "s1"
  = Some (seconds_since sample_client (Fin 3000))
  /\ exists messages t,
       session_messages sample_client "s1" = Some (Some messages)
       /\ seconds_since sample_client (Fin 3000) = seconds_since sample_client t
       /\ (exists msg, In msg messages /\ role msg = "user" /\ created msg = Some t)
       /\ (forall msg t', In msg messages -> role msg = "user" ->
                          created msg = Some t' -> num_gt t' t = false).
Proof.
  split; [reflexivity |].
  apply (getElapsedSinceLastPrompt_uses_latest_user_message sample_client "s1").
  reflexivity.
Defined.

(** *** The event hook *)

Lemma event_hook_eq
  (client : plugin_client) (m : machine) (config : PluginConfig)
  (projectName : option string) (event : jsval) :
  NotifierPlugin_event client m config projectName event
  = match event_type_of client event with
    | Some eventType =>
        handleEventWithElapsedTime client m config eventType projectName event
    | None => []
    end.
Proof.
  unfold NotifierPlugin_event, event_type_of, type_is.
  destruct (opt_prop event "type") as [| | | | s | |]; try reflexivity.
  destruct (String.eqb_spec s "permission.updated") as [-> | H1];
    [cbn [String.eqb Ascii.eqb Bool.eqb]; rewrite !app_nil_r; reflexivity |].
  destruct (String.eqb_spec s "permission.asked") as [-> | H2];
    [cbn [String.eqb Ascii.eqb Bool.eqb app]; rewrite !app_nil_r; reflexivity |].
  destruct (String.eqb_spec s "session.idle") as [-> | H3].
  - cbn [String.eqb Ascii.eqb Bool.eqb app]. rewrite app_nil_r.
    destruct (getSessionIDFromEvent event) as [sid |]; [| reflexivity].
    destruct (isChildSession client sid); reflexivity.
  - cbn [app]. destruct (String.eqb s "session.error"); reflexivity.
Qed.

(** The four [if]s of the [event] hook act as one dispatch: an event is
    handled at most once, under the type [event_type_of] gives it.  Both
    spellings of the permission event are handled as [permission]; an idle
    session as [subagent_complete] when the host reports a parent for it, and
    as [complete] when it reports none, when the query fails, or when the
    event names no session; every other event makes no call. *)
Theorem event_hook_dispatches_once
  (client : plugin_client) (m : machine) (config : PluginConfig)
  (projectName : option string) (event : jsval) :
  NotifierPlugin_event client m config projectName event
  = match event_type_of client event with
    | Some eventType =>
        handleEventWithElapsedTime client m config eventType projectName event
    | None => []
    end.
Proof. intros. eapply event_hook_eq; eassumption. Qed.

Lemma subagent_flags_without_override (st : store) :
  no_override st subagent_complete = true ->
  at_event (events (loaded st)) subagent_complete
  = EventConfig.mk (VBool false) (VBool false).
Proof.
  unfold no_override. destruct (config_file st) as [[| j] |] eqn:Hf.
  - intros _. rewrite loaded_fallback by (right; exact Hf). reflexivity.
  - intros Hn. rewrite (loaded_doc st j Hf).
    destruct (loadable j) eqn:Hl; [| reflexivity].
    rewrite resolve_event.
    pose proof (loadable_event j subagent_complete Hl) as Hnn.
    cbn [event_name] in *.
    destruct (user_event_value j "subagent_complete"); try discriminate; reflexivity.
  - intros _. rewrite loaded_fallback by (left; exact Hf). reflexivity.
Qed.

(** Subagent completions are silent unless the user opts in: with the
    config loaded from a store that holds no override for
    [subagent_complete], the idle event of a session for which the host
    reports a parent sends no notification and plays no sound; the only call
    it can make is [runCommand]. *)
Theorem child_session_idle_is_silent
  (st : store) (client : plugin_client) (m : machine)
  (projectName : option string) (event : jsval) (sessionID : string) (a : action) :
  no_override st subagent_complete = true ->
  type_is event "session.idle" = true ->
  getSessionIDFromEvent event = Some sessionID ->
  isChildSession client sessionID = true ->
  In a (NotifierPlugin_event client m (plugin_config (loaded st)) projectName event) ->
  is_RunCommand a = true.
Proof.
  intros Hno Hty Hid Hch Hin.
  rewrite event_hook_eq in Hin.
  assert (Het : event_type_of client event = Some subagent_complete).
  { unfold event_type_of. unfold type_is in Hty.
    destruct (opt_prop event "type") as [| | | | s | |]; try discriminate Hty.
    apply String.eqb_eq in Hty. subst s. cbn [String.eqb Ascii.eqb Bool.eqb].
    rewrite Hid, Hch. reflexivity. }
  rewrite Het in Hin. unfold handleEventWithElapsedTime in Hin.
  apply handleEvent_calls in Hin.
  pose proof (subagent_flags_without_override st Hno) as Hflags.
  unfold isEventNotificationEnabled, isEventSoundEnabled in Hin.
  cbn [plugin_config base] in Hin. rewrite Hflags in Hin.
  destruct a; cbn [EventConfig.sound EventConfig.notification truthy] in Hin;
    [destruct Hin as [H _]; discriminate H
    | destruct Hin as [H _]; discriminate H
    | reflexivity].
Qed.

Lemma child_session_idle_is_silent_witness :
  no_override (initial_store (Some (Doc doc_globals_on))) subagent_complete = true
  /\ type_is (idle_event "s1") "session.idle" = true
  /\ getSessionIDFromEvent (idle_event "s1") = Some "s1"
  /\ isChildSession sample_client "s1" = true
  /\ In (RunCommand
           (plugin_config (loaded (initial_store (Some (Doc doc_globals_on)))))
           subagent_complete (VStr "Subagent task completed"))
        (NotifierPlugin_event sample_client focused_mac
           (plugin_config (loaded (initial_store (Some (Doc doc_globals_on)))))
           None (idle_event "s1"))
  /\ is_RunCommand
       (RunCommand
          (plugin_config (loaded (initial_store (Some (Doc doc_globals_on)))))
          subagent_complete (VStr "Subagent task completed")) = true.
Proof.
  repeat (split; [reflexivity |]).
  split; [left; reflexivity |].
  apply (child_session_idle_is_silent
           (initial_store (Some (Doc doc_globals_on))) sample_client focused_mac None
           (idle_event "s1") "s1"
           (RunCommand
              (plugin_config (loaded (initial_store (Some (Doc doc_globals_on)))))
              subagent_complete (VStr "Subagent task completed")));
    [reflexivity | reflexivity | reflexivity | reflexivity | left; reflexivity].
Defined.

(** ** Instances of the sound-toggle properties *)

Lemma enable_disable_set_the_flag_witness :
  existsSync (initial_store (Some Garbage)) = true
  /\ persisted_sound (fst (disableSound no_sharing (initial_store (Some Garbage))))
     = VBool false
  /\ getSoundStatus (fst (enableSound no_sharing (initial_store (Some Garbage))))
     = VBool true.
Proof.
  split; [reflexivity |].
  destruct (enable_disable_set_the_flag no_sharing (initial_store (Some Garbage))
              eq_refl) as [[_ [_ [_ He]]] [_ [_ [Hd _]]]].
  split; [exact Hd | exact He].
Defined.

Lemma soundStatus_after_set_witness :
  existsSync (initial_store (Some (Doc doc_sound_off))) = true
  /\ snd (soundStatus
            (fst (enableSound no_sharing (initial_store (Some (Doc doc_sound_off))))))
     = mkResult true "Sounds are currently enabled." (VBool true).
Proof.
  split; [reflexivity |].
  destruct (soundStatus_after_set no_sharing (initial_store (Some (Doc doc_sound_off)))
              eq_refl) as [He _].
  rewrite He. reflexivity.
Defined.

Lemma toggleSound_on_fallback_witness :
  existsSync (initial_store (Some (Doc doc_null_entry))) = true
  /\ loadConfig (initial_store (Some (Doc doc_null_entry))) = TheDefault
  /\ persisted_sound (initial_store (Some (Doc doc_null_entry))) = VBool false
  /\ soundEnabled
       (snd (toggleSound no_sharing (initial_store (Some (Doc doc_null_entry)))))
     = VBool false
  /\ default_sound
       (fst (toggleSound no_sharing (initial_store (Some (Doc doc_null_entry)))))
     = false.
Proof.
  repeat (split; [reflexivity |]).
  rewrite (toggleSound_on_fallback no_sharing
             (initial_store (Some (Doc doc_null_entry))) eq_refl eq_refl).
  split; reflexivity.
Defined.

Lemma disableSound_keeps_event_sound_witness :
  (forall x y, no_sharing x y = true -> x = y)
  /\ finite_file (initial_store (Some (Doc doc_partial))) = true
  /\ truthy (isEventSoundEnabled (loaded (initial_store (Some (Doc doc_partial))))
               complete) = true
  /\ In (PlaySound complete VNull)
        (handleEvent focused_mac
           (plugin_config
              (loaded (fst (disableSound no_sharing
                              (initial_store (Some (Doc doc_partial))))))) complete
           None None).
Proof.
  split; [intros x y H; discriminate H |]. split; [reflexivity |].
  split; [reflexivity |].
  apply (disableSound_keeps_event_sound no_sharing
           (initial_store (Some (Doc doc_partial))) focused_mac complete None None);
    [intros x y H; discriminate H | reflexivity | reflexivity].
Defined.

Lemma enableSound_idempotent_witness :
  (forall x y, no_sharing x y = true -> x = y)
  /\ finite_file (initial_store (Some (Doc doc_partial))) = true
  /\ enableSound no_sharing
       (fst (enableSound no_sharing (initial_store (Some (Doc doc_partial)))))
     = enableSound no_sharing (initial_store (Some (Doc doc_partial))).
Proof.
  split; [intros x y H; discriminate H |]. split; [reflexivity |].
  apply (enableSound_idempotent no_sharing (initial_store (Some (Doc doc_partial))));
    [intros x y H; discriminate H | reflexivity].
Defined.
